(* ===== verification/_CoqProject ===== *)
-Q . S2P
Prelude.v
Utf8.v
Strconv.v
Quote.v
QuoteProps.v
Duration.v
HostPort.v
LogLine.v
Timestamp.v
Fields.v
Runtime.v
Middleware.v
Readme.v
