(* ===== verification/Prelude.v ===== *)
(** * A verification development of [vma/logger]

    [vma/logger] is an HTTP access-log middleware for the chi router
    (src/logger.go, ported from gorilla/handlers).  It has two parts:

    - the formatter: [appendQuoted] escapes a byte string for a
      double-quoted log field, [prettyDuration] renders a latency,
      [buildCommonLogLine] assembles the Common Log Format line and
      [writeCommonLog] / [writeCombinedLog] append the Combined fields and
      the newline and hand the buffer to the sink in one [Write] call;
    - the middleware: [CommonLogger] / [CombinedLogger] take the sink,
      wrap the next handler, read the clock before and after it, observe
      the status and byte count through chi's [WrapResponseWriter], and
      call the formatter.

    Control flow: middleware -> next handler (through the wrapper) ->
    middleware reads the outcome -> formatter -> one [Write] to the sink.

    ** Layout (files in dependency order)

    - [Prelude] (this file): Go bytes as [list byte] ([bval], [byte_of]
      for Go's [byte(x)]), the [go_scope] notation [« "..." »] for
      byte-string literals and the [let*] option bind of the readers, the
      bit-level lemmas ([lor_add], [land_mask]) and tactics ([zlia],
      [zbits], [split_if]) the proofs share, [span] for readers, the
      [logger] hint database.
    - [Utf8]: Module [Utf8] models Go's [unicode/utf8] as [appendQuoted]
      calls it ([DecodeRuneInString] with the [first] and [acceptRanges]
      tables, [EncodeRune], [ValidRune]); library code, modelled from its
      Go source.  [DecodeRuneInString_decoded] classifies every result
      (the inductive view [decoded]).
    - [Strconv]: [strconv.IsPrint] (Latin-1 path written out, the Unicode
      tables behind the [UnicodeTables] class; [AllAbove] is the instance
      of the concrete runs) and [strconv.Itoa] with its reader.
    - [Quote]: [appendQuoted] (src/logger.go:60-122): [loop_rune] and
      [quote_step] are the loop body with every branch, [quote_loop] the
      loop with fuel; the reader [unquote] states the round trip.
    - [QuoteProps]: the same loop without fuel ([appendQuoted_wf], by
      well-founded recursion with Equations), the view [step_view] of one
      iteration, the size bounds, the escapes of double quotes and
      backslashes ([special_escapes] counts them) and the validity of the
      output as UTF-8 ([valid_utf8], Go's [utf8.ValidString]).
    - [Duration]: [prettyDuration] (src/logger.go:124-128) in binary64
      ([SpecFloat]) with [%.3f] as exact half-to-even rounding.
    - [HostPort]: [net.SplitHostPort] with all its errors, and
      [net.JoinHostPort] (library code, from Go's net/ipsock.go).
    - [LogLine]: the request record, [url.URL.RequestURI], the CLF time
      layout, then [log_username], [log_host], [log_uri],
      [buildCommonLogLine], [writeCommonLog], [writeCombinedLog]
      (src/logger.go:130-200); the sink is the list of buffers passed to
      [Write]; the readers [parse_common] / [parse_combined].
    - [Timestamp]: a reader [parse_clf] for the time field written by
      [ts.Format("02/Jan/2006:15:04:05 -0700")] (src/logger.go:165), its
      round trip and the field's fixed width.
    - [Fields]: the top-level field structure of a line, read by the
      four-state machine [lex_step] / [scan] (top level, brackets, quotes,
      backslash escape).
    - [Runtime]: Go's [int64] wrap-around, chi's [basicWriter] (Module
      [Chi]: status, byte count, the calls forwarded to the underlying
      writer) and Go's monotonic [Time.Sub] (Module [GoTime]).
    - [Middleware]: the handler [fn] of [CombinedLogger] /
      [CommonLogger] (src/logger.go:28-56) as a function of the two clock
      readings and the calls the next handler makes on the wrapper.
    - [Readme]: the README's example program and the line it shows
      (src/unnamed/part_000:18-43).

    ** What is proved

    - Escaping ([Quote], [QuoteProps]): no appended byte is an ASCII
      control byte or DEL; the field reads back exactly, valid UTF-8 or
      not; escaping is injective and the identity on plain text; as many
      double quotes as the input, each after a backslash, and exactly one
      backslash escape per double quote or backslash of the input (the
      specification's section 8); the output is valid UTF-8 and every
      character of it is printable ([strconv.IsPrint]) whatever the input;
      at least [length s] and at most [6 * length s] bytes; the loop
      terminates.
    - Lines ([LogLine]): the buffers both writers hand to the sink read
      back as every field; one line per write when the raw fields hold no
      newline; the host policy on every path of [SplitHostPort], errors
      included; the CONNECT and missing-header policies; the
      specification's end-to-end line is computed as an example; the
      Common line has
      eight top-level fields and the Combined line two more, whatever the
      escaped fields hold ([Fields]; the specification says seven while
      listing eight); the time field reads back, to the minute of the
      zone offset, and is 26 bytes wide ([Timestamp]).
    - The user name is written unescaped: a newline in it splits one
      request into two log lines ([writeCommonLog_username_injection]).
    - Middleware ([Middleware], [Runtime]): what [fn] logs (status, size,
      latency), with the latency clamped to int64 by [Time.Sub]; exactly
      one write per request, of the line of its format and one newline;
      chi's wrapper is transparent to the underlying writer; the size is
      the total byte count wrapped to [int64], negative past [2^63] bytes.
    - Latency ([Duration]): the field starts with a minus sign exactly for
      a negative duration, and its thousandths are the exact binary value
      rounded to nearest, ties to even.
    - README: for its [curl] request its program logs size 14, so it
      never prints the line the README shows (size 13).

    ** Fuel and bounds

    [quote_loop] gets [length s] as fuel: each iteration consumes at
    least one byte ([quote_step_width]); [quote_loop_enough] shows the
    fuel never cuts the loop short and [appendQuoted_wf_fuel] that the
    loop written without fuel is the same function.
    [unquote] gets [length l], one byte per step at least.  [FormatUint]
    gets [log2 u + 1] digits ([digits_fuel_enough]).  The time layout's
    fields have fixed widths: [clf_range] bounds a time to what they hold
    (two-digit day and clock, four-digit year, an offset under 100 h);
    outside it Go writes wider fields, which the round trip does not
    cover.  Byte counts and
    clock readings are Go [int64] values; [wrap64] and [subMono] write
    out their overflow.

    ** Not modelled

    net/http transport, the chi router ([chi.NewRouter], routing of other
    paths, [http.ListenAndServe]); the next handler is the list of its
    calls on the wrapper; chi's [Flush], [Hijack] and tee writer, which
    the logger does not use; the Unicode printability tables above 0xFF
    (a class parameter); time zones and the calendar ([Format] starts from
    the broken-down time); a bound on the error of the division in
    [prettyDuration] (the sign and the decimal rounding are proved, the
    binary64 quotient is only computed on samples); concurrent requests
    sharing the sink: the code adds no lock and the specification
    (section 5) leaves the atomicity and order of writes to the sink, so
    no claim is made about interleaved requests. *)

From Stdlib Require Import String ZArith List Lia Bool.
Export String.StringSyntax.
Import ListNotations.
Open Scope list_scope.

(** ** Go bytes *)

Abbreviation byte := Byte.byte.

(** A Go string or byte slice is a list of bytes. *)
Definition bs (s : String.string) : list byte := String.list_byte_of_string s.

Declare Scope go_scope.
Delimit Scope go_scope with go.
Notation "« s »" := (bs s%string) (format "« s »") : go_scope.

Open Scope Z_scope.

(** [rune(b)] / [int(b)]: the unsigned value of a byte. *)
Definition bval (b : byte) : Z := Z.of_N (Byte.to_N b).

(** [byte(z)]: Go's conversion keeps the low eight bits. *)
Definition byte_of (z : Z) : byte :=
  match Byte.of_N (Z.to_N (z mod 256)) with
  | Some b => b
  | None => Byte.x00
  end.

#[global] Arguments byte_of : simpl never.

Definition byteb (b1 b2 : byte) : bool := Z.eqb (bval b1) (bval b2).

(** ** Byte lemmas *)

Lemma bval_range b : 0 <= bval b < 256.
Proof.
  unfold bval. pose proof (Byte.to_N_bounded b). lia.
Qed.

Lemma bval_inj b1 b2 : bval b1 = bval b2 -> b1 = b2.
Proof.
  unfold bval. intros H. apply N2Z.inj in H.
  pose proof (Byte.of_to_N b1) as E1. pose proof (Byte.of_to_N b2) as E2.
  rewrite H in E1. congruence.
Qed.

Lemma bval_byte_of z : bval (byte_of z) = z mod 256.
Proof.
  unfold byte_of, bval.
  pose proof (Z.mod_pos_bound z 256 ltac:(lia)) as Hr.
  destruct (Byte.of_N (Z.to_N (z mod 256))) eqn:E.
  - apply Byte.to_of_N in E. rewrite E. lia.
  - apply Byte.of_N_None_iff in E. lia.
Qed.

Lemma byte_of_bval b : byte_of (bval b) = b.
Proof.
  apply bval_inj. rewrite bval_byte_of.
  apply Z.mod_small, bval_range.
Qed.

Lemma byte_of_small z b : bval b = z -> byte_of z = b.
Proof. intros <-. apply byte_of_bval. Qed.

Lemma byteb_eq b1 b2 : byteb b1 b2 = true <-> b1 = b2.
Proof.
  unfold byteb. rewrite Z.eqb_eq. split; [apply bval_inj | now intros ->].
Qed.

Lemma byteb_refl b : byteb b b = true.
Proof. apply byteb_eq. reflexivity. Qed.

(** A byte of a class that [c] is not in is not [c]. *)
Lemma byteb_false_of (p : byte -> bool) b c :
  p c = false -> p b = true -> byteb b c = false.
Proof.
  intros Hc Hb. destruct (byteb b c) eqn:E; [|reflexivity].
  apply byteb_eq in E. subst. congruence.
Qed.

(** Go's [==] on strings. *)
Definition bytes_eqb (a b : list byte) : bool :=
  if list_eq_dec Byte.byte_eq_dec a b then true else false.

Lemma bytes_eqb_eq a b : bytes_eqb a b = true <-> a = b.
Proof. unfold bytes_eqb. destruct (list_eq_dec _ a b); split; congruence. Qed.

(** ** Bit-level lemmas for the UTF-8 arithmetic *)

(** [c | y] adds when the low [k] bits of [c] are clear and [y] fits in
    them: the shape of every [t2 | byte(r>>6)] of the encoder. *)
Lemma lor_add c y k :
  0 <= k -> c mod 2 ^ k = 0 -> 0 <= y < 2 ^ k -> Z.lor c y = c + y.
Proof.
  intros Hk Hc Hy. rewrite <- Z.add_lor_land.
  enough (Z.land c y = 0) by lia.
  apply Z.bits_inj'. intros n Hn. rewrite Z.land_spec, Z.bits_0.
  destruct (Z.lt_ge_cases n k).
  - replace (Z.testbit c n) with false; [reflexivity|].
    rewrite <- Z.mod_pow2_bits_low with (n := k) by lia.
    rewrite Hc. now rewrite Z.bits_0.
  - destruct (Z.eq_dec y 0) as [->|Hy0]; [now rewrite Z.bits_0, andb_false_r|].
    rewrite (Z.bits_above_log2 y n); [now rewrite andb_false_r|lia|].
    assert (Z.log2 y < k) by (apply Z.log2_lt_pow2; lia). lia.
Qed.

Lemma land_mask x k : 0 <= k -> Z.land x (2 ^ k - 1) = x mod 2 ^ k.
Proof.
  intros Hk. rewrite <- Z.land_ones by exact Hk.
  now rewrite Z.ones_equiv, <- Z.sub_1_r.
Qed.

(** [zlia]: [lia] after naming the quotients and remainders. *)
Ltac zlia := Z.div_mod_to_equations; lia.

(** [zbits] turns the masks, shifts and ors of the UTF-8 code into
    [mod], [/], [*] and [+], which [zlia] handles. *)
Ltac zbits_mask x m :=
  let k := eval compute in (Z.log2 (m + 1)) in
  let p := eval compute in (m + 1) in
  replace (Z.land x m) with (x mod p)
    by (symmetry; apply (land_mask x k); lia).

Ltac zbits :=
  repeat match goal with
  | |- context [Z.land ?x 7] => zbits_mask x 7
  | |- context [Z.land ?x 15] => zbits_mask x 15
  | |- context [Z.land ?x 31] => zbits_mask x 31
  | |- context [Z.land ?x 63] => zbits_mask x 63
  | |- context [Z.shiftl ?x ?k] =>
      let p := eval compute in (2 ^ k) in
      replace (Z.shiftl x k) with (x * p)
        by (symmetry; rewrite Z.shiftl_mul_pow2 by lia; reflexivity)
  | |- context [Z.shiftr ?x ?k] =>
      let p := eval compute in (2 ^ k) in
      replace (Z.shiftr x k) with (x / p)
        by (symmetry; rewrite Z.shiftr_div_pow2 by lia; reflexivity)
  end.

(** [zlor k] rewrites one [Z.lor c y] whose operands do not overlap
    below bit [k]. *)
Ltac zlor :=
  match goal with
  | |- context [Z.lor ?c ?y] =>
      first [ rewrite (lor_add c y 6) by (cbn; zlia)
            | rewrite (lor_add c y 12) by (cbn; zlia)
            | rewrite (lor_add c y 18) by (cbn; zlia)
            | rewrite (lor_add c y 5) by (cbn; zlia)
            | rewrite (lor_add c y 4) by (cbn; zlia)
            | rewrite (lor_add c y 3) by (cbn; zlia) ]
  end.

(** [zbool] turns the boolean comparisons of the code into propositions. *)
Ltac zbool :=
  repeat match goal with
  | H : (_ <=? _) = true |- _ => apply Z.leb_le in H
  | H : (_ <=? _) = false |- _ => apply Z.leb_gt in H
  | H : (_ <? _) = true |- _ => apply Z.ltb_lt in H
  | H : (_ <? _) = false |- _ => apply Z.ltb_ge in H
  | H : (_ =? _) = true |- _ => apply Z.eqb_eq in H
  | H : (_ =? _) = false |- _ => apply Z.eqb_neq in H
  | H : (_ || _) = true |- _ => apply orb_true_iff in H; destruct H
  | H : (_ || _) = false |- _ => apply orb_false_iff in H; destruct H
  | H : (_ && _) = true |- _ => apply andb_true_iff in H; destruct H
  end.

(** [split_if] takes an innermost [if] of the goal: a test that
    evaluates is reduced away, any other is split, its outcome recorded
    as a proposition and the impossible branch closed by [lia]. *)
Ltac split_if :=
  match goal with
  | |- context [if ?c then _ else _] =>
      lazymatch c with
      | context [if _ then _ else _] => fail
      | _ =>
          let v := eval vm_compute in c in
          lazymatch v with
          | true => change c with true; cbv beta iota
          | false => change c with false; cbv beta iota
          | _ => destruct c eqn:?; zbool; try (exfalso; lia)
          end
      end
  end.

(** [zclosed] evaluates the closed applications of the bit operations,
    which [cbn] leaves alone when told not to unfold them. *)
Ltac zclosed :=
  repeat match goal with
  | |- context [?op ?a ?b] =>
      match op with
      | Z.land => idtac | Z.lor => idtac | Z.ldiff => idtac
      | Z.shiftl => idtac | Z.shiftr => idtac
      end;
      let v := eval vm_compute in (op a b) in
      lazymatch v with
      | Z0 => change (op a b) with v
      | Zpos _ => change (op a b) with v
      | Zneg _ => change (op a b) with v
      end
  end.

(** [bytes_eq] reduces an equation between byte lists to equations
    between the values the bytes are made of. *)
Ltac bytes_eq :=
  repeat match goal with
  | |- (_ :: _) = (_ :: _) => f_equal
  | |- byte_of _ = byte_of _ => f_equal
  end.

(** ** List lemmas *)

Lemma skipn_length_lt {A} (n : nat) (l : list A) :
  (0 < n)%nat -> l <> [] -> (length (skipn n l) < length l)%nat.
Proof.
  intros Hn Hl. rewrite length_skipn. destruct l; [congruence|]. cbn [length]. lia.
Qed.

(** ** Scanning byte lists *)

(** [let* p := c in k]: bind of the option monad, for the readers. *)
Notation "'let*' p := c 'in' k" :=
  (match c with Some p => k | None => None end)
  (at level 61, p pattern, c at next level, k at level 200) : go_scope.

(** The longest prefix with no byte satisfying [stop], and the rest. *)
Fixpoint span (stop : byte -> bool) (l : list byte) : list byte * list byte :=
  match l with
  | [] => ([], [])
  | b :: l' => if stop b then ([], l) else let (a, r) := span stop l' in (b :: a, r)
  end.

Definition starts_stop (stop : byte -> bool) (r : list byte) : Prop :=
  match r with [] => True | b :: _ => stop b = true end.

Lemma span_app stop a r :
  Forall (fun b => stop b = false) a -> starts_stop stop r ->
  span stop (a ++ r) = (a, r).
Proof.
  intros Ha Hr. induction Ha as [|b a Hb Ha IH]; cbn [app span].
  - destruct r as [|c r]; [reflexivity|]. cbn [starts_stop] in Hr. cbn [span]. now rewrite Hr.
  - rewrite Hb, IH. reflexivity.
Qed.

Create HintDb logger discriminated.
Create Rewrite HintDb logger.
#[export] Hint Resolve bval_range bval_inj : logger.
#[export] Hint Rewrite bval_byte_of byte_of_bval : logger.
