(* ===== verification/Utf8.v ===== *)
(** * Utf8: the parts of Go's [unicode/utf8] that [appendQuoted] calls

    [appendQuoted] (src/logger.go:60-122) decodes its input with
    [utf8.DecodeRuneInString] and re-encodes printable runes with
    [utf8.EncodeRune].  Both are Go library code, modelled here from the
    library's table-driven algorithm: the [first] table classifies the
    leading byte (ASCII, invalid, or the size and accepted range of the
    second byte), [acceptRanges] gives that range, and the decoder
    assembles the rune with masks and shifts.  Runes are Go [int32]
    values held in [Z]; the int32 sign trick of the ASCII/invalid branch
    is written out with [to_int32].

    Theorems: the width of a decoded rune is between 1 and the input
    length (never above [UTFMax]), the decoded rune is a valid code point,
    and [EncodeRune] of a rune decoded from [firstn w s] gives those bytes
    back, which is what makes [appendQuoted] lossless. *)

From Stdlib Require Import ZArith List Lia Bool.
From S2P Require Import Prelude.
Import ListNotations.
Open Scope Z_scope.

Module Utf8.

(** ** Constants (unicode/utf8/utf8.go) *)

Definition RuneError : Z := 0xFFFD.
Definition RuneSelf : Z := 0x80.
Definition MaxRune : Z := 0x10FFFF.
Definition UTFMax : Z := 4.
Definition surrogateMin : Z := 0xD800.
Definition surrogateMax : Z := 0xDFFF.

Definition tx : Z := 0x80.
Definition t2 : Z := 0xC0.
Definition t3 : Z := 0xE0.
Definition t4 : Z := 0xF0.
Definition maskx : Z := 0x3F.
Definition mask2 : Z := 0x1F.
Definition mask3 : Z := 0x0F.
Definition mask4 : Z := 0x07.
Definition rune1Max : Z := 0x7F.
Definition rune2Max : Z := 0x7FF.
Definition rune3Max : Z := 0xFFFF.
Definition locb : Z := 0x80.
Definition hicb : Z := 0xBF.

(** Classes of a leading byte: the high nibble indexes [acceptRanges],
    the low three bits are the sequence size. *)
Definition xx : Z := 0xF1.
Definition as_ : Z := 0xF0.
Definition s1 : Z := 0x02.
Definition s2 : Z := 0x13.
Definition s3 : Z := 0x03.
Definition s4 : Z := 0x23.
Definition s5 : Z := 0x34.
Definition s6 : Z := 0x04.
Definition s7 : Z := 0x44.

(** [first[b]] for a byte value [b]. *)
Definition first (b : Z) : Z :=
  if b <=? 0x7F then as_
  else if b <=? 0xC1 then xx
  else if b <=? 0xDF then s1
  else if b =? 0xE0 then s2
  else if b <=? 0xEC then s3
  else if b =? 0xED then s4
  else if b <=? 0xEF then s3
  else if b =? 0xF0 then s5
  else if b <=? 0xF3 then s6
  else if b =? 0xF4 then s7
  else xx.

Record acceptRange := { lo : Z; hi : Z }.

(** [acceptRanges[i]]; the entries 5..15 of the Go array are zero. *)
Definition acceptRanges (i : Z) : acceptRange :=
  if i =? 0 then {| lo := locb; hi := hicb |}
  else if i =? 1 then {| lo := 0xA0; hi := hicb |}
  else if i =? 2 then {| lo := locb; hi := 0x9F |}
  else if i =? 3 then {| lo := 0x90; hi := hicb |}
  else if i =? 4 then {| lo := locb; hi := 0x8F |}
  else {| lo := 0; hi := 0 |}.

(** Go's [int32] wrap-around. *)
Definition to_int32 (z : Z) : Z := (z + 2 ^ 31) mod 2 ^ 32 - 2 ^ 31.

Definition out_of (b : byte) (a : acceptRange) : bool :=
  (bval b <? lo a) || (hi a <? bval b).

(** ** [DecodeRuneInString] *)

Definition DecodeRuneInString (s : list byte) : Z * nat :=
  match s with
  | [] => (RuneError, 0%nat)
  | b0 :: s' =>
    let x := first (bval b0) in
    if as_ <=? x then
      (* mask := rune(x) << 31 >> 31: 0 for [as], -1 for [xx] *)
      let mask := Z.shiftr (to_int32 (Z.shiftl x 31)) 31 in
      (Z.lor (Z.ldiff (bval b0) mask) (Z.land RuneError mask), 1%nat)
    else
      let sz := Z.land x 7 in
      let accept := acceptRanges (Z.shiftr x 4) in
      if Z.of_nat (length s) <? sz then (RuneError, 1%nat) else
      match s' with
      | [] => (RuneError, 1%nat)
      | b1 :: s'' =>
        if out_of b1 accept then (RuneError, 1%nat)
        else if sz <=? 2 then
          (Z.lor (Z.shiftl (Z.land (bval b0) mask2) 6) (Z.land (bval b1) maskx), 2%nat)
        else
        match s'' with
        | [] => (RuneError, 1%nat)
        | b2 :: s''' =>
          if out_of b2 {| lo := locb; hi := hicb |} then (RuneError, 1%nat)
          else if sz <=? 3 then
            (Z.lor (Z.lor (Z.shiftl (Z.land (bval b0) mask3) 12)
                          (Z.shiftl (Z.land (bval b1) maskx) 6))
                   (Z.land (bval b2) maskx), 3%nat)
          else
          match s''' with
          | [] => (RuneError, 1%nat)
          | b3 :: _ =>
            if out_of b3 {| lo := locb; hi := hicb |} then (RuneError, 1%nat)
            else
              (Z.lor (Z.lor (Z.lor (Z.shiftl (Z.land (bval b0) mask4) 18)
                                   (Z.shiftl (Z.land (bval b1) maskx) 12))
                            (Z.shiftl (Z.land (bval b2) maskx) 6))
                     (Z.land (bval b3) maskx), 4%nat)
          end
        end
      end
  end.

(** ** [EncodeRune]: the bytes written to [p[:n]] *)

(** [byte(z)] of the Go source, as a byte and read back as a value. *)
Definition gobyte (z : Z) : Z := bval (byte_of z).

Definition EncodeRune (r : Z) : list byte :=
  let i := r mod 2 ^ 32 in
  let enc3 r :=
    [byte_of (Z.lor t3 (gobyte (Z.shiftr r 12)));
     byte_of (Z.lor tx (Z.land (gobyte (Z.shiftr r 6)) maskx));
     byte_of (Z.lor tx (Z.land (gobyte r) maskx))] in
  if i <=? rune1Max then [byte_of r]
  else if i <=? rune2Max then
    [byte_of (Z.lor t2 (gobyte (Z.shiftr r 6)));
     byte_of (Z.lor tx (Z.land (gobyte r) maskx))]
  else if (MaxRune <? i) || ((surrogateMin <=? i) && (i <=? surrogateMax)) then
    enc3 RuneError
  else if i <=? rune3Max then enc3 r
  else
    [byte_of (Z.lor t4 (gobyte (Z.shiftr r 18)));
     byte_of (Z.lor tx (Z.land (gobyte (Z.shiftr r 12)) maskx));
     byte_of (Z.lor tx (Z.land (gobyte (Z.shiftr r 6)) maskx));
     byte_of (Z.lor tx (Z.land (gobyte r) maskx))].

(** A valid Unicode scalar value. *)
Definition ValidRune (r : Z) : bool :=
  ((0 <=? r) && (r <? surrogateMin)) || ((surrogateMax <? r) && (r <=? MaxRune)).

End Utf8.

(** ** The decoded value of each sequence length *)

Section Values.
Import Utf8.

Lemma rune2_value v0 v1 :
  0 <= v0 -> 0 <= v1 ->
  Z.lor (Z.shiftl (Z.land v0 mask2) 6) (Z.land v1 maskx)
  = v0 mod 32 * 64 + v1 mod 64.
Proof. intros. unfold mask2, maskx. zbits. repeat zlor. reflexivity. Qed.

Lemma rune3_value v0 v1 v2 :
  0 <= v0 -> 0 <= v1 -> 0 <= v2 ->
  Z.lor (Z.lor (Z.shiftl (Z.land v0 mask3) 12) (Z.shiftl (Z.land v1 maskx) 6))
        (Z.land v2 maskx)
  = v0 mod 16 * 4096 + v1 mod 64 * 64 + v2 mod 64.
Proof. intros. unfold mask3, maskx. zbits. repeat zlor. reflexivity. Qed.

Lemma rune4_value v0 v1 v2 v3 :
  0 <= v0 -> 0 <= v1 -> 0 <= v2 -> 0 <= v3 ->
  Z.lor (Z.lor (Z.lor (Z.shiftl (Z.land v0 mask4) 18)
                      (Z.shiftl (Z.land v1 maskx) 12))
               (Z.shiftl (Z.land v2 maskx) 6))
        (Z.land v3 maskx)
  = v0 mod 8 * 262144 + v1 mod 64 * 4096 + v2 mod 64 * 64 + v3 mod 64.
Proof. intros. unfold mask4, maskx. zbits. repeat zlor. reflexivity. Qed.

End Values.

(** ** What [DecodeRuneInString] returns, case by case *)

Definition cont (b : byte) : Prop := 0x80 <= bval b <= 0xBF.

(** [decoded s r w]: decoding [s] yields rune [r] of width [w].  The
    constructors are the outcomes of the Go decoder: an ASCII byte, an
    invalid leading byte or sequence (one byte, [RuneError]), and the
    well-formed sequences of two, three and four bytes with the value
    they encode and the range that value lies in. *)
Inductive decoded : list byte -> Z -> nat -> Prop :=
| dec_ascii b s :
    bval b < 0x80 -> decoded (b :: s) (bval b) 1
| dec_error b s :
    0x80 <= bval b -> decoded (b :: s) Utf8.RuneError 1
| dec_two b0 b1 s r :
    0xC2 <= bval b0 <= 0xDF -> cont b1 ->
    r = (bval b0 - 0xC0) * 64 + (bval b1 - 0x80) ->
    decoded (b0 :: b1 :: s) r 2
| dec_three b0 b1 b2 s r :
    0xE0 <= bval b0 <= 0xEF -> cont b1 -> cont b2 ->
    r = (bval b0 - 0xE0) * 4096 + (bval b1 - 0x80) * 64 + (bval b2 - 0x80) ->
    0x800 <= r <= 0xFFFF -> ~ (Utf8.surrogateMin <= r <= Utf8.surrogateMax) ->
    decoded (b0 :: b1 :: b2 :: s) r 3
| dec_four b0 b1 b2 b3 s r :
    0xF0 <= bval b0 <= 0xF4 -> cont b1 -> cont b2 -> cont b3 ->
    r = (bval b0 - 0xF0) * 262144 + (bval b1 - 0x80) * 4096
        + (bval b2 - 0x80) * 64 + (bval b3 - 0x80) ->
    0x10000 <= r <= Utf8.MaxRune ->
    decoded (b0 :: b1 :: b2 :: b3 :: s) r 4.

#[export] Hint Constructors decoded : logger.

Ltac byte_ranges :=
  repeat match goal with
  | b : byte |- _ =>
      lazymatch goal with
      | _ : 0 <= bval b < 256 |- _ => fail
      | _ => pose proof (bval_range b)
      end
  end.

Lemma mask_as : Z.shiftr (Utf8.to_int32 (Z.shiftl 240 31)) 31 = 0.
Proof. reflexivity. Qed.

Lemma mask_xx : Z.shiftr (Utf8.to_int32 (Z.shiftl 241 31)) 31 = -1.
Proof. reflexivity. Qed.

Ltac dec_side := unfold cont, Utf8.surrogateMin, Utf8.surrogateMax, Utf8.MaxRune; zlia.

(** Closes a leaf of the decoder's case tree with the matching
    constructor of [decoded]. *)
Ltac finish_decoded :=
  cbn [fst snd Utf8.lo Utf8.hi] in *;
  rewrite ?mask_as, ?mask_xx, ?Z.ldiff_0_r, ?Z.land_0_r, ?Z.lor_0_r,
    ?Z.ldiff_m1_r, ?Z.land_m1_r, ?Z.lor_0_l;
  first
  [ apply dec_ascii; lia
  | apply dec_error; lia
  | rewrite rune2_value by lia; eapply dec_two; dec_side
  | rewrite rune3_value by lia; eapply dec_three; dec_side
  | rewrite rune4_value by lia; eapply dec_four; dec_side ].

(** The decoder's outcome on every non-empty input is one of the cases
    of [decoded]. *)
Lemma DecodeRuneInString_decoded s :
  s <> [] ->
  decoded s (fst (Utf8.DecodeRuneInString s)) (snd (Utf8.DecodeRuneInString s)).
Proof.
  intros Hs. destruct s as [|b0 [|b1 [|b2 [|b3 s]]]]; [congruence| | | |]; clear Hs;
  byte_ranges;
  unfold Utf8.DecodeRuneInString, Utf8.first, Utf8.out_of, Utf8.acceptRanges;
  unfold Utf8.as_, Utf8.xx, Utf8.s1, Utf8.s2, Utf8.s3, Utf8.s4, Utf8.s5,
    Utf8.s6, Utf8.s7, Utf8.locb, Utf8.hicb;
  repeat split_if; finish_decoded.
Qed.

(** Conversely, a well-formed sequence is decoded as such: whatever
    follows it, the decoder returns its rune and width. *)
Lemma decoded_DecodeRuneInString s r w :
  decoded s r w -> ~ (w = 1%nat /\ r = Utf8.RuneError) -> Utf8.DecodeRuneInString s = (r, w).
Proof.
  destruct 1 as [b s Hb|b s Hb|b0 b1 s r H0 H1 ->|b0 b1 b2 s r H0 H1 H2 -> Hr Hsur
                |b0 b1 b2 b3 s r H0 H1 H2 H3 -> Hr]; intros Hne;
    [| exfalso; apply Hne; split; reflexivity | | |];
  unfold cont, Utf8.surrogateMin, Utf8.surrogateMax, Utf8.MaxRune in *; byte_ranges;
  unfold Utf8.DecodeRuneInString, Utf8.first, Utf8.out_of, Utf8.acceptRanges;
  unfold Utf8.as_, Utf8.xx, Utf8.s1, Utf8.s2, Utf8.s3, Utf8.s4, Utf8.s5,
    Utf8.s6, Utf8.s7, Utf8.locb, Utf8.hicb;
  repeat split_if; cbn [fst snd Utf8.lo Utf8.hi] in *;
  rewrite ?mask_as, ?Z.ldiff_0_r, ?Z.land_0_r, ?Z.lor_0_r;
  rewrite ?rune2_value, ?rune3_value, ?rune4_value by lia;
  first [ f_equal; zlia
        | exfalso; cbn [length Utf8.lo Utf8.hi] in *;
          repeat match goal with H : context [Z.land ?a ?b] |- _ =>
            let v := eval vm_compute in (Z.land a b) in
            lazymatch v with Zpos _ => change (Z.land a b) with v in H end end;
          repeat match goal with H : (_ || _) = true |- _ => apply orb_true_iff in H; destruct H end;
          zbool; zlia ].
Qed.

(** ** [EncodeRune] on each range of valid runes *)

Ltac solve_encode :=
  unfold Utf8.EncodeRune, Utf8.gobyte, Utf8.rune1Max, Utf8.rune2Max,
    Utf8.rune3Max, Utf8.MaxRune, Utf8.surrogateMin, Utf8.surrogateMax;
  rewrite Z.mod_small by lia;
  repeat split_if;
  rewrite ?bval_byte_of;
  unfold Utf8.t2, Utf8.t3, Utf8.t4, Utf8.tx, Utf8.maskx;
  bytes_eq; zbits; repeat zlor; zlia.

Lemma EncodeRune_1 r : 0 <= r <= 0x7F -> Utf8.EncodeRune r = [byte_of r].
Proof. intros. solve_encode. Qed.

Lemma EncodeRune_2 r :
  0x80 <= r <= 0x7FF ->
  Utf8.EncodeRune r = [byte_of (0xC0 + r / 64); byte_of (0x80 + r mod 64)].
Proof. intros. solve_encode. Qed.

Lemma EncodeRune_3 r :
  0x800 <= r <= 0xFFFF -> ~ (Utf8.surrogateMin <= r <= Utf8.surrogateMax) ->
  Utf8.EncodeRune r =
  [byte_of (0xE0 + r / 4096); byte_of (0x80 + r / 64 mod 64);
   byte_of (0x80 + r mod 64)].
Proof. unfold Utf8.surrogateMin, Utf8.surrogateMax. intros. solve_encode. Qed.

Lemma EncodeRune_4 r :
  0x10000 <= r <= Utf8.MaxRune ->
  Utf8.EncodeRune r =
  [byte_of (0xF0 + r / 262144); byte_of (0x80 + r / 4096 mod 64);
   byte_of (0x80 + r / 64 mod 64); byte_of (0x80 + r mod 64)].
Proof. unfold Utf8.MaxRune. intros. solve_encode. Qed.

(** ** Properties of the decoder *)

Ltac bytes_back :=
  repeat match goal with
  | |- (_ :: _) = (_ :: _) => f_equal
  | |- byte_of _ = _ => apply byte_of_small
  end.

(** The main property of the decoder: a rune the decoder reads from the first
    [w] bytes of [s] (other than the one-byte error) is re-encoded by
    [EncodeRune] into exactly those bytes. *)
Theorem EncodeRune_DecodeRuneInString s r w :
  s <> [] -> Utf8.DecodeRuneInString s = (r, w) ->
  ~ (w = 1%nat /\ r = Utf8.RuneError) ->
  Utf8.EncodeRune r = firstn w s.
Proof.
  intros Hs Hd Hne. pose proof (DecodeRuneInString_decoded s Hs) as Hv.
  rewrite Hd in Hv. cbn [fst snd] in Hv.
  destruct Hv as [b s0 Hb|b s0 Hb|b0 b1 s0 r0 H0 H1 ->|b0 b1 b2 s0 r0 H0 H1 H2 -> Hr Hsur
                 |b0 b1 b2 b3 s0 r0 H0 H1 H2 H3 -> Hr];
    unfold cont in *; byte_ranges.
  - rewrite EncodeRune_1 by lia. cbn. now rewrite byte_of_bval.
  - tauto.
  - rewrite EncodeRune_2 by zlia. cbn [firstn]. bytes_back; zlia.
  - rewrite EncodeRune_3 by assumption. cbn [firstn]. bytes_back; zlia.
  - rewrite EncodeRune_4 by assumption. cbn [firstn]. bytes_back; zlia.
Qed.

Lemma DecodeRuneInString_width s :
  s <> [] ->
  (1 <= snd (Utf8.DecodeRuneInString s) <= length s)%nat /\
  (snd (Utf8.DecodeRuneInString s) <= 4)%nat.
Proof.
  intros Hs. destruct (DecodeRuneInString_decoded s Hs); cbn [length]; lia.
Qed.

Lemma DecodeRuneInString_valid s :
  Utf8.ValidRune (fst (Utf8.DecodeRuneInString s)) = true.
Proof.
  destruct s as [|b s]; [reflexivity|].
  assert (Hs : b :: s <> []) by discriminate.
  unfold Utf8.ValidRune, Utf8.surrogateMin, Utf8.surrogateMax, Utf8.MaxRune.
  destruct (DecodeRuneInString_decoded _ Hs); unfold cont, Utf8.surrogateMin,
    Utf8.surrogateMax, Utf8.MaxRune, Utf8.RuneError in *; byte_ranges;
  apply orb_true_iff; rewrite !andb_true_iff, !Z.leb_le, !Z.ltb_lt; lia.
Qed.

(** A rune at or above [RuneSelf] is encoded with bytes at or above
    [0x80]: none of them is an ASCII control character, a quote or a
    backslash. *)
Lemma EncodeRune_high r :
  0x80 <= r -> Utf8.ValidRune r = true ->
  Forall (fun b => 0x80 <= bval b) (Utf8.EncodeRune r).
Proof.
  unfold Utf8.ValidRune, Utf8.surrogateMin, Utf8.surrogateMax, Utf8.MaxRune.
  intros Hr Hv. apply orb_true_iff in Hv. rewrite !andb_true_iff, !Z.leb_le, !Z.ltb_lt in Hv.
  destruct (Z.le_gt_cases r 0x7FF).
  - rewrite EncodeRune_2 by lia.
    repeat constructor; rewrite bval_byte_of; zlia.
  - destruct (Z.le_gt_cases r 0xFFFF).
    + rewrite EncodeRune_3 by (unfold Utf8.surrogateMin, Utf8.surrogateMax; lia).
      repeat constructor; rewrite bval_byte_of; zlia.
    + rewrite EncodeRune_4 by (unfold Utf8.MaxRune; lia).
      repeat constructor; rewrite bval_byte_of; zlia.
Qed.
