(* ===== verification/Strconv.v ===== *)
(** * Strconv: the parts of Go's [strconv] that the logger calls

    - [IsPrint] ([strconv.IsPrint], used by [appendQuoted],
      src/logger.go:79): the Latin-1 fast path of the Go function is
      written out; above [0xFF] Go consults its Unicode tables, which are
      the [UnicodeTables] class here.  Theorems about [appendQuoted] hold
      for every instance; [AllAbove] is the instance the concrete runs
      use.
    - [Itoa] ([strconv.Itoa], used for the status and size fields,
      src/logger.go:173,175): the decimal digit loop, with fuel
      [log2 u + 1] and the theorem that this fuel is enough; [ParseInt]
      reads the field back and [ParseInt_Itoa] is the round trip. *)

From Stdlib Require Import ZArith List Lia Bool.
From S2P Require Import Prelude.
Import ListNotations.
Open Scope Z_scope.

(** ** [strconv.IsPrint] *)

(** The Unicode printability tables ([isPrint16], [isNotPrint16],
    [isPrint32], [isNotPrint32]) consulted above Latin-1. *)
Class UnicodeTables := { print_tables : Z -> bool }.

Definition IsPrint `{UnicodeTables} (r : Z) : bool :=
  if r <=? 0xFF then
    if (0x20 <=? r) && (r <=? 0x7E) then true
    else if (0xA1 <=? r) && (r <=? 0xFF) then negb (r =? 0xAD)
    else false
  else print_tables r.

(** Tables for concrete runs: every valid code point above Latin-1 is
    printable.  It is not declared as an instance: the theorems are
    stated for any tables, and a concrete run names these explicitly. *)
Definition AllAbove : UnicodeTables :=
  {| print_tables r := (r <=? 0x10FFFF) && negb ((0xD800 <=? r) && (r <=? 0xDFFF)) |}.

Section IsPrintLatin1.
Context `{UnicodeTables}.

(** Below [0x80], [IsPrint] is exactly the printable ASCII range. *)
Lemma IsPrint_ascii r : r < 0x80 -> IsPrint r = ((0x20 <=? r) && (r <=? 0x7E)).
Proof.
  intros Hr. unfold IsPrint.
  destruct (Z.leb_spec r 0xFF); [|lia].
  destruct ((0x20 <=? r) && (r <=? 0x7E)); [reflexivity|].
  destruct (Z.leb_spec 0xA1 r); [lia|reflexivity].
Qed.

End IsPrintLatin1.

(** ** [strconv.Itoa] *)

(** The digit loop of [formatBits] for base 10: digits are produced from
    the least significant one and prepended to [acc]. *)
Fixpoint fmt_digits (fuel : nat) (u : Z) (acc : list byte) : list byte :=
  match fuel with
  | O => acc
  | S f =>
      let acc' := byte_of (48 + u mod 10) :: acc in
      if u <? 10 then acc' else fmt_digits f (u / 10) acc'
  end.

(** [u] has at most [log2 u + 1] decimal digits. *)
Definition digits_fuel (u : Z) : nat := S (Z.to_nat (Z.log2 u)).

Definition FormatUint (u : Z) : list byte := fmt_digits (digits_fuel u) u [].

Definition Itoa (i : Z) : list byte :=
  if i <? 0 then byte_of 45 :: FormatUint (- i) else FormatUint i.

(** ** Reading a decimal field back *)

Definition is_digit (b : byte) : bool := (48 <=? bval b) && (bval b <=? 57).

Definition digits_value (l : list byte) : Z :=
  fold_left (fun a d => a * 10 + (bval d - 48)) l 0.

Definition ParseUint (l : list byte) : option Z :=
  match l with
  | [] => None
  | _ => if forallb is_digit l then Some (digits_value l) else None
  end.

Definition ParseInt (l : list byte) : option Z :=
  match l with
  | b :: l' => if byteb b (byte_of 45) then option_map Z.opp (ParseUint l')
               else ParseUint l
  | [] => None
  end.

(** ** Properties of [Itoa] *)

Lemma fmt_digits_app fuel u acc :
  fmt_digits fuel u acc = fmt_digits fuel u [] ++ acc.
Proof.
  revert u acc. induction fuel as [|f IH]; intros u acc; [reflexivity|].
  cbn [fmt_digits]. destruct (u <? 10); [reflexivity|].
  rewrite IH, (IH _ [_]), <- app_assoc. reflexivity.
Qed.

Lemma fmt_digits_digit fuel u :
  0 <= u -> Forall (fun b => is_digit b = true) (fmt_digits fuel u []).
Proof.
  revert u. induction fuel as [|f IH]; intros u Hu; cbn [fmt_digits]; [constructor|].
  assert (Hd : is_digit (byte_of (48 + u mod 10)) = true).
  { unfold is_digit. rewrite bval_byte_of. apply andb_true_iff. rewrite !Z.leb_le. zlia. }
  destruct (u <? 10); [now constructor|].
  rewrite fmt_digits_app. apply Forall_app. split; [apply IH; zlia|now constructor].
Qed.

Lemma fmt_digits_value fuel u :
  0 <= u < 10 ^ Z.of_nat fuel ->
  digits_value (fmt_digits fuel u []) = u.
Proof.
  revert u. induction fuel as [|f IH]; intros u Hu; [cbn in *; lia|].
  rewrite Nat2Z.inj_succ, Z.pow_succ_r in Hu by lia.
  cbn [fmt_digits]. destruct (Z.ltb_spec u 10).
  - unfold digits_value. cbn [fold_left]. rewrite bval_byte_of. zlia.
  - rewrite fmt_digits_app. unfold digits_value. rewrite fold_left_app.
    fold (digits_value (fmt_digits f (u / 10) [])).
    rewrite IH by zlia. cbn [fold_left]. rewrite bval_byte_of. zlia.
Qed.

Lemma digits_fuel_enough u : 0 <= u -> u < 10 ^ Z.of_nat (digits_fuel u).
Proof.
  intros Hu. unfold digits_fuel.
  rewrite Nat2Z.inj_succ, Z2Nat.id by apply Z.log2_nonneg.
  apply Z.lt_le_trans with (2 ^ Z.succ (Z.log2 u)).
  - destruct (Z.eq_dec u 0) as [->|]; [reflexivity|].
    apply Z.log2_spec; lia.
  - apply Z.pow_le_mono_l. split; [lia|lia].
Qed.

Lemma FormatUint_value u : 0 <= u -> digits_value (FormatUint u) = u.
Proof.
  intros Hu. apply fmt_digits_value. split; [lia|]. now apply digits_fuel_enough.
Qed.

Lemma FormatUint_digits u :
  0 <= u -> FormatUint u <> [] /\ forallb is_digit (FormatUint u) = true.
Proof.
  intros Hu. unfold FormatUint, digits_fuel. split.
  - cbn [fmt_digits]. destruct (u <? 10); [discriminate|].
    rewrite fmt_digits_app. intros Hn. apply app_eq_nil in Hn. destruct Hn; discriminate.
  - apply forallb_forall. intros b Hb.
    exact (proj1 (Forall_forall _ _) (fmt_digits_digit _ u Hu) b Hb).
Qed.

Lemma ParseUint_FormatUint u : 0 <= u -> ParseUint (FormatUint u) = Some u.
Proof.
  intros Hu. destruct (FormatUint_digits u Hu) as [Hne Hd].
  pose proof (FormatUint_value u Hu) as Hv. unfold ParseUint.
  revert Hne Hd Hv. destruct (FormatUint u); intros Hne Hd Hv; [congruence|].
  now rewrite Hd, Hv.
Qed.

(** [ParseInt] reads back what [Itoa] writes, for every integer. *)
Theorem ParseInt_Itoa i : ParseInt (Itoa i) = Some i.
Proof.
  unfold Itoa, ParseInt. destruct (Z.ltb_spec i 0).
  - cbv beta iota. rewrite byteb_refl, ParseUint_FormatUint by lia. cbn. f_equal. lia.
  - destruct (FormatUint_digits i H) as [Hne Hd].
    destruct (FormatUint i) as [|b l] eqn:E; [congruence|].
    assert (Hb : is_digit b = true) by (cbn in Hd; now destruct (is_digit b)).
    replace (byteb b (byte_of 45)) with false.
    + rewrite <- E. now apply ParseUint_FormatUint.
    + unfold byteb, is_digit in *. rewrite bval_byte_of.
      apply andb_true_iff in Hb. rewrite !Z.leb_le in Hb.
      symmetry. apply Z.eqb_neq. cbn. lia.
Qed.
