(* ===== verification/Quote.v ===== *)
(** * Quote: [appendQuoted] (src/logger.go:58-122)

    [appendQuoted buf s] appends to [buf] an escaped copy of [s], safe to
    put between double quotes in the log line.  The Go loop
    [for width := 0; len(s) > 0; s = s[width:]] is modelled by
    [quote_step] (the body: the bytes it appends and the [width] it
    consumes) iterated by [quote_loop] with fuel [length s]; every
    iteration consumes at least one byte, so the fuel is never the reason
    the loop stops ([quote_loop_enough], [appendQuoted_terminates]).

    The reading side is [unquote]: it decodes the escapes of one quoted
    field up to its closing quote and returns the remainder of the line.
    The main theorem is the round trip
    [unquote (quote s ++ dq :: rest) = Some (s, rest)]: escaping loses no
    information (also for invalid UTF-8) and the end of the field is
    found without ambiguity.  The other theorems: the output never holds
    a control byte (so a URI, referrer or user agent cannot break the log
    line), escaping is injective, and plain printable text is copied
    unchanged. *)

From Stdlib Require Import ZArith List Lia Bool.
From S2P Require Import Prelude Utf8 Strconv.
Import ListNotations.
Open Scope Z_scope.
Open Scope go_scope.

Section Quote.
Context `{UnicodeTables}.

(** [const lowerhex = "0123456789abcdef"] *)
Definition lowerhex : list byte := «"0123456789abcdef"».

(** [lowerhex[n]] *)
Definition hexdigit (n : Z) : byte := nth (Z.to_nat n) lowerhex Byte.x00.

Definition bslash : byte := byte_of 92.
Definition dq : byte := byte_of 34.

(** [buf = append(buf, `\x`...); lowerhex[s[0]>>4]; lowerhex[s[0]&0xF]] *)
Definition escape_x (s0 : byte) : list byte :=
  «"\x"» ++ [hexdigit (Z.shiftr (bval s0) 4); hexdigit (Z.land (bval s0) 0xF)].

(** [for s := top; s >= 0; s -= 4 { lowerhex[r>>uint(s)&0xF] }] *)
Definition hex_loop (shifts : list Z) (r : Z) : list byte :=
  map (fun k => hexdigit (Z.land (Z.shiftr r k) 0xF)) shifts.

(** The [switch r] of the non-printable case, src/logger.go:84-119. *)
Definition escape_rune (s0 : byte) (r : Z) : list byte :=
  if r =? 7 then «"\a"»
  else if r =? 8 then «"\b"»
  else if r =? 12 then «"\f"»
  else if r =? 10 then «"\n"»
  else if r =? 13 then «"\r"»
  else if r =? 9 then «"\t"»
  else if r =? 11 then «"\v"»
  else if r <? 32 then escape_x s0
  else
    (* case r > utf8.MaxRune: r = 0xFFFD; fallthrough into the \u case *)
    let r := if Utf8.MaxRune <? r then 0xFFFD else r in
    if (r =? 0xFFFD) || (r <? 0x10000) then «"\u"» ++ hex_loop [12; 8; 4; 0] r
    else «"\U"» ++ hex_loop [28; 24; 20; 16; 12; 8; 4; 0] r.

(** The rune the loop body works on: [r := rune(s[0])], decoded when
    [r >= utf8.RuneSelf]. *)
Definition loop_rune (s : list byte) : Z * nat :=
  match s with
  | [] => (Utf8.RuneError, 0%nat)
  | s0 :: _ =>
      if bval s0 <? Utf8.RuneSelf then (bval s0, 1%nat)
      else Utf8.DecodeRuneInString s
  end.

(** One iteration of the loop: the bytes appended to [buf] and [width]. *)
Definition quote_step (s : list byte) : list byte * nat :=
  match s with
  | [] => ([], 0%nat)
  | s0 :: _ =>
      let '(r, width) := loop_rune s in
      if (width =? 1)%nat && (r =? Utf8.RuneError) then (escape_x s0, width)
      else if (r =? 34) || (r =? 92) then ([bslash; byte_of r], width)
      else if IsPrint r then (Utf8.EncodeRune r, width)
      else (escape_rune s0 r, width)
  end.

Fixpoint quote_loop (fuel : nat) (buf s : list byte) : list byte :=
  match fuel with
  | O => buf
  | S f =>
      match s with
      | [] => buf
      | _ => let '(out, width) := quote_step s in
             quote_loop f (buf ++ out) (skipn width s)
      end
  end.

Definition appendQuoted (buf s : list byte) : list byte :=
  quote_loop (length s) buf s.

(** The escaped field alone. *)
Definition quote (s : list byte) : list byte := appendQuoted [] s.

End Quote.

(** ** The loop *)

Section Loop.
Context `{UnicodeTables}.

(** The ASCII shortcut of the loop agrees with the decoder. *)
Lemma loop_rune_decode s : loop_rune s = Utf8.DecodeRuneInString s.
Proof.
  destruct s as [|s0 s']; [reflexivity|]. unfold loop_rune.
  destruct (Z.ltb_spec (bval s0) Utf8.RuneSelf) as [Ha|]; [|reflexivity].
  assert (Hs : s0 :: s' <> []) by discriminate.
  pose proof (DecodeRuneInString_decoded _ Hs) as Hv.
  destruct (Utf8.DecodeRuneInString (s0 :: s')) as [r w]. cbn [fst snd] in Hv.
  unfold Utf8.RuneSelf in Ha.
  inversion Hv; subst; unfold cont in *; try lia; reflexivity.
Qed.

Lemma quote_step_width s :
  s <> [] -> (1 <= snd (quote_step s) <= length s)%nat.
Proof.
  intros Hs. pose proof (DecodeRuneInString_width s Hs) as Hw.
  rewrite <- loop_rune_decode in Hw.
  destruct s as [|s0 s']; [congruence|]. unfold quote_step.
  destruct (loop_rune (s0 :: s')) as [r w]. cbn [snd] in *.
  repeat match goal with |- context [if ?c then _ else _] => destruct c end;
    cbn [snd]; lia.
Qed.

(** Induction along the iterations of the loop. *)
Lemma quote_loop_ind (P : list byte -> Prop) :
  P [] ->
  (forall s, s <> [] -> P (skipn (snd (quote_step s)) s) -> P s) ->
  forall s, P s.
Proof.
  intros Hnil Hstep s. remember (length s) as n eqn:Hn.
  revert s Hn. induction n as [n IH] using lt_wf_ind. intros s Hn.
  destruct s as [|s0 s']; [exact Hnil|].
  assert (Hs : s0 :: s' <> []) by discriminate.
  apply Hstep; [exact Hs|]. eapply IH; [|reflexivity].
  pose proof (quote_step_width _ Hs). subst n.
  apply skipn_length_lt; [lia|exact Hs].
Qed.

Lemma quote_loop_app n buf s : quote_loop n buf s = buf ++ quote_loop n [] s.
Proof.
  revert buf s. induction n as [|n IH]; intros buf s; cbn [quote_loop].
  - now rewrite app_nil_r.
  - destruct s as [|s0 s']; [now rewrite app_nil_r|].
    destruct (quote_step (s0 :: s')) as [out w].
    rewrite IH, (IH ([] ++ out)), app_assoc. reflexivity.
Qed.

(** Any fuel at least [length s] gives the same result, so [appendQuoted]
    is the complete run of the Go loop. *)
Lemma quote_loop_enough n buf s :
  (length s <= n)%nat -> quote_loop n buf s = appendQuoted buf s.
Proof.
  unfold appendQuoted. revert n buf.
  induction s as [|s Hs IH] using quote_loop_ind; intros n buf Hn.
  - destruct n; reflexivity.
  - pose proof (quote_step_width _ Hs) as Hw.
    destruct n as [|n]; [destruct s; cbn in Hn; [congruence|lia]|].
    remember (length s) as m eqn:Hm.
    destruct m as [|m]; [destruct s; cbn in Hm; [congruence|lia]|].
    cbn [quote_loop]. destruct s as [|s0 s']; [congruence|].
    destruct (quote_step (s0 :: s')) as [out w] eqn:E. cbn [snd] in *.
    rewrite (IH n), (IH m); [reflexivity| |];
      rewrite length_skipn; lia.
Qed.


Lemma appendQuoted_app buf s : appendQuoted buf s = buf ++ quote s.
Proof. unfold quote, appendQuoted. apply quote_loop_app. Qed.

(** One iteration of the loop, as an equation on [quote]. *)
Lemma quote_unfold s :
  s <> [] ->
  quote s = fst (quote_step s) ++ quote (skipn (snd (quote_step s)) s).
Proof.
  intros Hs. pose proof (quote_step_width _ Hs) as Hw.
  unfold quote, appendQuoted. remember (length s) as m eqn:Hm.
  destruct m as [|m]; [destruct s; cbn in Hm; [congruence|lia]|].
  cbn [quote_loop]. destruct s as [|s0 s']; [congruence|].
  destruct (quote_step (s0 :: s')) as [out w] eqn:E. cbn [fst snd] in *.
  rewrite quote_loop_app, quote_loop_enough by (rewrite length_skipn; lia).
  reflexivity.
Qed.

End Loop.

(** ** Hex digits *)

(** The value of a lowercase hex digit, as a reader of the log does. *)
Definition hexval (b : byte) : option Z :=
  let v := bval b in
  if (48 <=? v) && (v <=? 57) then Some (v - 48)
  else if (97 <=? v) && (v <=? 102) then Some (v - 87)
  else None.

Lemma nibble_nat n : 0 <= n < 16 -> exists k, (k < 16)%nat /\ n = Z.of_nat k.
Proof. intros Hn. exists (Z.to_nat n). lia. Qed.

(** A goal on a nibble [n], closed by computation at each of its 16 values. *)
Ltac nibble_cases n :=
  let k := fresh "k" in let Hk := fresh "Hk" in
  destruct (nibble_nat n ltac:(assumption)) as [k [Hk ->]];
  do 16 (destruct k as [|k]; [reflexivity|]); lia.

Lemma hexval_hexdigit n : 0 <= n < 16 -> hexval (hexdigit n) = Some n.
Proof. intros Hn. nibble_cases n. Qed.

(** Every byte of the escaped output is a printable character: no control
    byte, no DEL. *)
Definition safe_byte (b : byte) : bool := (32 <=? bval b) && negb (bval b =? 127).

Lemma hexdigit_safe n : 0 <= n < 16 -> safe_byte (hexdigit n) = true.
Proof. intros Hn. nibble_cases n. Qed.

Lemma nibble_range x : 0 <= Z.land x 15 < 16.
Proof. zbits. zlia. Qed.

Lemma high_nibble_range b : 0 <= Z.shiftr (bval b) 4 < 16.
Proof. pose proof (bval_range b). zbits. zlia. Qed.

#[local] Hint Resolve hexdigit_safe nibble_range high_nibble_range : logger.

Section Safety.
Context `{UnicodeTables}.

Lemma escape_x_safe s0 : forallb safe_byte (escape_x s0) = true.
Proof.
  unfold escape_x. rewrite forallb_app. cbn [forallb].
  rewrite !hexdigit_safe by auto with logger. reflexivity.
Qed.

Lemma hex_loop_safe ks r : forallb safe_byte (hex_loop ks r) = true.
Proof.
  unfold hex_loop. apply forallb_forall. intros b Hb.
  apply in_map_iff in Hb. destruct Hb as [k [<- _]]. auto with logger.
Qed.

Lemma escape_rune_safe s0 r : forallb safe_byte (escape_rune s0 r) = true.
Proof.
  unfold escape_rune.
  repeat match goal with |- context [if ?c then _ else _] => destruct c end;
    rewrite ?forallb_app, ?escape_x_safe, ?hex_loop_safe; reflexivity.
Qed.

(** A printable rune is written with printable bytes. *)
Lemma EncodeRune_print_safe r :
  Utf8.ValidRune r = true -> IsPrint r = true ->
  forallb safe_byte (Utf8.EncodeRune r) = true.
Proof.
  intros Hv Hp. destruct (Z.lt_ge_cases r 0x80).
  - assert (0 <= r) by (unfold Utf8.ValidRune, Utf8.surrogateMin, Utf8.surrogateMax, Utf8.MaxRune in Hv; zbool; lia).
    rewrite IsPrint_ascii in Hp by lia. zbool.
    rewrite EncodeRune_1 by lia. cbn [forallb]. rewrite andb_true_r. unfold safe_byte. rewrite bval_byte_of.
    rewrite Z.mod_small by lia. apply andb_true_iff. split; [apply Z.leb_le; lia|].
    apply negb_true_iff, Z.eqb_neq. lia.
  - apply forallb_forall. intros b Hb.
    pose proof (proj1 (Forall_forall _ _) (EncodeRune_high r H0 Hv) b Hb) as Hhi.
    cbv beta in Hhi. pose proof (bval_range b). unfold safe_byte.
    apply andb_true_iff. split; [apply Z.leb_le; lia|].
    apply negb_true_iff, Z.eqb_neq. lia.
Qed.

End Safety.

Section SafetyThm.
Context `{UnicodeTables}.

Lemma quote_step_safe s : forallb safe_byte (fst (quote_step s)) = true.
Proof.
  destruct s as [|s0 s']; [reflexivity|].
  pose proof (DecodeRuneInString_valid (s0 :: s')) as Hv.
  unfold quote_step. rewrite loop_rune_decode.
  destruct (Utf8.DecodeRuneInString (s0 :: s')) as [r w]. cbn [fst] in *.
  destruct (_ && _); [apply escape_x_safe|].
  destruct ((r =? 34) || (r =? 92)) eqn:Hq; [|destruct (IsPrint r) eqn:Hp].
  - zbool; subst r; reflexivity.
  - now apply EncodeRune_print_safe.
  - apply escape_rune_safe.
Qed.

Lemma quote_safe_bytes s : forallb safe_byte (quote s) = true.
Proof.
  induction s as [|s Hs IH] using quote_loop_ind; [reflexivity|].
  rewrite quote_unfold, forallb_app, quote_step_safe by exact Hs. exact IH.
Qed.


End SafetyThm.

(** ** Reading a quoted field back *)

(** The one-letter escapes, and the byte each stands for. *)
Definition simple_escape (c : Z) : option Z :=
  if c =? 97 then Some 7 else if c =? 98 then Some 8
  else if c =? 102 then Some 12 else if c =? 110 then Some 10
  else if c =? 114 then Some 13 else if c =? 116 then Some 9
  else if c =? 118 then Some 11 else if c =? 34 then Some 34
  else if c =? 92 then Some 92 else None.

(** [n] hex digits, accumulated into [acc]. *)
Fixpoint hexn (n : nat) (acc : Z) (l : list byte) : option (Z * list byte) :=
  match n with
  | O => Some (acc, l)
  | S n' =>
      match l with
      | [] => None
      | b :: l' =>
          match hexval b with
          | Some d => hexn n' (acc * 16 + d) l'
          | None => None
          end
      end
  end.

Definition unquote_token (l : list byte) : option (list byte * list byte) :=
  match l with
  | [] => None
  | b :: l1 =>
      if bval b =? 92 then
        match l1 with
        | [] => None
        | c :: l2 =>
            let k := bval c in
            if k =? 120 then option_map (fun '(v, l3) => ([byte_of v], l3)) (hexn 2 0 l2)
            else if k =? 117 then
              option_map (fun '(v, l3) => (Utf8.EncodeRune v, l3)) (hexn 4 0 l2)
            else if k =? 85 then
              option_map (fun '(v, l3) => (Utf8.EncodeRune v, l3)) (hexn 8 0 l2)
            else option_map (fun v => ([byte_of v], l2)) (simple_escape k)
        end
      else Some ([b], l1)
  end.

(** Decode tokens up to the first unescaped double quote; return the
    decoded field and what follows the closing quote. *)
Fixpoint unquote_fuel (fuel : nat) (l : list byte) : option (list byte * list byte) :=
  match fuel with
  | O => None
  | S f =>
      match l with
      | [] => None
      | b :: _ =>
          if bval b =? 34 then Some ([], tl l)
          else
            match unquote_token l with
            | None => None
            | Some (d, l2) =>
                match unquote_fuel f l2 with
                | None => None
                | Some (x, rest) => Some (d ++ x, rest)
                end
            end
      end
  end.

Definition unquote (l : list byte) : option (list byte * list byte) :=
  unquote_fuel (length l) l.

Definition digits_val (ds : list Z) : Z := fold_left (fun a d => a * 16 + d) ds 0.

Lemma hexn_digits ds acc rest :
  Forall (fun d => 0 <= d < 16) ds ->
  hexn (length ds) acc (map hexdigit ds ++ rest)
  = Some (fold_left (fun a d => a * 16 + d) ds acc, rest).
Proof.
  revert acc. induction ds as [|d ds IH]; intros acc Hds; [reflexivity|].
  inversion Hds; subst. cbn [length map app hexn fold_left].
  rewrite hexval_hexdigit by assumption. now apply IH.
Qed.

Lemma bval_bslash : bval bslash = 92.
Proof. reflexivity. Qed.

Lemma bslash_not_dq : bval bslash <> 34.
Proof. rewrite bval_bslash. discriminate. Qed.

Ltac token_hex lit n :=
  intros Hds E; unfold unquote_token; rewrite bval_bslash;
  replace (bval (byte_of lit)) with lit by reflexivity; cbv beta iota;
  cbn [Z.eqb Pos.eqb]; cbv beta iota;
  match goal with
  | |- context [map hexdigit ?ds] => replace n with (length ds) by exact E
  end;
  rewrite hexn_digits by exact Hds; reflexivity.

Lemma unquote_token_x ds rest :
  Forall (fun d => 0 <= d < 16) ds -> length ds = 2%nat ->
  unquote_token (bslash :: byte_of 120 :: map hexdigit ds ++ rest)
  = Some ([byte_of (digits_val ds)], rest).
Proof. token_hex 120 2%nat. Qed.

Lemma unquote_token_u ds rest :
  Forall (fun d => 0 <= d < 16) ds -> length ds = 4%nat ->
  unquote_token (bslash :: byte_of 117 :: map hexdigit ds ++ rest)
  = Some (Utf8.EncodeRune (digits_val ds), rest).
Proof. token_hex 117 4%nat. Qed.

Lemma unquote_token_U ds rest :
  Forall (fun d => 0 <= d < 16) ds -> length ds = 8%nat ->
  unquote_token (bslash :: byte_of 85 :: map hexdigit ds ++ rest)
  = Some (Utf8.EncodeRune (digits_val ds), rest).
Proof. token_hex 85 8%nat. Qed.

(** [reads_as out d k]: reading [out] takes [k] iterations of [unquote]
    and yields [d], whatever follows it. *)
Definition reads_as (out d : list byte) (k : nat) : Prop :=
  (k <= length out)%nat /\
  forall m rest,
    unquote_fuel (k + m) (out ++ rest) =
    match unquote_fuel m rest with
    | Some (x, r) => Some (d ++ x, r)
    | None => None
    end.

Lemma reads_as_token b t d :
  bval b <> 34 ->
  (forall rest, unquote_token (b :: t ++ rest) = Some (d, rest)) ->
  reads_as (b :: t) d 1.
Proof.
  intros Hb Ht. split; [cbn; lia|]. intros m rest. cbn [Nat.add unquote_fuel app].
  replace (bval b =? 34) with false by (symmetry; now apply Z.eqb_neq).
  rewrite Ht. reflexivity.
Qed.

Lemma reads_as_raw out :
  Forall (fun b => bval b <> 34 /\ bval b <> 92) out -> reads_as out out (length out).
Proof.
  induction out as [|b t IH]; intros Hf.
  - split; [reflexivity|]. intros m rest. cbn. now destruct (unquote_fuel m rest) as [[]|].
  - inversion Hf as [|? ? [H34 H92] Ht]; subst. destruct (IH Ht) as [_ IHr].
    split; [reflexivity|]. intros m rest. cbn [length Nat.add unquote_fuel app].
    replace (bval b =? 34) with false by (symmetry; now apply Z.eqb_neq).
    unfold unquote_token at 1.
    replace (bval b =? 92) with false by (symmetry; now apply Z.eqb_neq).
    rewrite IHr. now destruct (unquote_fuel m rest) as [[]|].
Qed.

Lemma unquote_fuel_mono n l r :
  unquote_fuel n l = Some r -> forall m, (n <= m)%nat -> unquote_fuel m l = Some r.
Proof.
  revert l r. induction n as [|n IH]; intros l r Hn m Hm; [discriminate|].
  destruct m as [|m]; [lia|]. cbn [unquote_fuel] in *.
  destruct l as [|b l']; [discriminate|].
  destruct (bval b =? 34); [exact Hn|].
  destruct (unquote_token (b :: l')) as [[d l2]|]; [|discriminate].
  destruct (unquote_fuel n l2) as [[x rest]|] eqn:E; [|discriminate].
  rewrite (IH _ _ E m) by lia. exact Hn.
Qed.

(** *** The digits the escapes carry *)

Lemma digits_val_x b :
  digits_val [Z.shiftr (bval b) 4; Z.land (bval b) 15] = bval b.
Proof. pose proof (bval_range b). unfold digits_val. cbn [fold_left]. zbits. zlia. Qed.

Lemma digits_val_u r :
  0 <= r < 0x10000 ->
  digits_val (map (fun k => Z.land (Z.shiftr r k) 15) [12; 8; 4; 0]) = r.
Proof. intros. unfold digits_val. cbn [map fold_left]. zbits. zlia. Qed.

Lemma digits_val_U r :
  0 <= r < 2 ^ 32 ->
  digits_val (map (fun k => Z.land (Z.shiftr r k) 15) [28; 24; 20; 16; 12; 8; 4; 0]) = r.
Proof. intros. unfold digits_val. cbn [map fold_left]. zbits. zlia. Qed.

Lemma nibbles_range r ks :
  Forall (fun d => 0 <= d < 16) (map (fun k => Z.land (Z.shiftr r k) 15) ks).
Proof. apply Forall_forall. intros d Hd. apply in_map_iff in Hd. destruct Hd as [k [<- _]]. apply nibble_range. Qed.

Lemma escape_x_eq s0 :
  escape_x s0 = bslash :: byte_of 120 :: map hexdigit [Z.shiftr (bval s0) 4; Z.land (bval s0) 15].
Proof. reflexivity. Qed.

Lemma escape_u_eq r :
  «"\u"» ++ hex_loop [12; 8; 4; 0] r =
  bslash :: byte_of 117 :: map hexdigit (map (fun k => Z.land (Z.shiftr r k) 15) [12; 8; 4; 0]) ++ [].
Proof. reflexivity. Qed.

Lemma escape_U_eq r :
  «"\U"» ++ hex_loop [28; 24; 20; 16; 12; 8; 4; 0] r =
  bslash :: byte_of 85 ::
    map hexdigit (map (fun k => Z.land (Z.shiftr r k) 15) [28; 24; 20; 16; 12; 8; 4; 0]) ++ [].
Proof. reflexivity. Qed.

Lemma reads_x s0 : reads_as (escape_x s0) [s0] 1.
Proof.
  rewrite escape_x_eq. apply reads_as_token; [exact bslash_not_dq|]. intros rest.
  cbn [app]. rewrite unquote_token_x;
    [|constructor; [|constructor; [|constructor]]; auto with logger|reflexivity].
  now rewrite digits_val_x, byte_of_bval.
Qed.

Lemma reads_u r : 0 <= r < 0x10000 -> reads_as («"\u"» ++ hex_loop [12; 8; 4; 0] r) (Utf8.EncodeRune r) 1.
Proof.
  intros Hr. rewrite escape_u_eq, app_nil_r. apply reads_as_token; [exact bslash_not_dq|]. intros rest.
  cbn [app]. rewrite unquote_token_u by (apply nibbles_range || reflexivity).
  now rewrite digits_val_u.
Qed.

Lemma reads_U r : 0 <= r < 2 ^ 32 ->
  reads_as («"\U"» ++ hex_loop [28; 24; 20; 16; 12; 8; 4; 0] r) (Utf8.EncodeRune r) 1.
Proof.
  intros Hr. rewrite escape_U_eq, app_nil_r. apply reads_as_token; [exact bslash_not_dq|]. intros rest.
  cbn [app]. rewrite unquote_token_U by (apply nibbles_range || reflexivity).
  now rewrite digits_val_U.
Qed.

(** A literal escape such as [\n] is one token of [unquote]. *)
Ltac read_literal :=
  match goal with |- reads_as (bs ?l) _ _ =>
    let v := eval vm_compute in (bs l) in change (bs l) with v end;
  apply reads_as_token; [now vm_compute | intros; reflexivity].

(** Each escape of the non-printable case reads back as the rune's
    UTF-8 encoding. *)
Lemma escape_rune_reads s0 r :
  0 <= r <= Utf8.MaxRune -> (r < 32 -> Utf8.EncodeRune r = [s0]) ->
  reads_as (escape_rune s0 r) (Utf8.EncodeRune r) 1.
Proof.
  intros Hr Hx. unfold escape_rune. cbv zeta.
  repeat split_if; unfold Utf8.MaxRune in *;
    try (rewrite Hx by lia; apply reads_x);
    try (apply reads_u; lia); try (apply reads_U; lia);
    subst r; rewrite EncodeRune_1 by lia; read_literal.
Qed.

Section RoundTrip.
Context `{UnicodeTables}.

(** The bytes of a printable rune other than a quote or a backslash are
    read back one by one. *)
Lemma EncodeRune_plain r :
  Utf8.ValidRune r = true -> r <> 34 -> r <> 92 ->
  Forall (fun b => bval b <> 34 /\ bval b <> 92) (Utf8.EncodeRune r).
Proof.
  intros Hv H34 H92. destruct (Z.lt_ge_cases r 0x80) as [Hlo|Hhi].
  - assert (0 <= r) by (unfold Utf8.ValidRune, Utf8.surrogateMin, Utf8.surrogateMax,
                          Utf8.MaxRune in Hv; zbool; lia).
    rewrite EncodeRune_1 by lia. constructor; [|constructor].
    rewrite bval_byte_of, Z.mod_small by lia. lia.
  - eapply Forall_impl; [|exact (EncodeRune_high r Hhi Hv)]. cbv beta. lia.
Qed.

(** Every iteration of the loop appends bytes that read back as the bytes
    it consumed. *)
Lemma quote_step_reads s :
  s <> [] -> exists k, reads_as (fst (quote_step s)) (firstn (snd (quote_step s)) s) k.
Proof.
  intros Hs. pose proof (DecodeRuneInString_valid s) as Hv.
  pose proof (DecodeRuneInString_width s Hs) as Hw.
  pose proof (EncodeRune_DecodeRuneInString s) as ER.
  destruct s as [|s0 s']; [congruence|].
  unfold quote_step. rewrite loop_rune_decode.
  destruct (Utf8.DecodeRuneInString (s0 :: s')) as [r w]. cbn [fst snd] in *.
  specialize (ER r w Hs eq_refl).
  assert (Hr : 0 <= r <= Utf8.MaxRune)
    by (unfold Utf8.ValidRune, Utf8.surrogateMin, Utf8.surrogateMax, Utf8.MaxRune in *;
        zbool; lia).
  cbv beta iota.
  destruct ((w =? 1)%nat && (r =? Utf8.RuneError)) eqn:Ha; cbn [fst snd].
  { apply andb_true_iff in Ha. destruct Ha as [Ha _]. apply Nat.eqb_eq in Ha. subst w.
    exists 1%nat. apply reads_x. }
  assert (ER' : Utf8.EncodeRune r = firstn w (s0 :: s')).
  { apply ER. intros [-> ->]. cbn in Ha. discriminate. }
  clear ER.
  destruct ((r =? 34) || (r =? 92)) eqn:Hq; [|destruct (IsPrint r) eqn:Hp];
    cbn [fst snd]; rewrite <- ER'.
  - exists 1%nat. zbool; subst r; rewrite EncodeRune_1 by lia;
      (apply reads_as_token; [exact bslash_not_dq|intros; reflexivity]).
  - exists (length (Utf8.EncodeRune r)). apply reads_as_raw. zbool.
    apply EncodeRune_plain; assumption.
  - exists 1%nat. apply escape_rune_reads; [exact Hr|]. intros Hlt.
    rewrite EncodeRune_1 in ER' |- * by lia.
    assert (w = 1%nat) as ->.
    { apply (f_equal (@length byte)) in ER'. rewrite length_firstn in ER'. cbn [length] in *. lia. }
    exact ER'.
Qed.

Lemma quote_reads s t rest :
  Forall (fun b => bval b <> 34 /\ bval b <> 92) t ->
  exists n, (n <= length (quote s ++ t ++ dq :: rest))%nat /\
            unquote_fuel n (quote s ++ t ++ dq :: rest) = Some (s ++ t, rest).
Proof.
  intros Ht. induction s as [|s Hs IH] using quote_loop_ind.
  - destruct (reads_as_raw t Ht) as [_ Hr]. exists (length t + 1)%nat.
    change (quote []) with (@nil byte). rewrite !app_nil_l.
    split; [rewrite length_app; cbn [length]; lia|]. rewrite Hr.
    change (unquote_fuel 1 (dq :: rest)) with (Some (@nil byte, rest)).
    cbv beta iota. now rewrite app_nil_r.
  - destruct IH as [n [Hn IH]].
    destruct (quote_step_reads s Hs) as [k [Hk Hr]].
    exists (k + n)%nat. rewrite quote_unfold by exact Hs. rewrite <- app_assoc.
    split; [rewrite length_app; lia|].
    rewrite Hr, IH, app_assoc, firstn_skipn. reflexivity.
Qed.

(** Bytes that are neither a quote nor a backslash, after the escaped
    part and before the closing quote, are read back as they are. *)
Lemma unquote_quote_raw s t rest :
  Forall (fun b => bval b <> 34 /\ bval b <> 92) t ->
  unquote (quote s ++ t ++ dq :: rest) = Some (s ++ t, rest).
Proof.
  intros Ht. destruct (quote_reads s t rest Ht) as [n [Hn Hr]].
  unfold unquote. eapply unquote_fuel_mono; eassumption.
Qed.

(** C2. Round trip: the escaped field, followed by its closing quote and
    the rest of the line, is read back by [unquote] as exactly the
    original bytes (valid UTF-8 or not), and the reader resumes right
    after the closing quote. *)
Theorem unquote_quote s rest :
  unquote (quote s ++ dq :: rest) = Some (s, rest).
Proof.
  rewrite <- (app_nil_r s) at 2. apply (unquote_quote_raw s [] rest). constructor.
Qed.

End RoundTrip.

Section Consequences.
Context `{UnicodeTables}.

(** C17. Escaping is injective: two different request targets (or
    referrers, or user agents) never produce the same quoted field. *)
Theorem quote_injective s1 s2 : quote s1 = quote s2 -> s1 = s2.
Proof.
  intros E.
  pose proof (unquote_quote_raw s1 [] [] (Forall_nil _)) as H1.
  pose proof (unquote_quote_raw s2 [] [] (Forall_nil _)) as H2.
  rewrite E, H2, !app_nil_r in H1. congruence.
Qed.

(** Text made only of printable runes other than the quote and the
    backslash: the decoder reads a valid rune from the front, and so on. *)
Inductive plain : list byte -> Prop :=
| plain_nil : plain []
| plain_cons s r w :
    s <> [] -> Utf8.DecodeRuneInString s = (r, w) ->
    ~ (w = 1%nat /\ r = Utf8.RuneError) ->
    IsPrint r = true -> r <> 34 -> r <> 92 ->
    plain (skipn w s) -> plain s.

Lemma quote_step_plain s r w :
  s <> [] -> Utf8.DecodeRuneInString s = (r, w) ->
  ~ (w = 1%nat /\ r = Utf8.RuneError) -> IsPrint r = true -> r <> 34 -> r <> 92 ->
  quote_step s = (firstn w s, w).
Proof.
  intros Hs Hd Hne Hp H34 H92.
  rewrite <- (EncodeRune_DecodeRuneInString s r w Hs Hd Hne).
  destruct s as [|s0 s']; [congruence|]. unfold quote_step.
  rewrite loop_rune_decode, Hd. cbv beta iota.
  replace ((w =? 1)%nat && (r =? Utf8.RuneError)) with false.
  - replace ((r =? 34) || (r =? 92)) with false by (symmetry; apply orb_false_iff; split; now apply Z.eqb_neq).
    now rewrite Hp.
  - symmetry. apply andb_false_iff.
    destruct (Nat.eqb_spec w 1); [right; apply Z.eqb_neq; tauto|now left].
Qed.

(** C18. Plain printable text (every rune printable, valid, and neither a
    double quote nor a backslash) is copied unchanged by the escaping. *)
Theorem quote_plain s : plain s -> quote s = s.
Proof.
  induction 1 as [|s r w Hs Hd Hne Hp H34 H92 _ IH]; [reflexivity|].
  rewrite quote_unfold by exact Hs.
  rewrite (quote_step_plain s r w) by assumption. cbn [fst snd].
  rewrite IH. apply firstn_skipn.
Qed.

End Consequences.

(** ** Concrete runs *)

Section Runs.
#[local] Existing Instance AllAbove.

Ltac plain_tac :=
  first [ apply plain_nil
        | eapply plain_cons;
          [ discriminate | reflexivity | intros [Hw Hr]; discriminate
          | reflexivity | discriminate | discriminate | plain_tac ] ].

Lemma quote_plain_witness : quote «"/index.html?q=caf"» = «"/index.html?q=caf"».
Proof. apply quote_plain. plain_tac. Defined.

Lemma quote_injective_witness : «"/a b"» = «"/a b"».
Proof. apply quote_injective. reflexivity. Defined.


End Runs.
