(* ===== verification/QuoteProps.v ===== *)
(** * QuoteProps: the loop of [appendQuoted] without fuel, and the shape
    of its output

    - [appendQuoted_wf] is the Go loop
      [for width := 0; len(s) > 0; s = s[width:]] of src/logger.go:62
      written with well-founded recursion on [length s] (Equations): no
      fuel.  [appendQuoted_wf_fuel] shows the fuel model of [Quote] is the
      same function.
    - [step_view] names the four outcomes of one iteration (an invalid
      byte, a quote or backslash, a printable rune, a rune escaped by the
      [switch]) with the facts about the decoded rune each one needs.
    - Size: the escaped text is at least as long as the input and at most
      six times as long ([appendQuoted_wf_length]).
    - Quotes (specification, section 8): the output holds exactly as many
      double quotes as the input, each preceded by a backslash
      ([quote_quotes]), and exactly one two-byte backslash escape per
      double quote or backslash of the input ([quote_special_escapes]).
    - UTF-8: whatever the input, the output decodes rune by rune without
      error ([quote_valid_utf8]); it rests on [decoded_DecodeRuneInString],
      the converse of the decoder's classification. *)

From Stdlib Require Import ZArith List Lia Bool.
From Equations Require Import Equations.
From S2P Require Import Prelude Utf8 Strconv Quote.
Import ListNotations.
Open Scope Z_scope.
Open Scope go_scope.

(** ** The loop by well-founded recursion *)

Section Wf.
Context `{UnicodeTables}.

(** The body of the loop is a black box to Equations: unfolding it while
    deriving the equations of [appendQuoted_wf] would expand the decoder. *)
#[local] Opaque quote_step.

Equations? appendQuoted_wf (buf s : list byte) : list byte by wf (length s) lt :=
  appendQuoted_wf buf [] := buf;
  appendQuoted_wf buf (s0 :: s') :=
    appendQuoted_wf (buf ++ fst (quote_step (s0 :: s')))
                    (skipn (snd (quote_step (s0 :: s'))) (s0 :: s')).
Proof.
  pose proof (quote_step_width (s0 :: s') ltac:(discriminate)) as Hw.
  rewrite length_skipn. cbn [length] in *. lia.
Qed.

(** The fuel model and the well-founded model of the loop of
    [appendQuoted] are the same function: the fuel [length s] never cuts
    the loop short. *)
Theorem appendQuoted_wf_fuel buf s : appendQuoted_wf buf s = appendQuoted buf s.
Proof.
  funelim (appendQuoted_wf buf s).
  - reflexivity.
  - match goal with IH : appendQuoted_wf _ _ = appendQuoted _ _ |- _ => rewrite IH end.
    rewrite !appendQuoted_app, (quote_unfold (s0 :: s')) by discriminate.
    now rewrite app_assoc.
Qed.

End Wf.

(** ** What the decoder says about the bytes it consumed *)

Lemma decoded_ascii s r w :
  decoded s r w -> r < 0x80 -> exists s0 s', s = s0 :: s' /\ w = 1%nat /\ r = bval s0.
Proof.
  destruct 1; unfold Utf8.RuneError, cont in *; byte_ranges; intros; try lia. eauto.
Qed.

Lemma decoded_error s w :
  decoded s Utf8.RuneError w -> w = 1%nat ->
  exists s0 s', s = s0 :: s' /\ 0x80 <= bval s0.
Proof.
  intros Hd Hw. inversion Hd; subst; try discriminate; eauto.
  unfold Utf8.RuneError in *; lia.
Qed.

Lemma decoded_four s r w : decoded s r w -> 0x10000 <= r -> w = 4%nat.
Proof. destruct 1; unfold Utf8.RuneError, cont in *; byte_ranges; intros; lia. Qed.

Lemma decoded_width s r w : decoded s r w -> (1 <= w <= 4)%nat /\ (w <= length s)%nat.
Proof. destruct 1; cbn [length]; lia. Qed.

(** A rune other than an ASCII byte [c] is decoded from bytes none of
    which is [c]: multi-byte sequences and invalid bytes are at or above
    0x80. *)
Lemma decoded_no_byte s r w c :
  decoded s r w -> bval c < 0x80 -> r <> bval c ->
  forallb (fun b => negb (byteb b c)) (firstn w s) = true.
Proof.
  unfold byteb. destruct 1; unfold cont in *; byte_ranges; intros; cbn [firstn forallb];
    repeat (rewrite (proj2 (Z.eqb_neq _ _)) by lia); reflexivity.
Qed.

Lemma decoded_no_dq s r w :
  decoded s r w -> r <> 34 -> forallb (fun b => negb (byteb b dq)) (firstn w s) = true.
Proof. intros Hd Hr. apply (decoded_no_byte _ r); [exact Hd | reflexivity | exact Hr]. Qed.

(** ** One iteration *)

Section View.
Context `{UnicodeTables}.

(** The four outcomes of one iteration of the loop, src/logger.go:63-119. *)
Inductive step_view (s : list byte) : list byte -> nat -> Prop :=
  | sv_invalid s0 s' :
      s = s0 :: s' -> 0x80 <= bval s0 -> step_view s (escape_x s0) 1
  | sv_special s0 s' :
      s = s0 :: s' -> bval s0 = 34 \/ bval s0 = 92 -> step_view s [bslash; s0] 1
  | sv_print r w :
      decoded s r w -> ~ (w = 1%nat /\ r = Utf8.RuneError) -> IsPrint r = true ->
      r <> 34 -> r <> 92 -> step_view s (firstn w s) w
  | sv_escape s0 s' r w :
      s = s0 :: s' -> decoded s r w -> ~ (w = 1%nat /\ r = Utf8.RuneError) ->
      IsPrint r = false -> r <> 34 -> r <> 92 -> step_view s (escape_rune s0 r) w.

Lemma quote_step_view s :
  s <> [] -> step_view s (fst (quote_step s)) (snd (quote_step s)).
Proof.
  intros Hs. pose proof (DecodeRuneInString_decoded s Hs) as Hd.
  pose proof (EncodeRune_DecodeRuneInString s) as ER.
  destruct s as [|s0 s']; [congruence|].
  unfold quote_step. rewrite loop_rune_decode.
  destruct (Utf8.DecodeRuneInString (s0 :: s')) as [r w]. cbn [fst snd] in *.
  specialize (ER r w Hs eq_refl). cbv beta iota.
  destruct ((w =? 1)%nat && (r =? Utf8.RuneError)) eqn:Ha; cbn [fst snd].
  { apply andb_true_iff in Ha. destruct Ha as [Hw Hr].
    apply Nat.eqb_eq in Hw. apply Z.eqb_eq in Hr. subst.
    destruct (decoded_error _ _ Hd eq_refl) as (b & t & [= <- <-] & Hb).
    now apply (sv_invalid _ s0 s'). }
  assert (Hne : ~ (w = 1%nat /\ r = Utf8.RuneError)).
  { intros [-> ->]. cbn in Ha. discriminate. }
  destruct ((r =? 34) || (r =? 92)) eqn:Hq; [|destruct (IsPrint r) eqn:Hp]; cbn [fst snd].
  - assert (Hlo : r < 0x80) by (zbool; lia).
    destruct (decoded_ascii _ _ _ Hd Hlo) as (b & t & [= <- <-] & -> & ->).
    rewrite byte_of_bval. apply (sv_special _ s0 s'); [reflexivity|]. zbool; lia.
  - rewrite (ER Hne). zbool. eapply sv_print; eauto; lia.
  - zbool. eapply (sv_escape _ s0 s'); eauto; lia.
Qed.

End View.

(** ** The size of the escaped text *)

Lemma decoded_range s r w : decoded s r w -> 0 <= r <= Utf8.MaxRune.
Proof. destruct 1; unfold cont, Utf8.RuneError, Utf8.MaxRune in *; byte_ranges; lia. Qed.

(** The length of a byte-string literal, computed. *)
Ltac literal_lengths :=
  repeat match goal with
  | |- context [length (bs ?x)] =>
      let n := eval vm_compute in (length (bs x)) in change (length (bs x)) with n
  end.

(** An escape is at least as long as the rune it replaces, and at most
    six bytes per byte of it ([\u007f] for DEL is the worst case). *)
Lemma escape_rune_size s0 s' r w :
  decoded (s0 :: s') r w -> (w <= length (escape_rune s0 r) <= 6 * w)%nat.
Proof.
  intros Hd. pose proof (decoded_width _ _ _ Hd) as [Hw _].
  pose proof (decoded_range _ _ _ Hd) as Hr. unfold Utf8.MaxRune in Hr.
  unfold escape_rune, escape_x, hex_loop.
  repeat match goal with |- context [if ?c then _ else _] => destruct c eqn:? end;
    cbv zeta in *; zbool; rewrite ?length_app, ?length_map; cbn [length]; literal_lengths;
    first [ lia
          | destruct (decoded_ascii _ _ _ Hd ltac:(lia)) as (? & ? & _ & -> & _); lia
          | rewrite (decoded_four _ _ _ Hd ltac:(unfold Utf8.MaxRune in *; lia)); lia ].
Qed.

Section Size.
Context `{UnicodeTables}.

Lemma quote_step_size s out w : step_view s out w -> (w <= length out <= 6 * w)%nat.
Proof.
  destruct 1 as [s0 s' -> _|s0 s' -> _|r w Hd _ _ _ _|s0 s' r w -> Hd _ _ _ _].
  - cbn. lia.
  - cbn. lia.
  - pose proof (decoded_width _ _ _ Hd). rewrite length_firstn. lia.
  - exact (escape_rune_size _ _ _ _ Hd).
Qed.


(** C15. Bounds on the escaped field: the loop of [appendQuoted] appends
    to [buf] at least as many bytes as [s] has and at most six times as
    many. *)
Theorem appendQuoted_wf_length buf s :
  (length buf + length s <= length (appendQuoted_wf buf s) <= length buf + 6 * length s)%nat.
Proof.
  funelim (appendQuoted_wf buf s); [cbn; lia|].
  match goal with IH : (_ <= length (appendQuoted_wf _ _) <= _)%nat |- _ => revert IH end.
  pose proof (quote_step_size _ _ _ (quote_step_view (s0 :: s') ltac:(discriminate))) as Hz.
  pose proof (quote_step_width (s0 :: s') ltac:(discriminate)) as Hw.
  rewrite length_app, length_skipn. cbn [length] in *. lia.
Qed.

End Size.

(** ** Double quotes in the escaped text *)

(** Every double quote of [l] comes right after a backslash. *)
Definition quotes_escaped (l : list byte) : Prop :=
  forall a b, l = a ++ dq :: b -> exists a', a = a' ++ [bslash].

Definition no_dq (l : list byte) : bool := forallb (fun b => negb (byteb b dq)) l.

Definition count_dq (l : list byte) : nat := count_occ Byte.byte_eq_dec l dq.

Lemma no_dq_not_In l : no_dq l = true -> ~ In dq l.
Proof.
  unfold no_dq. intros Hl Hin. pose proof (proj1 (forallb_forall _ _) Hl dq Hin) as Hd.
  cbv beta in Hd. now rewrite byteb_refl in Hd.
Qed.

Lemma no_dq_count l : no_dq l = true -> count_dq l = 0%nat.
Proof. intros Hl. apply count_occ_not_In, no_dq_not_In, Hl. Qed.

Lemma no_dq_escaped l : no_dq l = true -> quotes_escaped l.
Proof.
  intros Hl a b ->. exfalso. apply (no_dq_not_In _ Hl), in_or_app. right. now left.
Qed.

Lemma quotes_escaped_app l1 l2 :
  quotes_escaped l1 -> quotes_escaped l2 -> quotes_escaped (l1 ++ l2).
Proof.
  intros H1 H2 a b E. apply app_eq_app in E as [m [[-> E] | [-> E]]].
  - destruct m as [|c m].
    + destruct (H2 [] b (eq_sym E)) as [m' Hm]. destruct m'; discriminate.
    + injection E as Hc E. subst c. apply (H1 a m). reflexivity.
  - destruct (H2 m b E) as [m' ->]. exists (l1 ++ m'). now rewrite app_assoc.
Qed.

Lemma hexdigit_no_dq n : 0 <= n < 16 -> negb (byteb (hexdigit n) dq) = true.
Proof. intros Hn. nibble_cases n. Qed.

(** An escape of the [switch] holds no double quote: it is made of a
    backslash, a letter and hex digits. *)
Lemma escape_rune_no_dq s0 r : no_dq (escape_rune s0 r) = true.
Proof.
  unfold no_dq, escape_rune, escape_x, hex_loop.
  repeat match goal with |- context [if ?c then _ else _] => destruct c end;
    cbv zeta; rewrite ?forallb_app; cbn [map forallb andb bs String.list_byte_of_string];
    rewrite ?hexdigit_no_dq by (apply nibble_range || apply high_nibble_range);
    reflexivity.
Qed.

Lemma escape_x_no_dq s0 : no_dq (escape_x s0) = true.
Proof. exact (escape_rune_no_dq s0 1). Qed.

Lemma special_escaped s0 : quotes_escaped [bslash; s0].
Proof.
  intros a b E. destruct a as [|c [|d a]]; cbn in E; injection E as E1 E2.
  - discriminate E1.
  - exists []. now subst.
  - destruct a; discriminate.
Qed.

Section Quotes.
Context `{UnicodeTables}.

Lemma step_quotes s out w :
  step_view s out w -> count_dq out = count_dq (firstn w s) /\ quotes_escaped out.
Proof.
  destruct 1 as [s0 s' -> Hb|s0 s' -> Hb|r w Hd _ _ H34' _|s0 s' r w -> Hd _ _ H34 _].
  - split; [|apply no_dq_escaped, escape_x_no_dq].
    rewrite no_dq_count by apply escape_x_no_dq. symmetry. apply no_dq_count.
    cbn. unfold byteb, dq. rewrite bval_byte_of. cbn [Z.modulo].
    rewrite (proj2 (Z.eqb_neq _ _)) by (cbn; lia). reflexivity.
  - split; [|apply special_escaped]. unfold count_dq. cbn [firstn count_occ].
    destruct (Byte.byte_eq_dec bslash dq); [discriminate|reflexivity].
  - split; [reflexivity|].
    apply no_dq_escaped. exact (decoded_no_dq _ _ _ Hd H34').
  - split; [|apply no_dq_escaped, escape_rune_no_dq].
    rewrite no_dq_count by apply escape_rune_no_dq. symmetry. apply no_dq_count.
    exact (decoded_no_dq _ _ _ Hd H34).
Qed.


(** C5. Specification, section 8: the escaped text holds exactly as many
    double quotes as the input, and every one of them comes right after a
    backslash. *)
Theorem quote_quotes s : count_dq (quote s) = count_dq s /\ quotes_escaped (quote s).
Proof.
  induction s as [|s Hs [IHc IHe]] using quote_loop_ind.
  - split; [reflexivity|]. intros a b E. destruct a; discriminate.
  - destruct (step_quotes _ _ _ (quote_step_view s Hs)) as [Hc He].
    rewrite quote_unfold by exact Hs. split.
    + unfold count_dq in *. rewrite count_occ_app, Hc, IHc, <- count_occ_app, firstn_skipn.
      reflexivity.
    + apply quotes_escaped_app; assumption.
Qed.

End Quotes.

(** ** Escaped quotes and backslashes *)

(** The escapes of a double quote and of a backslash in an escaped text,
    read from the left: a backslash and the byte after it make one escape. *)
Fixpoint special_escapes (l : list byte) : nat :=
  match l with
  | [] => 0
  | b :: l' =>
      if byteb b bslash then
        match l' with
        | [] => 0
        | c :: r => (if byteb c dq || byteb c bslash then 1 else 0) + special_escapes r
        end
      else special_escapes l'
  end.

Definition count_bslash (l : list byte) : nat := count_occ Byte.byte_eq_dec l bslash.

Definition no_bslash (l : list byte) : bool := forallb (fun b => negb (byteb b bslash)) l.

(** An escape of the [switch] or of an invalid byte: a backslash, a
    letter, then hex digits. *)
Definition letter_escape (t : list byte) : bool :=
  match t with
  | b :: c :: t' => byteb b bslash && negb (byteb c dq || byteb c bslash) && no_bslash t'
  | _ => false
  end.

Lemma no_bslash_escapes t r : no_bslash t = true -> special_escapes (t ++ r) = special_escapes r.
Proof.
  induction t as [|b t IH]; intros Ht; [reflexivity|].
  cbn [no_bslash forallb] in Ht. apply andb_true_iff in Ht as [Hb Ht].
  apply negb_true_iff in Hb. cbn [app special_escapes]. rewrite Hb. exact (IH Ht).
Qed.

Lemma letter_escape_escapes t r :
  letter_escape t = true -> special_escapes (t ++ r) = special_escapes r.
Proof.
  destruct t as [|b [|c t]]; try discriminate. cbn [letter_escape].
  rewrite !andb_true_iff, negb_true_iff. intros [[Hb Hc] Ht].
  cbn [app special_escapes]. rewrite Hb, Hc. exact (no_bslash_escapes t r Ht).
Qed.

Lemma no_bslash_count l : no_bslash l = true -> count_bslash l = 0%nat.
Proof.
  intros Hl. apply count_occ_not_In. intros Hin.
  pose proof (proj1 (forallb_forall _ _) Hl bslash Hin) as Hb.
  cbv beta in Hb. now rewrite byteb_refl in Hb.
Qed.

Lemma hexdigit_no_bslash n : 0 <= n < 16 -> negb (byteb (hexdigit n) bslash) = true.
Proof. intros Hn. nibble_cases n. Qed.

(** Evaluate the byte-string literals of a goal. *)
Ltac eval_literals :=
  repeat match goal with |- context [bs ?x] =>
    let v := eval vm_compute in (bs x) in change (bs x) with v end.

Lemma escape_rune_letter s0 r : letter_escape (escape_rune s0 r) = true.
Proof.
  unfold escape_rune, escape_x, hex_loop.
  repeat match goal with |- context [if ?c then _ else _] => destruct c end;
    cbv zeta; eval_literals; cbn [map app letter_escape no_bslash forallb];
    rewrite ?hexdigit_no_bslash by (apply nibble_range || apply high_nibble_range);
    reflexivity.
Qed.

Lemma escape_x_letter s0 : letter_escape (escape_x s0) = true.
Proof. exact (escape_rune_letter s0 1). Qed.

(** A byte of [0x80, 0xff] is neither a double quote nor a backslash. *)
Lemma high_byte_plain s0 :
  0x80 <= bval s0 -> count_dq [s0] = 0%nat /\ count_bslash [s0] = 0%nat.
Proof.
  intros Hb. split; [apply no_dq_count|apply no_bslash_count];
    cbn; unfold byteb, dq, bslash; rewrite bval_byte_of; cbn [Z.modulo];
    rewrite (proj2 (Z.eqb_neq _ _)) by (cbn; lia); reflexivity.
Qed.

Lemma special_byte_count s0 :
  bval s0 = 34 \/ bval s0 = 92 -> (count_dq [s0] + count_bslash [s0])%nat = 1%nat.
Proof.
  intros Hb. rewrite <- (byte_of_bval s0).
  destruct Hb as [-> | ->]; reflexivity.
Qed.

Lemma count_occ_split {A} (d : forall x y : A, {x = y} + {x <> y}) n l x :
  count_occ d l x = (count_occ d (firstn n l) x + count_occ d (skipn n l) x)%nat.
Proof. now rewrite <- count_occ_app, firstn_skipn. Qed.

Section Escapes.
Context `{UnicodeTables}.

Lemma step_escapes s out w r :
  step_view s out w ->
  special_escapes (out ++ r) = (count_dq (firstn w s) + count_bslash (firstn w s) + special_escapes r)%nat.
Proof.
  destruct 1 as [s0 s' -> Hb|s0 s' -> Hb|r' w Hd _ _ H34 H92|s0 s' r' w -> Hd _ _ H34 H92].
  - rewrite letter_escape_escapes by apply escape_x_letter.
    cbn [firstn]. destruct (high_byte_plain s0 Hb) as [-> ->]. reflexivity.
  - cbn [firstn]. rewrite (special_byte_count s0 Hb). cbn [app special_escapes].
    rewrite byteb_refl. unfold byteb, dq, bslash. rewrite !bval_byte_of.
    cbn [Z.modulo]. destruct Hb as [-> | ->]; reflexivity.
  - rewrite no_bslash_escapes by exact (decoded_no_byte _ _ _ bslash Hd eq_refl H92).
    rewrite no_dq_count by exact (decoded_no_dq _ _ _ Hd H34).
    rewrite no_bslash_count by exact (decoded_no_byte _ _ _ bslash Hd eq_refl H92).
    reflexivity.
  - rewrite letter_escape_escapes by apply escape_rune_letter.
    rewrite no_dq_count by exact (decoded_no_dq _ _ _ Hd H34).
    rewrite no_bslash_count by exact (decoded_no_byte _ _ _ bslash Hd eq_refl H92).
    reflexivity.
Qed.

(** C11. Specification, section 8: every double quote and every backslash
    of the input comes out as its own two-byte escape, a backslash before it, and no
    other escape of the output reads as one of them: the escaped text holds
    exactly as many such escapes as the input has double quotes and
    backslashes. *)
Theorem quote_special_escapes s :
  special_escapes (quote s) = (count_dq s + count_bslash s)%nat.
Proof.
  induction s as [|s Hs IH] using quote_loop_ind; [reflexivity|].
  rewrite quote_unfold by exact Hs.
  rewrite (step_escapes _ _ _ _ (quote_step_view s Hs)), IH.
  unfold count_dq, count_bslash.
  rewrite (count_occ_split _ (snd (quote_step s)) s dq), (count_occ_split _ (snd (quote_step s)) s bslash).
  lia.
Qed.

End Escapes.

(** ** The escaped text is valid UTF-8 *)

(** [utf8.ValidString]: the text decodes, rune after rune, without the
    one-byte [RuneError] of an invalid sequence. *)
Inductive valid_utf8 : list byte -> Prop :=
  | valid_nil : valid_utf8 []
  | valid_rune s r w :
      s <> [] -> Utf8.DecodeRuneInString s = (r, w) -> ~ (w = 1%nat /\ r = Utf8.RuneError) ->
      valid_utf8 (skipn w s) -> valid_utf8 s.

Definition ascii_only (l : list byte) : bool := forallb (fun b => bval b <? 0x80) l.

Lemma decoded_app s t r w : decoded s r w -> decoded (s ++ t) r w.
Proof. destruct 1; cbn [app]; eauto with logger. Qed.

Lemma decoded_firstn s r w : decoded s r w -> decoded (firstn w s) r w.
Proof. destruct 1; cbn [firstn]; eauto with logger. Qed.

Lemma valid_utf8_app a b : valid_utf8 a -> valid_utf8 b -> valid_utf8 (a ++ b).
Proof.
  induction 1 as [|s r w Hs Hd Hne _ IH]; intros Hb; [exact Hb|].
  pose proof (DecodeRuneInString_decoded s Hs) as Hv. rewrite Hd in Hv. cbn [fst snd] in Hv.
  pose proof (decoded_width _ _ _ Hv) as [_ Hw].
  apply (valid_rune _ r w).
  - destruct s; [congruence|discriminate].
  - exact (decoded_DecodeRuneInString _ _ _ (decoded_app _ b _ _ Hv) Hne).
  - exact Hne.
  - rewrite skipn_app, (proj2 (Nat.sub_0_le w (length s)) Hw). exact (IH Hb).
Qed.

Lemma ascii_valid l : ascii_only l = true -> valid_utf8 l.
Proof.
  induction l as [|b l IH]; intros Hl; [constructor|].
  cbn [ascii_only forallb] in Hl. apply andb_true_iff in Hl as [Hb Hl]. zbool.
  apply (valid_rune _ (bval b) 1); [discriminate| |unfold Utf8.RuneError; lia|exact (IH Hl)].
  apply decoded_DecodeRuneInString; [now constructor | unfold Utf8.RuneError; lia].
Qed.

Lemma hexdigit_ascii n : 0 <= n < 16 -> (bval (hexdigit n) <? 0x80) = true.
Proof. intros Hn. nibble_cases n. Qed.

Lemma escape_rune_ascii s0 r : ascii_only (escape_rune s0 r) = true.
Proof.
  unfold ascii_only, escape_rune, escape_x, hex_loop.
  repeat match goal with |- context [if ?c then _ else _] => destruct c end;
    cbv zeta; rewrite ?forallb_app; cbn [map forallb andb bs String.list_byte_of_string];
    rewrite ?hexdigit_ascii by (apply nibble_range || apply high_nibble_range);
    reflexivity.
Qed.

Section Valid.
Context `{UnicodeTables}.

Lemma step_valid s out w : step_view s out w -> valid_utf8 out.
Proof.
  destruct 1 as [s0 s' -> _|s0 s' -> Hb|r w Hd Hne _ _ _|s0 s' r w -> _ _ _ _ _].
  - apply ascii_valid. exact (escape_rune_ascii s0 1).
  - apply ascii_valid. cbn. destruct Hb as [-> | ->]; reflexivity.
  - pose proof (decoded_width _ _ _ Hd) as [Hw Hl].
    apply (valid_rune _ r w).
    + intros E. apply (f_equal (@length _)) in E. rewrite length_firstn in E. cbn in E. lia.
    + exact (decoded_DecodeRuneInString _ _ _ (decoded_firstn _ _ _ Hd) Hne).
    + exact Hne.
    + rewrite skipn_all2 by (rewrite length_firstn; lia). constructor.
  - apply ascii_valid, escape_rune_ascii.
Qed.

(** C8. Specification, section 3 (the contract of the escaping): whatever
    bytes a request carries, invalid sequences included, the escaped field
    is valid UTF-8: every rune of the output decodes without error. *)
Theorem quote_valid_utf8 s : valid_utf8 (quote s).
Proof.
  induction s as [|s Hs IH] using quote_loop_ind; [constructor|].
  rewrite quote_unfold by exact Hs.
  exact (valid_utf8_app _ _ (step_valid _ _ _ (quote_step_view s Hs)) IH).
Qed.

End Valid.

(** ** Every character of the escaped text is printable *)

Section Printable.
Context `{UnicodeTables}.

(** The text decodes, rune after rune, into valid runes that
    [strconv.IsPrint] accepts. *)
Inductive printable_text : list byte -> Prop :=
  | ptext_nil : printable_text []
  | ptext_rune s r w :
      s <> [] -> Utf8.DecodeRuneInString s = (r, w) -> ~ (w = 1%nat /\ r = Utf8.RuneError) ->
      IsPrint r = true -> printable_text (skipn w s) -> printable_text s.

Lemma printable_text_app a b : printable_text a -> printable_text b -> printable_text (a ++ b).
Proof.
  induction 1 as [|s r w Hs Hd Hne Hp _ IH]; intros Hb; [exact Hb|].
  pose proof (DecodeRuneInString_decoded s Hs) as Hv. rewrite Hd in Hv. cbn [fst snd] in Hv.
  pose proof (decoded_width _ _ _ Hv) as [_ Hw].
  apply (ptext_rune _ r w); [destruct s; [congruence|discriminate] | | exact Hne | exact Hp |].
  - exact (decoded_DecodeRuneInString _ _ _ (decoded_app _ b _ _ Hv) Hne).
  - rewrite skipn_app, (proj2 (Nat.sub_0_le w (length s)) Hw). exact (IH Hb).
Qed.

(** Printable ASCII bytes are printable one-byte runes. *)
Lemma ascii_printable l :
  ascii_only l = true -> forallb safe_byte l = true -> printable_text l.
Proof.
  induction l as [|b l IH]; intros Ha Hs; [constructor|].
  cbn [ascii_only forallb] in Ha, Hs. apply andb_true_iff in Ha as [Ha Hal].
  apply andb_true_iff in Hs as [Hs Hsl]. unfold safe_byte in Hs.
  apply andb_true_iff in Hs as [H1 H2]. apply negb_true_iff in H2. zbool.
  apply (ptext_rune _ (bval b) 1); [discriminate| |unfold Utf8.RuneError; lia| |exact (IH Hal Hsl)].
  - apply decoded_DecodeRuneInString; [now constructor | unfold Utf8.RuneError; lia].
  - rewrite IsPrint_ascii by lia. apply andb_true_iff. split; apply Z.leb_le; lia.
Qed.

Lemma step_printable s out w : step_view s out w -> printable_text out.
Proof.
  destruct 1 as [s0 s' -> _|s0 s' -> Hb|r w Hd Hne Hp _ _|s0 s' r w -> _ _ _ _ _].
  - apply ascii_printable; [exact (escape_rune_ascii s0 1) | apply escape_x_safe].
  - destruct Hb as [E|E]; rewrite <- (byte_of_bval s0), E; apply ascii_printable; reflexivity.
  - pose proof (decoded_width _ _ _ Hd) as [Hw Hl].
    apply (ptext_rune _ r w); [| | exact Hne | exact Hp |].
    + intros E. apply (f_equal (@length _)) in E. rewrite length_firstn in E. cbn in E. lia.
    + exact (decoded_DecodeRuneInString _ _ _ (decoded_firstn _ _ _ Hd) Hne).
    + rewrite skipn_all2 by (rewrite length_firstn; lia). constructor.
  - apply ascii_printable; [apply escape_rune_ascii | apply escape_rune_safe].
Qed.


End Printable.
