(* ===== verification/HostPort.v ===== *)
(** * HostPort: [net.SplitHostPort] and [net.JoinHostPort]

    [buildCommonLogLine] logs the host part of [req.RemoteAddr] as
    [net.SplitHostPort] returns it, and the whole address when it returns
    an error (src/logger.go:142-146).  [SplitHostPort] is library code,
    modelled from Go's net/ipsock.go with all its error cases ([AddrErr]);
    [JoinHostPort] is how the server side builds [RemoteAddr].

    The theorems: splitting what [JoinHostPort] joined gives the host and
    port back, and the error paths: no colon gives [MissingPort], an
    unbracketed host with a colon gives [TooManyColons], an opening
    bracket without a closing one gives [MissingBracket]. *)

From Stdlib Require Import ZArith List Lia Bool.
From S2P Require Import Prelude.
Import ListNotations.
Open Scope Z_scope.
Open Scope go_scope.

(** A field with none of the bytes [cs]. *)
Definition avoids (cs : list byte) (l : list byte) : bool :=
  forallb (fun b => negb (existsb (byteb b) cs)) l.

(** ** [net.SplitHostPort] *)

Inductive AddrErr := MissingPort | TooManyColons | MissingBracket
                   | UnexpectedOpen | UnexpectedClose.

(** [bytealg.IndexByteString] and [last]. *)
Fixpoint byteIndex (s : list byte) (c : byte) : option nat :=
  match s with
  | [] => None
  | b :: s' => if byteb b c then Some 0%nat else option_map S (byteIndex s' c)
  end.

Definition lastIndex (s : list byte) (c : byte) : option nat :=
  option_map (fun i => length s - 1 - i)%nat (byteIndex (rev s) c).

Definition colon : byte := byte_of 58.
Definition lbrack : byte := byte_of 91.
Definition rbrack : byte := byte_of 93.

Definition SplitHostPort (hostport : list byte) : AddrErr + (list byte * list byte) :=
  match lastIndex hostport colon with
  | None => inl MissingPort
  | Some i =>
    let hk :=
      if byteb (hd Byte.x00 hostport) lbrack then
        match byteIndex hostport rbrack with
        | None => inl MissingBracket
        | Some end_ =>
            if (end_ + 1 =? length hostport)%nat then inl MissingPort
            else if (end_ + 1 =? i)%nat then
              inr (firstn (end_ - 1) (skipn 1 hostport), 1%nat, (end_ + 1)%nat)
            else if byteb (nth (end_ + 1) hostport Byte.x00) colon then inl TooManyColons
            else inl MissingPort
        end
      else
        let host := firstn i hostport in
        match byteIndex host colon with
        | Some _ => inl TooManyColons
        | None => inr (host, 0%nat, 0%nat)
        end in
    match hk with
    | inl e => inl e
    | inr (host, j, k) =>
        match byteIndex (skipn j hostport) lbrack with
        | Some _ => inl UnexpectedOpen
        | None =>
          match byteIndex (skipn k hostport) rbrack with
          | Some _ => inl UnexpectedClose
          | None => inr (host, skipn (i + 1) hostport)
          end
        end
    end
  end.

(** [net.JoinHostPort]: brackets around a host with a colon (IPv6). *)
Definition JoinHostPort (host port : list byte) : list byte :=
  match byteIndex host colon with
  | Some _ => [lbrack] ++ host ++ [rbrack; colon] ++ port
  | None => host ++ [colon] ++ port
  end.

Lemma avoids_Forall c cs l :
  avoids cs l = true -> In c cs -> Forall (fun b => byteb b c = false) l.
Proof.
  intros Ha Hc. apply Forall_forall. intros b Hb.
  pose proof (proj1 (forallb_forall _ _) Ha b Hb) as Hn. cbv beta in Hn.
  apply negb_true_iff in Hn. destruct (byteb b c) eqn:E; [|reflexivity].
  exfalso. assert (existsb (byteb b) cs = true) by (apply existsb_exists; eauto). congruence.
Qed.

Lemma byteIndex_none c l : Forall (fun b => byteb b c = false) l -> byteIndex l c = None.
Proof. induction 1 as [|b l Hb _ IH]; cbn; [reflexivity|]. now rewrite Hb, IH. Qed.

Lemma byteIndex_app c a r :
  Forall (fun b => byteb b c = false) a -> byteIndex (a ++ c :: r) c = Some (length a).
Proof.
  induction 1 as [|b a Hb _ IH]; cbn [app byteIndex length].
  - now rewrite byteb_refl.
  - rewrite Hb, IH. reflexivity.
Qed.

Lemma byteIndex_Some_In c l i : byteIndex l c = Some i -> In c l.
Proof.
  revert i. induction l as [|b l IH]; intros i Hi; [discriminate|]. cbn in Hi.
  destruct (byteb b c) eqn:E.
  - apply byteb_eq in E. subst. now left.
  - destruct (byteIndex l c) eqn:E2; [|discriminate]. right. eauto.
Qed.

Lemma lastIndex_app c a r :
  Forall (fun b => byteb b c = false) r -> lastIndex (a ++ c :: r) c = Some (length a).
Proof.
  intros Hr. unfold lastIndex. rewrite rev_app_distr. cbn [rev].
  rewrite <- app_assoc. cbn [app]. rewrite byteIndex_app by (apply Forall_rev; exact Hr).
  cbn [option_map]. f_equal. rewrite length_app, length_rev. cbn [length]. lia.
Qed.

Lemma Forall_byteb_In c l : Forall (fun b => byteb b c = false) l -> ~ In c l.
Proof.
  intros Hl Hin. pose proof (proj1 (Forall_forall _ _) Hl c Hin) as Hc.
  cbv beta in Hc. now rewrite byteb_refl in Hc.
Qed.

Ltac avoid_tac := eapply avoids_Forall; [eassumption|cbn; tauto].

(** Splitting what [JoinHostPort] joined gives the host and port back,
    for a host with no bracket and a port with no colon or bracket. *)
Lemma SplitHostPort_JoinHostPort h p :
  avoids [lbrack; rbrack] h = true -> avoids [colon; lbrack; rbrack] p = true ->
  SplitHostPort (JoinHostPort h p) = inr (h, p).
Proof.
  intros Hh Hp.
  assert (Hhl : Forall (fun b => byteb b lbrack = false) h) by avoid_tac.
  assert (Hhr : Forall (fun b => byteb b rbrack = false) h) by avoid_tac.
  assert (Hpc : Forall (fun b => byteb b colon = false) p) by avoid_tac.
  assert (Hpl : Forall (fun b => byteb b lbrack = false) p) by avoid_tac.
  assert (Hpr : Forall (fun b => byteb b rbrack = false) p) by avoid_tac.
  assert (Hlr : byteb lbrack rbrack = false) by reflexivity.
  assert (Hcl : byteb colon lbrack = false) by reflexivity.
  assert (Hcr : byteb colon rbrack = false) by reflexivity.
  assert (Hrc : byteb rbrack colon = false) by reflexivity.
  assert (Hrl : byteb rbrack lbrack = false) by reflexivity.
  unfold JoinHostPort. destruct (byteIndex h colon) as [i|] eqn:Ec.
  - cbn [app]. unfold SplitHostPort.
    replace (lbrack :: h ++ rbrack :: colon :: p)
      with ((lbrack :: h ++ [rbrack]) ++ colon :: p) by (cbn; now rewrite <- app_assoc).
    rewrite lastIndex_app by exact Hpc.
    replace ((lbrack :: h ++ [rbrack]) ++ colon :: p)
      with ((lbrack :: h) ++ rbrack :: colon :: p) by (cbn; now rewrite <- app_assoc).
    rewrite (byteIndex_app rbrack (lbrack :: h)) by (constructor; assumption).
    cbn [hd app length]. rewrite byteb_refl, !length_app. cbn [length].
    repeat match goal with |- context [if (?a =? ?b)%nat then _ else _] =>
      destruct (Nat.eqb_spec a b); try lia end.
    cbn [skipn]. replace (S (length h) - 1)%nat with (length h) by lia.
    rewrite firstn_app, Nat.sub_diag, firstn_all. cbn [firstn]. rewrite app_nil_r.
    rewrite byteIndex_none.
    2:{ apply Forall_app. split; [exact Hhl|]. repeat constructor; assumption. }
    replace (S (length h) + 1)%nat with (S (length h + 1)) by lia.
    replace (S (length h + 1) + 1)%nat with (S (length h + 2)) by lia.
    cbn [skipn]. rewrite !skipn_app, !skipn_all2 by lia. cbn [app].
    replace (length h + 1 - length h)%nat with 1%nat by lia.
    replace (length h + 2 - length h)%nat with 2%nat by lia.
    cbn [skipn byteIndex]. rewrite Hcr, byteIndex_none by exact Hpr. cbn [option_map].
    rewrite skipn_all2 by lia. reflexivity.
  - change ([colon] ++ p) with (colon :: p). unfold SplitHostPort.
    rewrite lastIndex_app by exact Hpc.
    assert (Hhd : byteb (hd Byte.x00 (h ++ colon :: p)) lbrack = false).
    { destruct h as [|b h']; [reflexivity|]. cbn [hd app]. now inversion Hhl. }
    rewrite Hhd. rewrite firstn_app, Nat.sub_diag, firstn_all. cbn [firstn].
    rewrite app_nil_r, Ec. cbn [skipn].
    rewrite byteIndex_none by (apply Forall_app; split; [exact Hhl|constructor; assumption]).
    rewrite byteIndex_none by (apply Forall_app; split; [exact Hhr|constructor; assumption]).
    rewrite skipn_app, skipn_all2 by lia. cbn [app].
    replace (length h + 1 - length h)%nat with 1%nat by lia. reflexivity.
Qed.


(** ** The error paths *)

Lemma not_In_Forall_byteb c l : ~ In c l -> Forall (fun b => byteb b c = false) l.
Proof.
  intros Hn. apply Forall_forall. intros b Hb.
  destruct (byteb b c) eqn:E; [|reflexivity]. apply byteb_eq in E. subst. contradiction.
Qed.

Lemma byteIndex_In c l : In c l -> exists i, byteIndex l c = Some i.
Proof.
  induction l as [|b l IH]; intros Hin; [destruct Hin|]. cbn [byteIndex].
  destruct (byteb b c) eqn:E; [eauto|].
  destruct Hin as [->|Hin]; [now rewrite byteb_refl in E|].
  destruct (IH Hin) as [i ->]. now exists (S i).
Qed.

Lemma byteIndex_None_not_In c l : byteIndex l c = None -> ~ In c l.
Proof. intros E Hin. destruct (byteIndex_In c l Hin) as [i Hi]. congruence. Qed.

Lemma lastIndex_none c l : ~ In c l -> lastIndex l c = None.
Proof.
  intros Hn. unfold lastIndex. rewrite byteIndex_none; [reflexivity|].
  apply not_In_Forall_byteb. now rewrite <- in_rev.
Qed.

(** An address with no colon (a Unix socket, a listener that sets no
    port) is the [MissingPort] error. *)
Lemma SplitHostPort_missing_port hp : ~ In colon hp -> SplitHostPort hp = inl MissingPort.
Proof. intros Hn. unfold SplitHostPort. now rewrite lastIndex_none. Qed.

(** A host that does not start with a bracket but holds a colon (an
    IPv6 address without brackets) is the [TooManyColons] error, whatever
    the port. *)
Lemma SplitHostPort_too_many_colons h p :
  byteb (hd Byte.x00 (h ++ colon :: p)) lbrack = false -> In colon h -> ~ In colon p ->
  SplitHostPort (h ++ colon :: p) = inl TooManyColons.
Proof.
  intros Hb Hh Hp. unfold SplitHostPort.
  rewrite lastIndex_app by (apply not_In_Forall_byteb; exact Hp).
  rewrite Hb, firstn_app, Nat.sub_diag, firstn_all. cbn [firstn]. rewrite app_nil_r.
  destruct (byteIndex_In colon h Hh) as [i ->]. reflexivity.
Qed.

(** An address that opens a bracket and never closes it is the
    [MissingBracket] error. *)
Lemma SplitHostPort_missing_bracket rest :
  In colon rest -> ~ In rbrack rest ->
  SplitHostPort (lbrack :: rest) = inl MissingBracket.
Proof.
  intros Hc Hr. unfold SplitHostPort, lastIndex.
  destruct (byteIndex_In colon (rev (lbrack :: rest))) as [i ->].
  { apply in_rev. rewrite rev_involutive. now right. }
  cbn [option_map hd]. rewrite byteb_refl, byteIndex_none; [reflexivity|].
  constructor; [reflexivity|]. apply not_In_Forall_byteb, Hr.
Qed.

Ltac absent := apply byteIndex_None_not_In; reflexivity.
Ltac present i := apply (byteIndex_Some_In _ _ i); reflexivity.
