(* ===== verification/LogLine.v ===== *)
(** * LogLine: [buildCommonLogLine], [writeCommonLog], [writeCombinedLog]
    (src/logger.go:130-200)

    The request is a record with the fields of Go's [http.Request] that
    the formatter reads; the parsed URL is a record with the fields
    [url.URL.RequestURI] reads ([EscapedPath] is taken as given: its
    escaping is net/url's business).  The timestamp is the broken-down
    local time that [time.Time.Format] reads (year, month, day, clock,
    zone offset in seconds); the layout ["02/Jan/2006:15:04:05 -0700"] is
    written out with [appendInt] as in Go's time/format.go.  The sink is
    the list of buffers passed to [Write], in order; the write's result is
    dropped, as in the Go code.

    [net.SplitHostPort], [url.RequestURI], [Header.Get] and the time
    layout are library code, modelled from their Go sources. *)

From Stdlib Require Import ZArith List Lia Bool.
From S2P Require Import Prelude Utf8 Strconv Quote Duration HostPort.
Import ListNotations.
Open Scope Z_scope.
Open Scope go_scope.

(** ** Requests *)

Record Userinfo := { ui_username : list byte; ui_password : option (list byte) }.

(** [url.User.Username()]: [""] for a nil [*Userinfo]. *)
Definition Username (u : option Userinfo) : list byte :=
  match u with None => [] | Some u => ui_username u end.

Record URL := {
  Scheme : list byte;
  Opaque : list byte;
  User : option Userinfo;
  EscapedPath : list byte;
  RawQuery : list byte;
  ForceQuery : bool }.

Definition has_prefix (p s : list byte) : bool := bytes_eqb (firstn (length p) s) p.

(** [func (u *URL) RequestURI() string] *)
Definition RequestURI (u : URL) : list byte :=
  let result :=
    match Opaque u with
    | [] => match EscapedPath u with [] => «"/"» | p => p end
    | o => if has_prefix «"//"» o then Scheme u ++ «":"» ++ o else o
    end in
  if ForceQuery u || negb (bytes_eqb (RawQuery u) []) then result ++ «"?"» ++ RawQuery u
  else result.

(** [http.Header], with canonical keys. *)
Definition Header := list (list byte * list (list byte)).

(** [Header.Get]: the first value of the key, [""] when there is none. *)
Definition Header_Get (h : Header) (key : list byte) : list byte :=
  match find (fun kv => bytes_eqb (fst kv) key) h with
  | Some (_, v :: _) => v
  | _ => []
  end.

Record Request := {
  Method : list byte;
  URL_ : URL;
  Proto : list byte;
  ProtoMajor : Z;
  Header_ : Header;
  Host : list byte;
  RemoteAddr : list byte;
  RequestURI_ : list byte }.

Definition Referer (r : Request) : list byte := Header_Get (Header_ r) «"Referer"».
Definition UserAgent (r : Request) : list byte := Header_Get (Header_ r) «"User-Agent"».

(** ** The timestamp: [ts.Format("02/Jan/2006:15:04:05 -0700")] *)

(** The broken-down local time [Format] works from. *)
Record Time := {
  t_year : Z; t_month : Z; t_day : Z;
  t_hour : Z; t_min : Z; t_sec : Z;
  t_offset : Z (* seconds east of UTC *) }.

(** [appendInt(b, x, width)] of time/format.go: the sign, zero padding to
    [width], the decimal digits. *)
Definition appendInt (x : Z) (width : nat) : list byte :=
  let u := Z.abs x in
  let ds := FormatUint u in
  (if x <? 0 then «"-"» else []) ++ repeat (byte_of 48) (width - length ds) ++ ds.

Definition shortMonthNames : list (list byte) :=
  [«"Jan"»; «"Feb"»; «"Mar"»; «"Apr"»; «"May"»; «"Jun"»;
   «"Jul"»; «"Aug"»; «"Sep"»; «"Oct"»; «"Nov"»; «"Dec"»].

(** [stdNumTZ] ("-0700"): the offset in minutes, truncated towards zero,
    then its sign, hours and minutes. *)
Definition numTZ (offset : Z) : list byte :=
  let zone := Z.quot offset 60 in
  let '(sgn, zone) := if zone <? 0 then («"-"», - zone) else («"+"», zone) in
  sgn ++ appendInt (zone / 60) 2 ++ appendInt (zone mod 60) 2.

Definition FormatCLF (t : Time) : list byte :=
  appendInt (t_day t) 2 ++ «"/"» ++
  nth (Z.to_nat (t_month t - 1)) shortMonthNames [] ++ «"/"» ++
  appendInt (t_year t) 4 ++ «":"» ++
  appendInt (t_hour t) 2 ++ «":"» ++ appendInt (t_min t) 2 ++ «":"» ++
  appendInt (t_sec t) 2 ++ «" "» ++ numTZ (t_offset t).

(** ** [buildCommonLogLine] *)

Section Build.
Context `{UnicodeTables}.

(** [username := "-"], replaced by a non-empty [url.User.Username()]. *)
Definition log_username (req : Request) : list byte :=
  match User (URL_ req) with
  | Some u => if bytes_eqb (Username (Some u)) [] then «"-"» else Username (Some u)
  | None => «"-"»
  end.

(** [host, _, err := net.SplitHostPort(req.RemoteAddr)]; the raw address
    on error. *)
Definition log_host (req : Request) : list byte :=
  match SplitHostPort (RemoteAddr req) with
  | inr (host, _) => host
  | inl _ => RemoteAddr req
  end.

(** [uri := req.RequestURI], [req.Host] for CONNECT over HTTP/2, and the
    URL's [RequestURI()] when still empty. *)
Definition log_uri (req : Request) : list byte :=
  let uri := RequestURI_ req in
  let uri := if (ProtoMajor req =? 2) && bytes_eqb (Method req) «"CONNECT"»
             then Host req else uri in
  if bytes_eqb uri [] then RequestURI (URL_ req) else uri.

Definition buildCommonLogLine (req : Request) (ts : Time) (status size delay : Z)
  : list byte :=
  log_host req ++ «" - "» ++ log_username req ++ «" ["» ++ FormatCLF ts ++
  «"] "» ++ [dq] ++ Method req ++ «" "» ++ appendQuoted [] (log_uri req) ++ «" "» ++
  Proto req ++ [dq] ++ «" "» ++ Itoa status ++ «" "» ++ Itoa size ++ «" "» ++
  prettyDuration delay.

(** ** The sink and the two writers *)

(** An [io.Writer]: the buffers of its [Write] calls, oldest first. *)
Definition Sink := list (list byte).

(** [w.Write(buf)], its result ignored. *)
Definition Write (w : Sink) (buf : list byte) : Sink := w ++ [buf].

Definition newline : byte := byte_of 10.

Definition writeCommonLog (w : Sink) (req : Request) (ts : Time) (status size delay : Z)
  : Sink :=
  let buf := buildCommonLogLine req ts status size delay in
  let buf := buf ++ [newline] in
  Write w buf.

Definition writeCombinedLog (w : Sink) (req : Request) (ts : Time) (status size delay : Z)
  : Sink :=
  let buf := buildCommonLogLine req ts status size delay in
  let buf := buf ++ «" "» ++ [dq] in
  let buf := appendQuoted buf (Referer req) in
  let buf := buf ++ [dq] ++ «" "» ++ [dq] in
  let buf := appendQuoted buf (UserAgent req) in
  let buf := buf ++ [dq; newline] in
  Write w buf.

End Build.

(** ** Reading a log line back *)

Definition sp : byte := byte_of 32.
Definition is_space (b : byte) : bool := byteb b sp.
Definition is_rbrack (b : byte) : bool := byteb b rbrack.

Definition expect (lit l : list byte) : option (list byte) :=
  if has_prefix lit l then Some (skipn (length lit) l) else None.

(** The fields of a Common Log Format line. *)
Record CommonFields := {
  f_host : list byte; f_user : list byte; f_time : list byte;
  f_method : list byte; f_uri : list byte; f_proto : list byte;
  f_status : Z; f_size : Z; f_delay : list byte }.

(** A reader of the Common format: the host and user end at a space, the
    time at [']'], the method at a space; the request target is read with
    [unquote] up to the closing quote and the protocol is what follows
    its last space; status and size are decimal integers; the latency is
    the longest run of latency characters.  Returns the fields and what
    follows the line. *)
Definition parse_common (l : list byte) : option (CommonFields * list byte) :=
  let (host, l) := span is_space l in
  let* l := expect «" - "» l in
  let (user, l) := span is_space l in
  let* l := expect «" ["» l in
  let (time, l) := span is_rbrack l in
  let* l := expect «"] "» l in
  let* l := expect [dq] l in
  let (meth, l) := span is_space l in
  let* l := expect «" "» l in
  let* (content, l) := unquote l in
  let (rproto, ruri) := span is_space (rev content) in
  match ruri with
  | [] => None
  | _ :: ruri' =>
    let* l := expect «" "» l in
    let (st, l) := span is_space l in
    let* status := ParseInt st in
    let* l := expect «" "» l in
    let (sz, l) := span is_space l in
    let* size := ParseInt sz in
    let* l := expect «" "» l in
    let (d, l) := span (fun b => negb (duration_byte b)) l in
    Some ({| f_host := host; f_user := user; f_time := time; f_method := meth;
             f_uri := rev ruri'; f_proto := rev rproto; f_status := status;
             f_size := size; f_delay := d |}, l)
  end.

(** The Combined format: the Common fields, then the quoted referrer and
    user agent. *)
Definition parse_combined (l : list byte)
  : option (CommonFields * list byte * list byte * list byte) :=
  let* (c, l) := parse_common l in
  let* l := expect «" "» l in
  let* l := expect [dq] l in
  let* (ref, l) := unquote l in
  let* l := expect «" "» l in
  let* l := expect [dq] l in
  let* (ua, l) := unquote l in
  Some (c, ref, ua, l).

(** What [buildCommonLogLine] writes in each field. *)
Definition common_fields `{UnicodeTables} (req : Request) (ts : Time) (status size delay : Z)
  : CommonFields :=
  {| f_host := log_host req; f_user := log_username req; f_time := FormatCLF ts;
     f_method := Method req; f_uri := log_uri req; f_proto := Proto req;
     f_status := status; f_size := size; f_delay := prettyDuration delay |}.

Lemma expect_app lit r : expect lit (lit ++ r) = Some r.
Proof.
  unfold expect, has_prefix. rewrite firstn_app, Nat.sub_diag, firstn_all, app_nil_r.
  assert (E : bytes_eqb lit lit = true) by now apply bytes_eqb_eq. rewrite E.
  now rewrite skipn_app, skipn_all, Nat.sub_diag.
Qed.

Lemma expect_one c r : expect [c] (c :: r) = Some r.
Proof. exact (expect_app [c] r). Qed.

(** *** Which bytes each generated field holds *)

Definition minus : byte := byte_of 45.
Definition int_byte (b : byte) : bool := is_digit b || byteb b minus.

Lemma forallb_weaken (p q : byte -> bool) l :
  (forall b, p b = true -> q b = true) -> forallb p l = true -> forallb q l = true.
Proof.
  intros Hpq Hp. apply forallb_forall. intros b Hb.
  apply Hpq. exact (proj1 (forallb_forall _ _) Hp b Hb).
Qed.

Lemma forallb_Forall_false (p : byte -> bool) l :
  forallb (fun b => negb (p b)) l = true -> Forall (fun b => p b = false) l.
Proof.
  intros H. apply Forall_forall. intros b Hb.
  apply negb_true_iff. exact (proj1 (forallb_forall _ _) H b Hb).
Qed.

Lemma FormatUint_int u : 0 <= u -> forallb int_byte (FormatUint u) = true.
Proof.
  intros Hu. destruct (FormatUint_digits u Hu) as [_ Hd].
  eapply forallb_weaken; [|exact Hd]. intros b Hb. unfold int_byte. now rewrite Hb.
Qed.

Lemma Itoa_int i : forallb int_byte (Itoa i) = true.
Proof.
  unfold Itoa. destruct (Z.ltb_spec i 0); cbn [forallb];
    rewrite FormatUint_int by lia; reflexivity.
Qed.

Lemma appendInt_int x w : forallb int_byte (appendInt x w) = true.
Proof.
  unfold appendInt. rewrite !forallb_app, FormatUint_int by lia.
  assert (Hr : forall n, forallb int_byte (repeat (byte_of 48) n) = true)
    by (induction n; [reflexivity|cbn [repeat forallb]; now rewrite IHn]).
  rewrite Hr. destruct (x <? 0); reflexivity.
Qed.

Lemma int_byte_not b : int_byte b = true -> is_space b = false /\ is_rbrack b = false.
Proof.
  unfold int_byte, is_digit, is_space, is_rbrack, byteb.
  replace (bval sp) with 32 by reflexivity. replace (bval rbrack) with 93 by reflexivity.
  replace (bval minus) with 45 by reflexivity.
  intros Hb. apply orb_true_iff in Hb. destruct Hb as [Hb|Hb]; zbool; split; apply Z.eqb_neq; lia.
Qed.

(** Every byte of the timestamp is in any class that holds the digits,
    the minus sign, the separators and the month names. *)
Lemma FormatCLF_class (q : byte -> bool) ts :
  (forall b, int_byte b = true -> q b = true) ->
  forallb q «"/: +"» = true -> forallb (forallb q) shortMonthNames = true ->
  forallb q (FormatCLF ts) = true.
Proof.
  intros Hint Hlit Hmon.
  assert (Hi : forall x w, forallb q (appendInt x w) = true)
    by (intros; eapply forallb_weaken; [exact Hint|apply appendInt_int]).
  assert (Hminus : q minus = true) by (apply Hint; reflexivity).
  assert (Hl : forall l, l = «"/"» \/ l = «":"» \/ l = «" "» \/ l = «"+"» \/ l = «"-"» ->
                 forallb q l = true).
  { intros l Hl. cbn in Hlit. rewrite !andb_true_iff in Hlit.
    destruct Hl as [->|[->|[->|[->| ->]]]]; cbn; rewrite ?andb_true_r; tauto. }
  assert (Hm : forall k, forallb q (nth k shortMonthNames []) = true).
  { intros k. destruct (Nat.lt_ge_cases k (length shortMonthNames)) as [Hk|Hk].
    - exact (proj1 (forallb_forall _ _) Hmon _ (nth_In _ _ Hk)).
    - now rewrite nth_overflow. }
  unfold FormatCLF, numTZ. destruct (Z.quot (t_offset ts) 60 <? 0);
  rewrite !forallb_app, !Hi, Hm, !Hl by tauto; reflexivity.
Qed.

(** The timestamp never holds a [']']. *)
Lemma FormatCLF_no_rbrack ts : Forall (fun b => is_rbrack b = false) (FormatCLF ts).
Proof.
  apply forallb_Forall_false, FormatCLF_class; [|reflexivity|reflexivity].
  intros b Hb. now rewrite (proj2 (int_byte_not b Hb)).
Qed.

Lemma Itoa_no_space i : Forall (fun b => is_space b = false) (Itoa i).
Proof.
  apply Forall_forall. intros b Hb.
  apply int_byte_not. exact (proj1 (forallb_forall _ _) (Itoa_int i) b Hb).
Qed.

Lemma prettyDuration_bytes d :
  Forall (fun b => negb (duration_byte b) = false) (prettyDuration d).
Proof.
  apply Forall_forall. intros b Hb. apply negb_false_iff.
  assert (H : forallb duration_byte (prettyDuration d) = true)
    by (unfold prettyDuration; rewrite forallb_app, fmt_f3_bytes; reflexivity).
  exact (proj1 (forallb_forall _ _) H b Hb).
Qed.

Section Parse.
Context `{UnicodeTables}.

Lemma avoids_proto p :
  avoids [sp; dq; bslash] p = true ->
  Forall (fun b => bval b <> 34 /\ bval b <> 92) («" "» ++ p).
Proof.
  intros Hp. constructor; [split; discriminate|].
  pose proof (avoids_Forall dq _ _ Hp ltac:(right; left; reflexivity)) as Hd.
  pose proof (avoids_Forall bslash _ _ Hp ltac:(right; right; left; reflexivity)) as Hb.
  apply Forall_forall. intros b Hin.
  pose proof (proj1 (Forall_forall _ _) Hd b Hin) as H1.
  pose proof (proj1 (Forall_forall _ _) Hb b Hin) as H2.
  unfold byteb in H1, H2. apply Z.eqb_neq in H1, H2. split; assumption.
Qed.


(** The Common line is unambiguous: when the host, the user and the
    method hold no space and the protocol no space, quote or backslash,
    the reader [parse_common] recovers from the line every field
    [buildCommonLogLine] put in it (the request target decoded back from
    its escaped form), and stops right after the line. *)
Theorem parse_buildCommonLogLine req ts status size delay rest :
  avoids [sp] (log_host req) = true ->
  avoids [sp] (log_username req) = true ->
  avoids [sp] (Method req) = true ->
  avoids [sp; dq; bslash] (Proto req) = true ->
  starts_stop (fun b => negb (duration_byte b)) rest ->
  parse_common (buildCommonLogLine req ts status size delay ++ rest)
  = Some (common_fields req ts status size delay, rest).
Proof.
  intros Hh Hu Hm Hp Hr.
  unfold buildCommonLogLine, parse_common. rewrite <- !app_assoc.
  rewrite span_app by first [reflexivity | eapply avoids_Forall; [eassumption| now left]].
  cbv beta iota. rewrite expect_app. cbv beta iota.
  rewrite span_app by first [reflexivity | eapply avoids_Forall; [eassumption| now left]].
  cbv beta iota. rewrite expect_app. cbv beta iota.
  rewrite span_app by first [reflexivity | apply FormatCLF_no_rbrack].
  cbv beta iota. rewrite expect_app. cbv beta iota. rewrite expect_app. cbv beta iota.
  rewrite span_app by first [reflexivity | eapply avoids_Forall; [eassumption| now left]].
  cbv beta iota. rewrite expect_app. cbv beta iota.
  change (appendQuoted [] (log_uri req)) with (quote (log_uri req)).
  rewrite (app_assoc «" "» (Proto req)). change ([dq] ++ ?x) with (dq :: x).
  rewrite unquote_quote_raw by (apply avoids_proto; exact Hp). cbv beta iota.
  rewrite rev_app_distr, rev_app_distr, <- app_assoc.
  rewrite span_app by first [reflexivity | apply Forall_rev; eapply avoids_Forall; [eassumption| now left]].
  change (rev «" "») with [sp]. cbv beta iota.
  change ([sp] ++ ?x) with (sp :: x). cbv beta iota.
  rewrite expect_app. cbv beta iota.
  rewrite span_app by first [reflexivity | apply Itoa_no_space].
  cbv beta iota. rewrite ParseInt_Itoa, expect_app. cbv beta iota.
  rewrite span_app by first [reflexivity | apply Itoa_no_space].
  cbv beta iota. rewrite ParseInt_Itoa, expect_app. cbv beta iota.
  rewrite span_app by first [exact Hr | apply prettyDuration_bytes].
  cbv beta iota. rewrite !rev_involutive. reflexivity.
Qed.

End Parse.

Section Writers.
Context `{UnicodeTables}.

Lemma writeCommonLog_buf w req ts status size delay :
  writeCommonLog w req ts status size delay
  = w ++ [buildCommonLogLine req ts status size delay ++ [newline]].
Proof. reflexivity. Qed.

Lemma writeCombinedLog_buf w req ts status size delay :
  writeCombinedLog w req ts status size delay
  = w ++ [buildCommonLogLine req ts status size delay ++
          «" "» ++ [dq] ++ quote (Referer req) ++ [dq] ++ «" "» ++ [dq] ++
          quote (UserAgent req) ++ [dq; newline]].
Proof.
  unfold writeCombinedLog, Write. rewrite !appendQuoted_app, <- !app_assoc. reflexivity.
Qed.

(** C4. When the host, the user name and the method hold no space and the
    protocol holds no space, double quote or backslash, the buffer
    [writeCommonLog] hands to the sink is one Common line followed by one
    newline, and reading it gives back every field.  (The user name is
    not escaped, so without these conditions a field can break the line,
    see [writeCommonLog_username_injection].) *)
Theorem parse_writeCommonLog w req ts status size delay :
  avoids [sp] (log_host req) = true ->
  avoids [sp] (log_username req) = true ->
  avoids [sp] (Method req) = true ->
  avoids [sp; dq; bslash] (Proto req) = true ->
  exists buf, writeCommonLog w req ts status size delay = w ++ [buf] /\
  parse_common buf = Some (common_fields req ts status size delay, [newline]).
Proof.
  intros. eexists. split; [apply writeCommonLog_buf|].
  apply parse_buildCommonLogLine; auto. reflexivity.
Qed.

(** Reading one quoted field back. *)
Ltac read_quoted :=
  rewrite expect_app; cbv beta iota; cbn [app]; rewrite expect_one; cbv beta iota;
  change (quote ?x ++ dq :: ?r) with (quote x ++ [] ++ dq :: r);
  rewrite (unquote_quote_raw _ [] _ (Forall_nil _)), app_nil_r; cbv beta iota.

(** The Combined line, as [writeCombinedLog] lays it out, reads back as
    its fields. *)
Lemma parse_combined_line req ts status size delay :
  avoids [sp] (log_host req) = true ->
  avoids [sp] (log_username req) = true ->
  avoids [sp] (Method req) = true ->
  avoids [sp; dq; bslash] (Proto req) = true ->
  parse_combined (buildCommonLogLine req ts status size delay ++
                  «" "» ++ [dq] ++ quote (Referer req) ++ [dq] ++ «" "» ++ [dq] ++
                  quote (UserAgent req) ++ [dq; newline])
  = Some (common_fields req ts status size delay, Referer req, UserAgent req, [newline]).
Proof.
  intros. unfold parse_combined. rewrite parse_buildCommonLogLine by (auto; reflexivity).
  cbv beta iota. read_quoted. read_quoted. reflexivity.
Qed.

(** C3. The buffer [writeCombinedLog] hands to the sink reads back as the
    Common fields, the referrer and the user agent (each decoded from its
    escaped form, missing headers as empty fields), then the newline. *)
Theorem parse_writeCombinedLog w req ts status size delay :
  avoids [sp] (log_host req) = true ->
  avoids [sp] (log_username req) = true ->
  avoids [sp] (Method req) = true ->
  avoids [sp; dq; bslash] (Proto req) = true ->
  exists buf, writeCombinedLog w req ts status size delay = w ++ [buf] /\
  parse_combined buf =
  Some (common_fields req ts status size delay, Referer req, UserAgent req, [newline]).
Proof.
  intros. eexists. split; [apply writeCombinedLog_buf|]. now apply parse_combined_line.
Qed.

End Writers.

(** ** The host, user and target policies *)

Section Policies.
Context `{UnicodeTables}.

(** C20. The host field: for a peer address joined by [net.JoinHostPort]
    (IPv4 [host:port] or IPv6 [[host]:port]), the logged host is the
    address with its port stripped and, for IPv6, without brackets. *)
Theorem log_host_JoinHostPort req h p :
  RemoteAddr req = JoinHostPort h p ->
  avoids [lbrack; rbrack] h = true -> avoids [colon; lbrack; rbrack] p = true ->
  log_host req = h.
Proof.
  intros Hr Hh Hp. unfold log_host. now rewrite Hr, SplitHostPort_JoinHostPort.
Qed.

(** C19. CONNECT over HTTP/2: the target logged is the authority
    [req.Host], whatever the request URI and the parsed URL hold. *)
Theorem log_uri_connect_h2 req :
  ProtoMajor req = 2 -> Method req = «"CONNECT"» -> Host req <> [] ->
  log_uri req = Host req.
Proof.
  intros Hp Hm Hh. unfold log_uri. rewrite Hp, Hm.
  replace ((2 =? 2) && bytes_eqb «"CONNECT"» «"CONNECT"») with true by reflexivity.
  replace (bytes_eqb (Host req) []) with false; [reflexivity|].
  symmetry. destruct (bytes_eqb (Host req) []) eqn:E; [|reflexivity].
  apply bytes_eqb_eq in E. contradiction.
Qed.

(** C24. CONNECT over HTTP/2 with an empty [Host]: the code falls back to the
    URL's [RequestURI()], not to [req.RequestURI]. *)
Theorem log_uri_connect_h2_no_host req :
  ProtoMajor req = 2 -> Method req = «"CONNECT"» -> Host req = [] ->
  log_uri req = RequestURI (URL_ req).
Proof.
  intros Hp Hm Hh. unfold log_uri. rewrite Hp, Hm, Hh.
  replace ((2 =? 2) && bytes_eqb «"CONNECT"» «"CONNECT"») with true by reflexivity.
  reflexivity.
Qed.

(** [Header.Get] of a key the header does not hold is [""]. *)
Lemma Header_Get_absent h key : ~ In key (map fst h) -> Header_Get h key = [].
Proof.
  unfold Header_Get. induction h as [|[k v] h IH]; intros Hn; [reflexivity|].
  cbn [find fst]. destruct (bytes_eqb k key) eqn:E.
  - apply bytes_eqb_eq in E. subst. exfalso. apply Hn. now left.
  - apply IH. intros Hin. apply Hn. now right.
Qed.

(** C25. A request without [Referer] and [User-Agent] headers (whatever
    other headers it has) gives two empty quoted fields at the end of the
    Combined line, not missing fields. *)
Theorem writeCombinedLog_no_headers w req ts status size delay :
  ~ In «"Referer"» (map fst (Header_ req)) -> ~ In «"User-Agent"» (map fst (Header_ req)) ->
  writeCombinedLog w req ts status size delay
  = w ++ [buildCommonLogLine req ts status size delay ++
          «" "» ++ [dq; dq] ++ «" "» ++ [dq; dq; newline]].
Proof.
  intros Hr Hu. rewrite writeCombinedLog_buf.
  unfold Referer, UserAgent. rewrite (Header_Get_absent _ _ Hr), (Header_Get_absent _ _ Hu).
  reflexivity.
Qed.

Lemma avoids_one c l : avoids [c] l = forallb (fun b => negb (byteb b c)) l.
Proof.
  unfold avoids. induction l as [|b l IH]; [reflexivity|].
  cbn [forallb]. rewrite IH. f_equal. cbn. now rewrite orb_false_r.
Qed.

Lemma class_avoids (p : byte -> bool) c l :
  p c = false -> forallb p l = true -> forallb (fun b => negb (byteb b c)) l = true.
Proof.
  intros Hc Hl. eapply forallb_weaken; [|exact Hl].
  intros b Hb. now rewrite (byteb_false_of p b c Hc Hb).
Qed.

(** C13. One write, one line: when the host, user, method and protocol
    hold no newline, [writeCommonLog] makes a single [Write] whose buffer
    is a line without newline followed by one newline. *)
Theorem writeCommonLog_one_line w req ts status size delay :
  avoids [newline] (log_host req) = true -> avoids [newline] (log_username req) = true ->
  avoids [newline] (Method req) = true -> avoids [newline] (Proto req) = true ->
  exists line, writeCommonLog w req ts status size delay = w ++ [line ++ [newline]] /\
               ~ In newline line.
Proof.
  rewrite !avoids_one. intros Hh Hu Hm Hp.
  exists (buildCommonLogLine req ts status size delay). split; [reflexivity|].
  intros Hin.
  assert (Hall : forallb (fun b => negb (byteb b newline))
                   (buildCommonLogLine req ts status size delay) = true).
  { unfold buildCommonLogLine.
    change (appendQuoted [] (log_uri req)) with (quote (log_uri req)).
    rewrite !forallb_app, Hh, Hu, Hm, Hp.
    rewrite (class_avoids safe_byte newline (quote (log_uri req)))
      by (reflexivity || apply quote_safe_bytes).
    rewrite (class_avoids int_byte newline (Itoa status)) by (reflexivity || apply Itoa_int).
    rewrite (class_avoids int_byte newline (Itoa size)) by (reflexivity || apply Itoa_int).
    rewrite (class_avoids duration_byte newline (prettyDuration delay))
      by (reflexivity || (unfold prettyDuration; rewrite forallb_app, fmt_f3_bytes; reflexivity)).
    rewrite (FormatCLF_class (fun b => negb (byteb b newline)))
      by (reflexivity || (intros b Hb; now rewrite (byteb_false_of int_byte b newline))).
    reflexivity. }
  pose proof (proj1 (forallb_forall _ _) Hall _ Hin) as Hn.
  cbv beta in Hn. now rewrite byteb_refl in Hn.
Qed.

(** C14. The user name is written as it is, unescaped: a name from the request
    URL's userinfo that holds a newline (["http://x%0Aevil@host/"] in the
    request line) puts a newline inside the line [writeCommonLog] writes,
    so one request shows as two log lines. *)
Theorem writeCommonLog_username_injection w req ts status size delay u :
  User (URL_ req) = Some u -> In newline (ui_username u) ->
  exists line, writeCommonLog w req ts status size delay = w ++ [line ++ [newline]] /\
               In newline line.
Proof.
  intros Hu Hn. exists (buildCommonLogLine req ts status size delay). split; [reflexivity|].
  assert (Hl : log_username req = ui_username u).
  { unfold log_username. rewrite Hu. cbn [Username].
    destruct (bytes_eqb (ui_username u) []) eqn:E; [|reflexivity].
    apply bytes_eqb_eq in E. rewrite E in Hn. contradiction. }
  unfold buildCommonLogLine. rewrite Hl.
  apply in_or_app; right. apply in_or_app; right. apply in_or_app; left. exact Hn.
Qed.

Lemma log_host_err req e : SplitHostPort (RemoteAddr req) = inl e -> log_host req = RemoteAddr req.
Proof. intros E. unfold log_host. now rewrite E. Qed.

(** C21. Error path: a peer address with no colon (a Unix socket, a
    listener that sets no port) makes [SplitHostPort] fail with
    [MissingPort], and the whole address is logged as the host. *)
Theorem log_host_no_port req : ~ In colon (RemoteAddr req) -> log_host req = RemoteAddr req.
Proof. intros Hn. apply (log_host_err req MissingPort), SplitHostPort_missing_port, Hn. Qed.

(** C22. Error path: an IPv6 peer address without brackets makes
    [SplitHostPort] fail with [TooManyColons], and the host field is the
    whole address, port included. *)
Theorem log_host_unbracketed_ipv6 req h p :
  RemoteAddr req = h ++ colon :: p ->
  byteb (hd Byte.x00 (h ++ colon :: p)) lbrack = false -> In colon h -> ~ In colon p ->
  log_host req = h ++ colon :: p.
Proof.
  intros Hr Hb Hh Hp. rewrite <- Hr.
  apply (log_host_err req TooManyColons). rewrite Hr. now apply SplitHostPort_too_many_colons.
Qed.

(** C23. Error path: an address that opens a bracket and never closes it
    makes [SplitHostPort] fail with [MissingBracket], and the whole
    address is logged. *)
Theorem log_host_missing_bracket req rest :
  RemoteAddr req = lbrack :: rest -> In colon rest -> ~ In rbrack rest ->
  log_host req = lbrack :: rest.
Proof.
  intros Hr Hc Hn. rewrite <- Hr.
  apply (log_host_err req MissingBracket). rewrite Hr. now apply SplitHostPort_missing_bracket.
Qed.

End Policies.

(** ** Concrete runs

    The request of the end-to-end example (README, specification): [curl] on [::1] asking for
    [/], answered with 200 and 13 bytes in 12 ms, logged at
    2017-01-02 20:07:27 +01:00. *)

Section Runs.
#[local] Existing Instance AllAbove.

Definition spec_url : URL :=
  {| Scheme := []; Opaque := []; User := None; EscapedPath := «"/"»;
     RawQuery := []; ForceQuery := false |}.

Definition spec_request : Request :=
  {| Method := «"GET"»; URL_ := spec_url; Proto := «"HTTP/1.1"»; ProtoMajor := 1;
     Header_ := [(«"User-Agent"», [«"curl/7.51.0"»])]; Host := «"localhost:3000"»;
     RemoteAddr := «"[::1]:54321"»; RequestURI_ := «"/"» |}.

Definition spec_time : Time :=
  {| t_year := 2017; t_month := 1; t_day := 2; t_hour := 20; t_min := 7; t_sec := 27;
     t_offset := 3600 |}.

(** A user name with a newline in it, as [url.Parse] decodes it from
    ["http://x%0Aevil@localhost:3000/"]. *)
Definition evil_user : Userinfo :=
  {| ui_username := «"x"» ++ [newline] ++ «"evil"»; ui_password := None |}.

Definition evil_request : Request :=
  {| Method := «"GET"»; URL_ := {| Scheme := «"http"»; Opaque := []; User := Some evil_user;
                                   EscapedPath := «"/"»; RawQuery := []; ForceQuery := false |};
     Proto := «"HTTP/1.1"»; ProtoMajor := 1; Header_ := [];
     Host := «"localhost:3000"»; RemoteAddr := «"127.0.0.1:40000"»;
     RequestURI_ := «"http://x%0Aevil@localhost:3000/"» |}.

Definition connect_request : Request :=
  {| Method := «"CONNECT"»; URL_ := spec_url; Proto := «"HTTP/2.0"»; ProtoMajor := 2;
     Header_ := []; Host := «"example.com:443"»; RemoteAddr := «"10.0.0.1:5000"»;
     RequestURI_ := [] |}.

Ltac run := vm_compute; reflexivity.

Lemma parse_writeCommonLog_witness :
  exists buf, writeCommonLog [] spec_request spec_time 200 13 12000000 = [] ++ [buf] /\
  parse_common buf = Some (common_fields spec_request spec_time 200 13 12000000, [newline]).
Proof. apply parse_writeCommonLog; run. Defined.

Lemma parse_writeCombinedLog_witness :
  exists buf, writeCombinedLog [] spec_request spec_time 200 13 12000000 = [] ++ [buf] /\
  parse_combined buf = Some (common_fields spec_request spec_time 200 13 12000000,
                             Referer spec_request, UserAgent spec_request, [newline]).
Proof. apply parse_writeCombinedLog; run. Defined.

Lemma writeCommonLog_one_line_witness :
  exists line, writeCommonLog [] spec_request spec_time 200 13 12000000
               = [] ++ [line ++ [newline]] /\ ~ In newline line.
Proof. apply writeCommonLog_one_line; run. Defined.

Lemma log_host_JoinHostPort_witness : log_host spec_request = «"::1"».
Proof. apply (log_host_JoinHostPort spec_request «"::1"» «"54321"»); run. Defined.

Lemma log_uri_connect_h2_witness : log_uri connect_request = «"example.com:443"».
Proof. apply log_uri_connect_h2; [reflexivity | reflexivity | discriminate]. Defined.

(** A request with an [Accept] header only. *)
Definition accept_request : Request :=
  {| Method := «"GET"»; URL_ := spec_url; Proto := «"HTTP/1.1"»; ProtoMajor := 1;
     Header_ := [(«"Accept"», [«"*/*"»])]; Host := «"localhost:3000"»;
     RemoteAddr := «"[::1]:54321"»; RequestURI_ := «"/"» |}.

Lemma writeCombinedLog_no_headers_witness :
  ~ In «"Referer"» (map fst (Header_ accept_request)) /\
  ~ In «"User-Agent"» (map fst (Header_ accept_request)) /\
  writeCombinedLog [] accept_request spec_time 200 0 1500
  = [] ++ [buildCommonLogLine accept_request spec_time 200 0 1500 ++
           «" "» ++ [dq; dq] ++ «" "» ++ [dq; dq; newline]].
Proof.
  assert (Hr : ~ In «"Referer"» (map fst (Header_ accept_request)))
    by (cbn; intros [E|[]]; discriminate E).
  assert (Hu : ~ In «"User-Agent"» (map fst (Header_ accept_request)))
    by (cbn; intros [E|[]]; discriminate E).
  split; [exact Hr|]. split; [exact Hu|]. exact (writeCombinedLog_no_headers _ _ _ _ _ _ Hr Hu).
Defined.

Lemma writeCommonLog_username_injection_witness :
  exists line, writeCommonLog [] evil_request spec_time 200 13 12000000
               = [] ++ [line ++ [newline]] /\ In newline line.
Proof.
  apply (writeCommonLog_username_injection _ _ _ _ _ _ evil_user); [reflexivity|].
  apply in_or_app; right; left; reflexivity.
Defined.

(** The end-to-end line of the specification, computed: the Combined
    line of the request above, with the user agent quoted, the missing
    referrer as an empty quoted field and the latency printed as
    [12.000ms] (the README shows [0.012ms] for the same request, which
    [prettyDuration] prints for 12 µs, not 12 ms). *)
Example spec_combined_line :
  writeCombinedLog [] spec_request spec_time 200 13 12000000 =
  [«"::1 - - [02/Jan/2017:20:07:27 +0100] "» ++ [dq] ++ «"GET / HTTP/1.1"» ++ [dq] ++
   «" 200 13 12.000ms "» ++ [dq; dq] ++ «" "» ++ [dq] ++ «"curl/7.51.0"» ++ [dq; newline]].
Proof. run. Qed.

Definition connect_no_host : Request :=
  {| Method := «"CONNECT"»; URL_ := {| Scheme := []; Opaque := []; User := None;
                                       EscapedPath := «"/tunnel"»; RawQuery := [];
                                       ForceQuery := false |};
     Proto := «"HTTP/2.0"»; ProtoMajor := 2; Header_ := []; Host := [];
     RemoteAddr := «"10.0.0.1:5000"»; RequestURI_ := «"example.com:443"» |}.

Lemma log_uri_connect_h2_no_host_witness : log_uri connect_no_host = «"/tunnel"».
Proof. apply log_uri_connect_h2_no_host; reflexivity. Defined.

(** A request served on a Unix socket: Go sets [RemoteAddr] to ["@"]. *)
Definition unix_request : Request :=
  {| Method := «"GET"»; URL_ := spec_url; Proto := «"HTTP/1.1"»; ProtoMajor := 1;
     Header_ := []; Host := «"localhost"»; RemoteAddr := «"@"»; RequestURI_ := «"/"» |}.

Lemma log_host_no_port_witness : log_host unix_request = «"@"».
Proof. apply log_host_no_port. apply byteIndex_None_not_In. reflexivity. Defined.

Definition ipv6_request (addr : list byte) : Request :=
  {| Method := «"GET"»; URL_ := spec_url; Proto := «"HTTP/1.1"»; ProtoMajor := 1;
     Header_ := []; Host := «"localhost"»; RemoteAddr := addr; RequestURI_ := «"/"» |}.

Lemma log_host_unbracketed_ipv6_witness :
  log_host (ipv6_request («"::1"» ++ colon :: «"8080"»)) = «"::1"» ++ colon :: «"8080"».
Proof. apply log_host_unbracketed_ipv6; [reflexivity | reflexivity | present 0%nat | absent]. Defined.

Lemma log_host_missing_bracket_witness :
  log_host (ipv6_request (lbrack :: «"::1:8080"»)) = lbrack :: «"::1:8080"».
Proof. apply log_host_missing_bracket; [reflexivity | present 0%nat | absent]. Defined.

End Runs.
