(* ===== verification/Timestamp.v ===== *)
(** * Timestamp: reading the CLF timestamp back

    [FormatCLF] (src/logger.go:165, [ts.Format("02/Jan/2006:15:04:05
    -0700")]) writes the bracketed time field of every line.  This file
    gives a reader for that field, [parse_clf], and proves the round trip:
    within the widths of the layout (a two-digit day, hour, minute and
    second, a four-digit year, an offset under a hundred hours) the field
    reads back as the time it was written from, with the offset rounded
    towards zero to whole minutes, which is all the layout keeps of it.
    The fixed-width fields rest on one lemma, [read_num_appendInt]: the
    zero-padded decimal of [appendInt] reads back as its value. *)

From Stdlib Require Import ZArith List Lia Bool.
From S2P Require Import Prelude Strconv LogLine.
Import ListNotations.
Open Scope Z_scope.
Open Scope go_scope.

(** ** The reader *)

(** A field of exactly [w] decimal digits, and the rest. *)
Definition read_num (w : nat) (l : list byte) : option (Z * list byte) :=
  let d := firstn w l in
  if (length d =? w)%nat then
    let* v := ParseUint d in Some (v, skipn w l)
  else None.

(** The position of a month name in [shortMonthNames], from 1. *)
Fixpoint month_index (m : list byte) (names : list (list byte)) (i : Z) : option Z :=
  match names with
  | [] => None
  | n :: names' => if bytes_eqb m n then Some i else month_index m names' (i + 1)
  end.

Definition read_month (l : list byte) : option (Z * list byte) :=
  let* i := month_index (firstn 3 l) shortMonthNames 1 in Some (i, skipn 3 l).

Definition plus : byte := byte_of 43.

(** The zone, [-0700]: a sign, two digits of hours and two of minutes;
    the offset in seconds. *)
Definition parse_tz (l : list byte) : option Z :=
  match l with
  | s :: l =>
      let* (hh, l) := read_num 2 l in
      let* (mm, l) := read_num 2 l in
      match l with
      | [] => if byteb s minus then Some (- ((hh * 60 + mm) * 60))
              else if byteb s plus then Some ((hh * 60 + mm) * 60)
              else None
      | _ => None
      end
  | [] => None
  end.

Definition parse_clf (l : list byte) : option Time :=
  let* (day, l) := read_num 2 l in
  let* l := expect «"/"» l in
  let* (month, l) := read_month l in
  let* l := expect «"/"» l in
  let* (year, l) := read_num 4 l in
  let* l := expect «":"» l in
  let* (hour, l) := read_num 2 l in
  let* l := expect «":"» l in
  let* (min, l) := read_num 2 l in
  let* l := expect «":"» l in
  let* (sec, l) := read_num 2 l in
  let* l := expect «" "» l in
  let* off := parse_tz l in
  Some {| t_year := year; t_month := month; t_day := day; t_hour := hour;
          t_min := min; t_sec := sec; t_offset := off |}.

(** ** Fixed-width decimals *)

(** A number below [10^(k+1)] has at most [k+1] digits. *)
Lemma fmt_digits_length fuel u k :
  0 <= u < 10 ^ Z.of_nat (S k) -> (length (fmt_digits fuel u []) <= S k)%nat.
Proof.
  revert u k. induction fuel as [|f IH]; intros u k Hu; cbn [fmt_digits length]; [lia|].
  destruct (Z.ltb_spec u 10); cbn [length]; [lia|].
  rewrite fmt_digits_app, length_app. cbn [length].
  destruct k as [|k]; [cbn in Hu; lia|].
  rewrite Nat2Z.inj_succ, Z.pow_succ_r in Hu by lia.
  specialize (IH (u / 10) k ltac:(zlia)). lia.
Qed.

Lemma digits_value_zeros n l : digits_value (repeat (byte_of 48) n ++ l) = digits_value l.
Proof.
  unfold digits_value. rewrite fold_left_app. f_equal.
  induction n as [|n IH]; [reflexivity|].
  cbn [repeat]. rewrite <- IH at 2. cbn [fold_left]. rewrite bval_byte_of.
  clear IH. induction n; reflexivity.
Qed.

Lemma zeros_digits n : forallb is_digit (repeat (byte_of 48) n) = true.
Proof. induction n as [|n IH]; [reflexivity|]. exact IH. Qed.

(** In range, [appendInt x width] is exactly [width] bytes. *)
Lemma appendInt_length x w :
  0 <= x < 10 ^ Z.of_nat (S w) -> length (appendInt x (S w)) = S w.
Proof.
  intros Hx. unfold appendInt. replace (x <? 0) with false by (symmetry; apply Z.ltb_ge; lia).
  rewrite Z.abs_eq by lia. cbn [app].
  pose proof (fmt_digits_length (digits_fuel x) x w Hx) as Hl. fold (FormatUint x) in Hl.
  rewrite length_app, repeat_length. lia.
Qed.

(** The [width]-digit, zero-padded decimal of [appendInt] reads back. *)
Lemma read_num_appendInt x w r :
  0 <= x < 10 ^ Z.of_nat (S w) ->
  read_num (S w) (appendInt x (S w) ++ r) = Some (x, r).
Proof.
  intros Hx. unfold appendInt. replace (x <? 0) with false by (symmetry; apply Z.ltb_ge; lia).
  rewrite Z.abs_eq by lia. cbn [app].
  destruct (FormatUint_digits x ltac:(lia)) as [Hne Hd].
  pose proof (appendInt_length x w Hx) as La. unfold appendInt in La.
  replace (x <? 0) with false in La by (symmetry; apply Z.ltb_ge; lia).
  rewrite Z.abs_eq in La by lia. cbn [app] in La.
  set (a := repeat (byte_of 48) (S w - length (FormatUint x)) ++ FormatUint x) in *.
  unfold read_num. rewrite firstn_app, <- La, Nat.sub_diag, firstn_all, app_nil_r, La, Nat.eqb_refl.
  rewrite skipn_app, <- La, skipn_all, Nat.sub_diag. cbn [app skipn].
  unfold ParseUint. destruct a as [|b a'] eqn:Ea; [discriminate|]. rewrite <- Ea.
  unfold a. rewrite forallb_app, zeros_digits, Hd, digits_value_zeros, FormatUint_value by lia.
  reflexivity.
Qed.

(** ** Month names and the zone *)

Lemma read_month_nth m r :
  1 <= m <= 12 -> read_month (nth (Z.to_nat (m - 1)) shortMonthNames [] ++ r) = Some (m, r).
Proof.
  intros Hm.
  assert (Hc : m = 1 \/ m = 2 \/ m = 3 \/ m = 4 \/ m = 5 \/ m = 6 \/ m = 7 \/ m = 8 \/
               m = 9 \/ m = 10 \/ m = 11 \/ m = 12) by lia.
  repeat (destruct Hc as [Hc|Hc]; [subst; reflexivity|]). subst. reflexivity.
Qed.

(** [|offset| < 100 h]: the zone's hours fit the two digits of the layout. *)
Lemma quot_minutes_bound off : Z.abs off < 360000 -> Z.abs (Z.quot off 60) < 6000.
Proof.
  intros Ho. rewrite <- (Z.quot_abs off 60) by lia.
  rewrite Z.quot_div_nonneg by lia. change (Z.abs 60) with 60. zlia.
Qed.

Lemma parse_tz_numTZ off :
  Z.abs off < 360000 -> parse_tz (numTZ off) = Some (Z.quot off 60 * 60).
Proof.
  intros Ho. pose proof (quot_minutes_bound off Ho) as Hz.
  unfold numTZ. set (zone := Z.quot off 60) in *.
  destruct (Z.ltb_spec zone 0) as [Hs|Hs]; cbv beta iota;
    [change «"-"» with [minus] | change «"+"» with [plus]]; cbn [app parse_tz];
    rewrite <- (app_nil_r (appendInt (_ mod 60) 2)), !read_num_appendInt by (simpl; zlia);
    cbv beta iota; [rewrite byteb_refl | change (byteb plus minus) with false; rewrite byteb_refl];
    f_equal; zlia.
Qed.

(** ** The round trip *)

(** The times the layout holds without overflowing a field. *)
Definition clf_range (t : Time) : Prop :=
  0 <= t_day t < 100 /\ 1 <= t_month t <= 12 /\ 0 <= t_year t < 10000 /\
  0 <= t_hour t < 100 /\ 0 <= t_min t < 100 /\ 0 <= t_sec t < 100 /\
  Z.abs (t_offset t) < 360000.

(** C12. The time field of a log line reads back: for a time whose fields
    fit the widths of the layout, [parse_clf] recovers the day, month,
    year, hour, minute and second [FormatCLF] wrote, and the offset
    rounded towards zero to whole minutes. *)
Theorem parse_clf_FormatCLF t :
  clf_range t ->
  parse_clf (FormatCLF t) =
  Some {| t_year := t_year t; t_month := t_month t; t_day := t_day t;
          t_hour := t_hour t; t_min := t_min t; t_sec := t_sec t;
          t_offset := Z.quot (t_offset t) 60 * 60 |}.
Proof.
  intros (Hd & Hm & Hy & Hh & Hmi & Hs & Ho). unfold FormatCLF, parse_clf.
  rewrite read_num_appendInt by (simpl; lia). cbv beta iota. rewrite expect_app.
  rewrite read_month_nth by exact Hm. cbv beta iota. rewrite expect_app.
  do 3 (rewrite read_num_appendInt by (simpl; lia); cbv beta iota; rewrite expect_app).
  rewrite read_num_appendInt by (simpl; lia); cbv beta iota; rewrite expect_app.
  rewrite parse_tz_numTZ by exact Ho. reflexivity.
Qed.

Lemma numTZ_length off : Z.abs off < 360000 -> length (numTZ off) = 5%nat.
Proof.
  intros Ho. pose proof (quot_minutes_bound off Ho) as Hz.
  unfold numTZ. set (zone := Z.quot off 60) in *.
  destruct (Z.ltb_spec zone 0); cbv beta iota; rewrite !length_app, !appendInt_length by (simpl; zlia);
    reflexivity.
Qed.

Lemma month_name_length m : length (nth m shortMonthNames []) = 3%nat \/ (12 <= m)%nat.
Proof. do 12 (destruct m as [|m]; [left; reflexivity|]). right. lia. Qed.

(** C32. The timestamp field has a fixed width: for a time whose fields
    fit the layout, [FormatCLF] writes exactly 26 bytes, as in
    [02/Jan/2006:15:04:05 -0700]. *)
Theorem FormatCLF_length t : clf_range t -> length (FormatCLF t) = 26%nat.
Proof.
  intros (Hd & Hm & Hy & Hh & Hmi & Hs & Ho). unfold FormatCLF.
  destruct (month_name_length (Z.to_nat (t_month t - 1))) as [Hn|Hn]; [|lia].
  rewrite !length_app, numTZ_length, Hn, !appendInt_length by (simpl; lia). reflexivity.
Qed.

(** ** A concrete run *)

(** Half past one and thirty seconds west of UTC: the seconds of the
    offset are not written, and the zone reads back as [-0130]. *)
Definition west_time : Time :=
  {| t_year := 2017; t_month := 11; t_day := 9; t_hour := 6; t_min := 5; t_sec := 0;
     t_offset := -5430 |}.

Lemma parse_clf_FormatCLF_witness :
  clf_range west_time /\
  parse_clf (FormatCLF west_time) =
  Some {| t_year := 2017; t_month := 11; t_day := 9; t_hour := 6; t_min := 5; t_sec := 0;
          t_offset := -5400 |}.
Proof.
  assert (Hr : clf_range west_time) by (unfold clf_range; cbn; lia).
  split; [exact Hr | exact (parse_clf_FormatCLF west_time Hr)].
Defined.

Lemma FormatCLF_length_witness : clf_range west_time /\ length (FormatCLF west_time) = 26%nat.
Proof.
  assert (Hr : clf_range west_time) by (unfold clf_range; cbn; lia).
  split; [exact Hr | exact (FormatCLF_length west_time Hr)].
Defined.
