(* ===== verification/Fields.v ===== *)
(** * Fields: the top-level fields of a log line

    A log line is read as fields separated by single spaces, where a
    bracketed timestamp and a double-quoted field count as one field each
    (spaces inside them do not separate), and a backslash inside quotes
    escapes the byte after it.  [scan] is that reader as a four-state
    machine ([lex_step]); it returns the state it ends in and the number
    of separating spaces it met.  The theorem of this file counts the
    fields of the lines [writeCommonLog] and [writeCombinedLog]
    (src/logger.go:130-200) write: the escaping of [appendQuoted] keeps
    the reader inside the quotes, so that a request target, referrer or
    user agent never adds a field, whatever bytes it holds. *)

From Stdlib Require Import ZArith List Lia Bool.
From S2P Require Import Prelude Utf8 Strconv Quote QuoteProps Duration HostPort LogLine.
Import ListNotations.
Open Scope Z_scope.
Open Scope go_scope.

(** ** The reader *)

(** At top level, inside [[...]], inside ["..."], after a backslash
    inside quotes. *)
Inductive lex := Top | Brack | Quot | Esc.

Definition lex_step (st : lex) (b : byte) : lex * nat :=
  match st with
  | Top => if byteb b sp then (Top, 1%nat)
           else if byteb b lbrack then (Brack, 0%nat)
           else if byteb b dq then (Quot, 0%nat)
           else (Top, 0%nat)
  | Brack => if byteb b rbrack then (Top, 0%nat) else (Brack, 0%nat)
  | Quot => if byteb b bslash then (Esc, 0%nat)
            else if byteb b dq then (Top, 0%nat)
            else (Quot, 0%nat)
  | Esc => (Quot, 0%nat)
  end.

(** The state after [l] and the separators met on the way. *)
Fixpoint scan (st : lex) (l : list byte) : lex * nat :=
  match l with
  | [] => (st, 0%nat)
  | b :: l' =>
      let (st1, n) := lex_step st b in
      let (st2, m) := scan st1 l' in (st2, (n + m)%nat)
  end.

(** ** Reading a line piece by piece *)

Definition scan_then (p : lex * nat) (l : list byte) : lex * nat :=
  let (st, n) := p in let (st', m) := scan st l in (st', (n + m)%nat).

Lemma scan_app st a b : scan st (a ++ b) = scan_then (scan st a) b.
Proof.
  revert st. induction a as [|c a IH]; intros st; cbn [app scan scan_then].
  - destruct (scan st b). reflexivity.
  - destruct (lex_step st c) as [st1 n]. rewrite IH. unfold scan_then.
    destruct (scan st1 a) as [st2 m]. destruct (scan st2 b) as [st3 k].
    f_equal. lia.
Qed.

Lemma scan_stay st l : Forall (fun b => lex_step st b = (st, 0%nat)) l -> scan st l = (st, 0%nat).
Proof. induction 1 as [|b l Hb _ IH]; [reflexivity|]. cbn [scan]. now rewrite Hb, IH. Qed.

(** A byte other than a space, a [[] and a double quote stays at top
    level. *)
Lemma top_byte b :
  byteb b sp = false -> byteb b lbrack = false -> byteb b dq = false -> lex_step Top b = (Top, 0%nat).
Proof. intros Hs Hl Hd. cbn [lex_step]. now rewrite Hs, Hl, Hd. Qed.

Lemma top_value b :
  bval b <> 32 -> bval b <> 91 -> bval b <> 34 -> lex_step Top b = (Top, 0%nat).
Proof. intros. apply top_byte; apply Z.eqb_neq; assumption. Qed.

Lemma top_avoids l : avoids [sp; lbrack; dq] l = true -> scan Top l = (Top, 0%nat).
Proof.
  intros Ha. apply scan_stay.
  pose proof (avoids_Forall sp _ _ Ha ltac:(cbn; tauto)) as Hs.
  pose proof (avoids_Forall lbrack _ _ Ha ltac:(cbn; tauto)) as Hl.
  pose proof (avoids_Forall dq _ _ Ha ltac:(cbn; tauto)) as Hd.
  rewrite Forall_forall in *. intros b Hb. apply top_byte; auto.
Qed.

Lemma quot_plain l : no_dq l = true -> no_bslash l = true -> scan Quot l = (Quot, 0%nat).
Proof.
  intros Hd Hb. apply scan_stay, Forall_forall. intros b Hin.
  pose proof (proj1 (forallb_forall _ _) Hd b Hin) as Hd'.
  pose proof (proj1 (forallb_forall _ _) Hb b Hin) as Hb'.
  cbv beta in Hd', Hb'. apply negb_true_iff in Hd', Hb'.
  cbn [lex_step]. now rewrite Hd', Hb'.
Qed.

Lemma quot_avoids l : avoids [dq; bslash] l = true -> scan Quot l = (Quot, 0%nat).
Proof.
  intros Ha.
  pose proof (avoids_Forall dq _ _ Ha ltac:(cbn; tauto)) as Hd.
  pose proof (avoids_Forall bslash _ _ Ha ltac:(cbn; tauto)) as Hs.
  rewrite Forall_forall in *. apply scan_stay, Forall_forall. intros b Hb.
  cbn [lex_step]. now rewrite Hs, Hd.
Qed.

(** ** The pieces of a line *)

(** The digits and the minus sign of [Itoa] stay at top level. *)
Lemma int_byte_top b : int_byte b = true -> lex_step Top b = (Top, 0%nat).
Proof.
  unfold int_byte, is_digit, byteb. change (bval minus) with 45.
  intros Hb. apply orb_true_iff in Hb as [Hb|Hb]; zbool; apply top_value; lia.
Qed.

Lemma Itoa_top i : scan Top (Itoa i) = (Top, 0%nat).
Proof.
  apply scan_stay, Forall_forall. intros b Hb.
  exact (int_byte_top b (proj1 (forallb_forall _ _) (Itoa_int i) b Hb)).
Qed.

(** So do the digits, point, sign and letters of the latency. *)
Lemma duration_byte_top b : duration_byte b = true -> lex_step Top b = (Top, 0%nat).
Proof.
  unfold duration_byte, is_digit. intros Hb. apply orb_true_iff in Hb as [Hb|Hb].
  - zbool. apply top_value; lia.
  - apply existsb_exists in Hb as (x & Hx & Hbx). unfold byteb in Hbx. zbool.
    cbn in Hx. repeat destruct Hx as [<-|Hx]; try contradiction;
      cbn in Hbx; apply top_value; lia.
Qed.

Lemma prettyDuration_top d : scan Top (prettyDuration d) = (Top, 0%nat).
Proof.
  apply scan_stay. eapply Forall_impl; [|exact (prettyDuration_bytes d)].
  intros b Hb. apply duration_byte_top. now apply negb_false_iff.
Qed.

(** The timestamp holds no [']']: it stays inside the brackets. *)
Lemma FormatCLF_brack ts : scan Brack (FormatCLF ts) = (Brack, 0%nat).
Proof.
  apply scan_stay. eapply Forall_impl; [|exact (FormatCLF_no_rbrack ts)].
  intros b Hb. unfold is_rbrack in Hb. cbn [lex_step]. now rewrite Hb.
Qed.

(** An escape of the [switch] or of an invalid byte: the backslash and
    its letter, then hex digits, all inside the quotes. *)
Lemma letter_scan t : letter_escape t = true -> no_dq t = true -> scan Quot t = (Quot, 0%nat).
Proof.
  destruct t as [|b [|c t]]; try discriminate. cbn [letter_escape].
  rewrite !andb_true_iff. intros [[Hb _] Ht] Hd.
  change (b :: c :: t) with ([b; c] ++ t) in *. rewrite scan_app.
  cbn [scan lex_step]. rewrite Hb. cbn [scan lex_step scan_then].
  unfold no_dq in Hd. rewrite forallb_app in Hd. apply andb_true_iff in Hd as [_ Hd].
  now rewrite quot_plain.
Qed.

Section QuoteScan.
Context `{UnicodeTables}.

Lemma step_scan s out w : step_view s out w -> scan Quot out = (Quot, 0%nat).
Proof.
  destruct 1 as [s0 s' -> _|s0 s' -> _|r w Hd _ _ H34 H92|s0 s' r w -> _ _ _ _ _].
  - exact (letter_scan _ (escape_x_letter s0) (escape_x_no_dq s0)).
  - cbn [scan lex_step]. now rewrite byteb_refl.
  - exact (quot_plain _ (decoded_no_dq _ _ _ Hd H34) (decoded_no_byte _ _ _ bslash Hd eq_refl H92)).
  - exact (letter_scan _ (escape_rune_letter s0 r) (escape_rune_no_dq s0 r)).
Qed.

(** The escaped text never leaves the quotes. *)
Lemma quote_scan s : scan Quot (quote s) = (Quot, 0%nat).
Proof.
  induction s as [|s Hs IH] using quote_loop_ind; [reflexivity|].
  rewrite quote_unfold by exact Hs.
  rewrite scan_app, (step_scan _ _ _ (quote_step_view s Hs)). cbn [scan_then].
  now rewrite IH.
Qed.

End QuoteScan.

(** ** Counting the fields *)

(** The number of top-level fields of a line, when its brackets and
    quotes are closed. *)
Definition top_fields (l : list byte) : option nat :=
  match scan Top l with
  | (Top, n) => Some (S n)
  | _ => None
  end.

(** Reads the next piece of a line laid out as a right-nested append. *)
Ltac scan_piece :=
  rewrite scan_app;
  first [ rewrite top_avoids by assumption
        | rewrite quot_avoids by assumption
        | rewrite FormatCLF_brack | rewrite quote_scan | rewrite Itoa_top
        | rewrite prettyDuration_top
        | match goal with
          | |- context [scan ?st (bs ?x)] =>
              let v := eval vm_compute in (scan st (bs x)) in change (scan st (bs x)) with v
          | |- context [scan ?st [dq]] =>
              let v := eval vm_compute in (scan st [dq]) in change (scan st [dq]) with v
          end ];
  cbn [scan_then].

Section Count.
Context `{UnicodeTables}.

(** C9. Specification, section 8, first property: with a host and user
    name free of spaces, brackets and quotes and a method and protocol
    free of quotes and backslashes, the Common line holds eight top-level
    fields (host, [-], user, the bracketed timestamp, the quoted request
    line, status, size and latency; the specification says seven while
    listing these eight) and the Combined line exactly two more, the
    quoted referrer and user agent, whatever bytes the request target,
    referrer and user agent hold. *)
Theorem log_line_fields w req ts status size delay :
  avoids [sp; lbrack; dq] (log_host req) = true ->
  avoids [sp; lbrack; dq] (log_username req) = true ->
  avoids [dq; bslash] (Method req) = true ->
  avoids [dq; bslash] (Proto req) = true ->
  exists c k, writeCommonLog w req ts status size delay = w ++ [c] /\
              writeCombinedLog w req ts status size delay = w ++ [k] /\
              top_fields c = Some 8%nat /\ top_fields k = Some 10%nat.
Proof.
  intros. do 2 eexists. split; [apply writeCommonLog_buf|]. split; [apply writeCombinedLog_buf|].
  unfold top_fields, buildCommonLogLine. change (appendQuoted [] ?x) with (quote x).
  rewrite <- !app_assoc. split.
  all: repeat scan_piece; reflexivity.
Qed.

End Count.

(** ** A concrete run *)

Section Runs.
#[local] Existing Instance AllAbove.

(** A target and a user agent with spaces, a double quote, a bracket and
    a trailing backslash. *)
Definition tricky_request : Request :=
  {| Method := «"GET"»; URL_ := spec_url; Proto := «"HTTP/1.1"»; ProtoMajor := 1;
     Header_ := [(«"User-Agent"», [«"a "» ++ [dq] ++ «" ["»])]; Host := «"localhost:3000"»;
     RemoteAddr := «"[::1]:54321"»; RequestURI_ := «"/a b"» ++ [dq] ++ «" c\"» |}.

Lemma log_line_fields_witness :
  exists c k, writeCommonLog [] tricky_request spec_time 200 13 12000000 = [] ++ [c] /\
              writeCombinedLog [] tricky_request spec_time 200 13 12000000 = [] ++ [k] /\
              top_fields c = Some 8%nat /\ top_fields k = Some 10%nat.
Proof. apply log_line_fields; vm_compute; reflexivity. Defined.

End Runs.
