(* ===== verification/Runtime.v ===== *)
(** * Runtime: the Go library behaviour the middleware observes

    - Go's [int] / [int64]: [wrap64] is two's complement wrap-around.
    - [Chi]: chi's [basicWriter] (middleware/wrap_writer.go), library code
      modelled from its Go source: the first [WriteHeader] fixes the code
      and is forwarded to the underlying writer, [Write] sends an implicit
      [WriteHeader(200)] first, forwards the bytes and adds the count the
      underlying writer accepted to [bytes], an [int] that wraps at 64
      bits.  What the next handler does to the wrapper is the list of its
      calls ([RespOp]); [fwd_op] is what reaches the underlying writer.
    - [GoTime]: [time.Now] gives a wall-clock reading (what [Format]
      prints) and a monotonic reading; [Time.Sub] of two readings with
      monotonic parts is [subMono]: int64 subtraction with saturation.

    The theorems: the wrapper's well-formedness is kept by every call, its
    status and byte count are the first code and the total accepted, the
    underlying writer gets exactly one [WriteHeader] before any body and
    the same status, and [subMono] is saturating subtraction. *)

From Stdlib Require Import ZArith List Lia Bool.
From S2P Require Import Prelude LogLine.
Import ListNotations.
Open Scope Z_scope.

(** ** Go's [int] and [int64] *)

Definition MinInt64 : Z := - 2 ^ 63.
Definition MaxInt64 : Z := 2 ^ 63 - 1.

Definition int64 (z : Z) : Prop := MinInt64 <= z <= MaxInt64.

(** Two's complement wrap-around of a 64-bit [int]. *)
Definition wrap64 (z : Z) : Z := (z + 2 ^ 63) mod 2 ^ 64 - 2 ^ 63.

(** ** chi's [WrapResponseWriter] *)

Module Chi.

Record basicWriter := { wroteHeader : bool; code : Z; bytes : Z }.

(** [NewWrapResponseWriter(w)]: nothing written yet. *)
Definition NewWrapResponseWriter : basicWriter :=
  {| wroteHeader := false; code := 0; bytes := 0 |}.

(** [func (b *basicWriter) WriteHeader(code int)]: only the first call
    counts. *)
Definition WriteHeader (b : basicWriter) (c : Z) : basicWriter :=
  if wroteHeader b then b else {| wroteHeader := true; code := c; bytes := bytes b |}.

(** [func (b *basicWriter) Write(buf []byte)]: an implicit
    [WriteHeader(http.StatusOK)], then [b.bytes += n] for the [n] bytes
    the underlying writer accepted. *)
Definition Write (b : basicWriter) (n : Z) : basicWriter :=
  let b := WriteHeader b 200 in
  {| wroteHeader := wroteHeader b; code := code b; bytes := wrap64 (bytes b + n) |}.

Definition Status (b : basicWriter) : Z := code b.
Definition BytesWritten (b : basicWriter) : Z := bytes b.

(** A call of the next handler on the wrapper: [WriteHeader(code)], or a
    [Write] of which the underlying writer accepted [n] bytes. *)
Inductive RespOp := HeaderOp (c : Z) | BodyOp (n : Z).

Definition apply_op (b : basicWriter) (op : RespOp) : basicWriter :=
  match op with HeaderOp c => WriteHeader b c | BodyOp n => Write b n end.

(** [next.ServeHTTP(w2, r)], as the calls it makes on [w2], in order. *)
Definition serve_next (b : basicWriter) (ops : list RespOp) : basicWriter :=
  fold_left apply_op ops b.

(** The status the calls fix: the first explicit code, [200] when a body
    write comes first, [0] when there is neither. *)
Definition first_status (ops : list RespOp) : Z :=
  match ops with
  | [] => 0
  | HeaderOp c :: _ => c
  | BodyOp _ :: _ => 200
  end.

(** The calls [apply_op b op] makes on the underlying
    [http.ResponseWriter]: [b.ResponseWriter.WriteHeader(code)] inside the
    [!b.wroteHeader] test, then for [Write] the [b.ResponseWriter.Write]. *)
Definition fwd_op (b : basicWriter) (op : RespOp) : list RespOp :=
  match op with
  | HeaderOp c => if wroteHeader b then [] else [HeaderOp c]
  | BodyOp n => (if wroteHeader b then [] else [HeaderOp 200]) ++ [BodyOp n]
  end.

(** Everything the underlying writer receives while the next handler
    makes the calls [ops]. *)
Fixpoint forward (b : basicWriter) (ops : list RespOp) : list RespOp :=
  match ops with
  | [] => []
  | op :: ops' => fwd_op b op ++ forward (apply_op b op) ops'
  end.

Definition body_total (ops : list RespOp) : Z :=
  fold_right (fun op acc => match op with BodyOp n => n + acc | HeaderOp _ => acc end) 0 ops.

(** A well-formed wrapper: its count is an [int], and before the header
    is written nothing is recorded. *)
Definition wf_writer (b : basicWriter) : Prop :=
  MinInt64 <= bytes b <= MaxInt64 /\ (wroteHeader b = false -> code b = 0 /\ bytes b = 0).

Definition is_body (op : RespOp) : Prop := match op with BodyOp _ => True | HeaderOp _ => False end.

(** What a [net/http] response writer accepts without complaint: no call,
    or one [WriteHeader] followed by body writes only. *)
Definition header_first (l : list RespOp) : Prop :=
  match l with
  | [] => True
  | HeaderOp _ :: rest => Forall is_body rest
  | BodyOp _ :: _ => False
  end.

(** The status the client receives from a call sequence. *)
Definition sent_status (l : list RespOp) : Z :=
  match l with HeaderOp c :: _ => c | _ => 0 end.

End Chi.

(** ** Go's monotonic clock *)

Module GoTime.

Definition minDuration : Z := MinInt64.
Definition maxDuration : Z := MaxInt64.

(** [subMono(t, u int64) Duration] of time/time.go. *)
Definition subMono (t u : Z) : Z :=
  let d := wrap64 (t - u) in
  if (d <? 0) && (u <? t) then maxDuration
  else if (0 <? d) && (t <? u) then minDuration
  else d.

(** A [time.Time] from [time.Now()]: the wall clock [Format] prints and
    the monotonic reading [Sub] uses. *)
Record Instant := { wall : Time; mono : Z }.

(** [t.Sub(u)] when both have a monotonic reading. *)
Definition Sub (t u : Instant) : Z := subMono (mono t) (mono u).

End GoTime.

Import Chi GoTime.

(** ** Properties of the wrapper *)

Definition body_nonneg (ops : list RespOp) : Prop :=
  Forall (fun op => match op with BodyOp n => 0 <= n | HeaderOp _ => True end) ops.

Lemma wrap64_small z : MinInt64 <= z <= MaxInt64 -> wrap64 z = z.
Proof. unfold wrap64, MinInt64, MaxInt64. intros. zlia. Qed.

Lemma wrap64_high z : 2 ^ 63 <= z < 2 ^ 64 -> wrap64 z = z - 2 ^ 64.
Proof. unfold wrap64. intros. zlia. Qed.

Lemma apply_op_wroteHeader b op : wroteHeader (apply_op b op) = true.
Proof.
  destruct op; cbn; unfold WriteHeader; destruct (wroteHeader b) eqn:E; auto.
Qed.

Lemma serve_next_cons b op ops :
  serve_next b (op :: ops) = serve_next (apply_op b op) ops.
Proof. reflexivity. Qed.

Lemma serve_next_status b ops :
  (wroteHeader b = false -> code b = 0) ->
  Status (serve_next b ops) = if wroteHeader b then code b else first_status ops.
Proof.
  revert b. induction ops as [|op ops IH]; intros b Hb.
  - cbn. destruct (wroteHeader b); auto.
  - rewrite serve_next_cons, IH by (rewrite apply_op_wroteHeader; discriminate).
    rewrite apply_op_wroteHeader.
    destruct op; cbn; unfold WriteHeader; destruct (wroteHeader b); reflexivity.
Qed.

Lemma body_total_cons op ops : body_total (op :: ops) = body_total [op] + body_total ops.
Proof. destruct op; unfold body_total; cbn [fold_right]; lia. Qed.

Lemma body_total_nonneg ops : body_nonneg ops -> 0 <= body_total ops.
Proof.
  induction 1 as [|op ops Hop _ IH]; [reflexivity|].
  destruct op; cbn [body_total fold_right] in *; fold (body_total ops); lia.
Qed.

Lemma apply_op_bytes b op :
  match op with BodyOp n => 0 <= n | HeaderOp _ => True end ->
  0 <= bytes b -> bytes b + body_total [op] <= MaxInt64 ->
  bytes (apply_op b op) = bytes b + body_total [op].
Proof.
  destruct op as [c|n]; cbn; intros Hn Hb Hs.
  - unfold WriteHeader. destruct (wroteHeader b); cbn; lia.
  - rewrite wrap64_small; unfold WriteHeader in *; destruct (wroteHeader b); cbn in *;
      unfold MinInt64 in *; lia.
Qed.

Lemma serve_next_bytes b ops :
  body_nonneg ops -> 0 <= bytes b -> bytes b + body_total ops <= MaxInt64 ->
  BytesWritten (serve_next b ops) = bytes b + body_total ops.
Proof.
  intros Hops. revert b. induction Hops as [|op ops Hop Hops IH]; intros b Hb Hs.
  - cbn. unfold BytesWritten. lia.
  - pose proof (body_total_nonneg ops Hops).
    rewrite body_total_cons in *.
    assert (0 <= body_total [op]) by (apply body_total_nonneg; now constructor).
    assert (Hone : bytes (apply_op b op) = bytes b + body_total [op])
      by (apply apply_op_bytes; [exact Hop | exact Hb | lia]).
    rewrite serve_next_cons, IH; lia.
Qed.

(** ** Properties of the clock *)

Lemma subMono_exact t u :
  int64 t -> int64 u -> u <= t -> t - u <= MaxInt64 -> subMono t u = t - u.
Proof.
  unfold int64, subMono. intros Ht Hu Hle Hd.
  rewrite wrap64_small by (unfold MinInt64, MaxInt64 in *; lia).
  destruct (Z.ltb_spec (t - u) 0); [lia|]. destruct (Z.ltb_spec 0 (t - u)); cbn;
  [destruct (Z.ltb_spec t u); [lia|]|]; reflexivity.
Qed.

Lemma subMono_nonneg t u : int64 t -> int64 u -> u <= t -> 0 <= subMono t u.
Proof.
  intros Ht Hu Hle. destruct (Z.leb_spec (t - u) MaxInt64).
  - rewrite subMono_exact by assumption. lia.
  - unfold subMono, int64, MaxInt64, MinInt64 in *.
    rewrite wrap64_high by lia.
    destruct (Z.ltb_spec (t - u - 2 ^ 64) 0); [|lia].
    destruct (Z.ltb_spec u t); [|lia]. cbn. unfold maxDuration, MaxInt64. lia.
Qed.

Lemma wrap64_range z : MinInt64 <= wrap64 z <= MaxInt64.
Proof. unfold wrap64, MinInt64, MaxInt64. zlia. Qed.

(** ** Well-formedness of the wrapper *)

Lemma apply_op_wf b op : wf_writer b -> wf_writer (apply_op b op).
Proof.
  unfold wf_writer. intros [Hb Hfresh].
  split; [|rewrite apply_op_wroteHeader; discriminate].
  destruct op as [c|n]; cbn; unfold WriteHeader; destruct (wroteHeader b); cbn;
    solve [exact Hb | apply wrap64_range].
Qed.

(** Every state the next handler can bring chi's wrapper to is
    well-formed: the byte count is an [int64] and a wrapper without a
    header has recorded nothing. *)
Theorem serve_next_wf ops : wf_writer (serve_next NewWrapResponseWriter ops).
Proof.
  assert (H0 : wf_writer NewWrapResponseWriter) by (split; [cbn; unfold MinInt64, MaxInt64; lia | auto]).
  revert H0. generalize NewWrapResponseWriter as b.
  induction ops as [|op ops IH]; intros b Hb; [exact Hb|].
  rewrite serve_next_cons. apply IH, apply_op_wf, Hb.
Qed.

(** ** What the underlying writer receives *)

Lemma forward_wrote b ops : wroteHeader b = true -> Forall is_body (forward b ops).
Proof.
  revert b. induction ops as [|op ops IH]; intros b Hb; [constructor|].
  cbn [forward]. apply Forall_app. split.
  - destruct op; cbn; rewrite Hb; cbn; repeat constructor.
  - apply IH, apply_op_wroteHeader.
Qed.

Lemma body_total_app l1 l2 : body_total (l1 ++ l2) = body_total l1 + body_total l2.
Proof.
  induction l1 as [|op l1 IH]; [reflexivity|].
  rewrite <- app_comm_cons, body_total_cons, IH, (body_total_cons op l1). lia.
Qed.

Lemma forward_body_total b ops : body_total (forward b ops) = body_total ops.
Proof.
  revert b. induction ops as [|op ops IH]; intros b; [reflexivity|].
  cbn [forward]. rewrite body_total_app, IH, (body_total_cons op ops).
  destruct op; cbn; destruct (wroteHeader b); cbn; lia.
Qed.

(** C7. The wrapper is transparent: the underlying writer receives one
    [WriteHeader] before any body (never a superfluous one, never a body
    without a header), the status it sends is the one the logger reads
    from [Status()], and every body write reaches it. *)
Theorem forward_transparent ops :
  header_first (forward NewWrapResponseWriter ops) /\
  sent_status (forward NewWrapResponseWriter ops) = Status (serve_next NewWrapResponseWriter ops) /\
  body_total (forward NewWrapResponseWriter ops) = body_total ops.
Proof.
  split; [|split]; [| |apply forward_body_total].
  - destruct ops as [|[c|n] ops]; [exact I| |]; cbn [forward fwd_op wroteHeader NewWrapResponseWriter].
    + apply (forward_wrote _ ops (apply_op_wroteHeader _ _)).
    + cbn [app header_first]. constructor; [exact I|].
      apply (forward_wrote _ ops (apply_op_wroteHeader _ _)).
  - rewrite serve_next_status by reflexivity.
    destruct ops as [|[c|n] ops]; reflexivity.
Qed.

(** [Time.Sub] on two monotonic readings is saturating subtraction: the
    exact difference when it is an [int64], [maxDuration] or
    [minDuration] when it overflows. *)
Lemma subMono_saturates t u :
  int64 t -> int64 u ->
  subMono t u = Z.max MinInt64 (Z.min MaxInt64 (t - u)).
Proof.
  unfold int64, subMono, maxDuration, minDuration. intros Ht Hu.
  destruct (Z.leb_spec (t - u) MaxInt64); destruct (Z.leb_spec MinInt64 (t - u)).
  - rewrite wrap64_small by lia.
    destruct (Z.ltb_spec (t - u) 0); destruct (Z.ltb_spec u t); destruct (Z.ltb_spec 0 (t - u));
      destruct (Z.ltb_spec t u); cbn [andb]; lia.
  - unfold wrap64, MinInt64, MaxInt64 in *.
    replace ((t - u + 2 ^ 63) mod 2 ^ 64) with (t - u + 2 ^ 63 + 2 ^ 64) by zlia.
    destruct (Z.ltb_spec (t - u + 2 ^ 63 + 2 ^ 64 - 2 ^ 63) 0); [lia|].
    destruct (Z.ltb_spec 0 (t - u + 2 ^ 63 + 2 ^ 64 - 2 ^ 63)); [|lia].
    destruct (Z.ltb_spec t u); [|lia]. cbn [andb]. lia.
  - unfold MinInt64, MaxInt64 in *. rewrite wrap64_high by lia.
    destruct (Z.ltb_spec (t - u - 2 ^ 64) 0); [|lia].
    destruct (Z.ltb_spec u t); [|lia]. cbn [andb]. lia.
  - unfold MinInt64, MaxInt64 in *; lia.
Qed.

(** ** Concrete runs *)

(** ** The byte count over a whole handler run *)

(** Go's [int] addition on a wrapped value is the wrap of the exact sum. *)
Lemma wrap64_add a n : wrap64 (wrap64 a + n) = wrap64 (a + n).
Proof.
  unfold wrap64. f_equal.
  replace ((a + 2 ^ 63) mod 2 ^ 64 - 2 ^ 63 + n + 2 ^ 63) with ((a + 2 ^ 63) mod 2 ^ 64 + n) by lia.
  rewrite Zplus_mod_idemp_l. f_equal. lia.
Qed.

Lemma serve_next_wrap b ops :
  int64 (bytes b) -> bytes (serve_next b ops) = wrap64 (bytes b + body_total ops).
Proof.
  revert b. induction ops as [|[c|n] ops IH]; intros b Hb.
  - cbn. rewrite Z.add_0_r, wrap64_small by exact Hb. reflexivity.
  - rewrite serve_next_cons, IH.
    + cbn [apply_op]. unfold WriteHeader. destruct (wroteHeader b); reflexivity.
    + cbn [apply_op]. unfold WriteHeader. destruct (wroteHeader b); exact Hb.
  - rewrite serve_next_cons, IH by apply wrap64_range. cbn [apply_op Write bytes].
    rewrite body_total_cons. cbn [body_total fold_right].
    replace (bytes (WriteHeader b 200)) with (bytes b)
      by (unfold WriteHeader; destruct (wroteHeader b); reflexivity).
    rewrite wrap64_add. f_equal. lia.
Qed.

(** C29. The size field wraps like Go's [int]: [BytesWritten()] after any
    sequence of calls of the next handler is the total of the bytes its
    writes accepted, wrapped to [int64]; past [MaxInt64] bytes (and below
    [2^64]) it is that total minus [2^64], a negative size in the log
    line. *)
Theorem BytesWritten_wraps ops :
  BytesWritten (serve_next NewWrapResponseWriter ops) = wrap64 (body_total ops) /\
  (MaxInt64 < body_total ops < 2 ^ 64 ->
   BytesWritten (serve_next NewWrapResponseWriter ops) = body_total ops - 2 ^ 64).
Proof.
  assert (E : BytesWritten (serve_next NewWrapResponseWriter ops) = wrap64 (body_total ops))
    by (apply serve_next_wrap; cbn; unfold int64, MinInt64, MaxInt64; lia).
  split; [exact E|]. intros Ht. rewrite E. apply wrap64_high. unfold MaxInt64 in Ht. lia.
Qed.

(** ** Concrete runs *)

(** One byte past [MaxInt64] bytes, [BytesWritten()] is [MinInt64]. *)
Lemma BytesWritten_wraps_witness :
  MaxInt64 < body_total [BodyOp MaxInt64; BodyOp 1] < 2 ^ 64 /\
  BytesWritten (serve_next NewWrapResponseWriter [BodyOp MaxInt64; BodyOp 1]) = MinInt64.
Proof.
  assert (Ht : MaxInt64 < body_total [BodyOp MaxInt64; BodyOp 1] < 2 ^ 64)
    by (vm_compute; split; reflexivity).
  split; [exact Ht|].
  rewrite (proj2 (BytesWritten_wraps [BodyOp MaxInt64; BodyOp 1]) Ht). vm_compute. reflexivity.
Defined.
