(* ===== verification/Middleware.v ===== *)
(** * Middleware: [CombinedLogger] and [CommonLogger] (src/logger.go:28-56)

    Each logger wraps the next handler: it reads the clock ([t1]), wraps
    the response writer with chi's [middleware.NewWrapResponseWriter],
    lets the next handler serve the request through the wrapper, reads the
    clock again ([t2]) and writes one log entry with the wrapper's
    [Status()] and [BytesWritten()] and [t2.Sub(t1)].  [fn] is the body of
    the handler (src/logger.go:32-38 and 47-53) as a function of the two
    clock readings and the next handler's calls on the wrapper; the
    wrapper and the clock are in [Runtime]. *)

From Stdlib Require Import ZArith List Lia Bool.
From S2P Require Import Prelude Strconv Quote LogLine Runtime.
Import ListNotations.
Open Scope Z_scope.
Open Scope go_scope.
Import Chi GoTime.

(** ** The handler [fn] *)

Inductive LogFormat := CommonFmt | CombinedFmt.

Section Handler.
Context `{UnicodeTables}.

Definition writeLog (f : LogFormat) : Sink -> Request -> Time -> Z -> Z -> Z -> Sink :=
  match f with CommonFmt => writeCommonLog | CombinedFmt => writeCombinedLog end.

(** [fn(w, r)] of the logger of format [f] on [out]: [t1] read on entry,
    [ops] the calls [next.ServeHTTP(w2, r)] makes on the wrapper, [t2] read
    after it returns. *)
Definition fn (f : LogFormat) (out : Sink) (r : Request) (t1 : Instant)
    (ops : list RespOp) (t2 : Instant) : Sink :=
  let w2 := NewWrapResponseWriter in
  let w2 := serve_next w2 ops in
  writeLog f out r (wall t1) (Status w2) (BytesWritten w2) (Sub t2 t1).

Definition CombinedLogger (out : Sink) := fn CombinedFmt out.
Definition CommonLogger (out : Sink) := fn CommonFmt out.

End Handler.

(** ** Properties of the handler *)

Section HandlerProps.
Context `{UnicodeTables}.

Lemma writeLog_app f w r ts st sz d :
  writeLog f w r ts st sz d = w ++ writeLog f [] r ts st sz d.
Proof. destruct f; reflexivity. Qed.

(** The line of each format, as the specification's section 6 gives it:
    Common, and Combined as Common followed by the quoted referrer and
    user agent. *)
Definition format_line (f : LogFormat) (r : Request) (ts : Time) (status size delay : Z)
  : list byte :=
  let common := buildCommonLogLine r ts status size delay in
  match f with
  | CommonFmt => common
  | CombinedFmt => common ++ «" "» ++ [dq] ++ quote (Referer r) ++ [dq] ++ «" "» ++ [dq] ++
                   quote (UserAgent r) ++ [dq]
  end.


(** C6. What the handler logs: the status is the first code the next
    handler sent (an implicit [200] for a body written first), the size is
    the total the underlying writer accepted, the latency is [t2 - t1] in
    nanoseconds, when the byte count fits in an [int] and the monotonic
    readings are ordered int64 values. *)
Theorem fn_fields f out r t1 ops t2 :
  body_nonneg ops -> body_total ops <= MaxInt64 ->
  0 <= mono t1 <= mono t2 -> mono t2 <= MaxInt64 ->
  fn f out r t1 ops t2
  = writeLog f out r (wall t1) (first_status ops) (body_total ops) (mono t2 - mono t1).
Proof.
  intros Hops Htot Ht1 Ht2. unfold fn.
  rewrite serve_next_status, serve_next_bytes by (cbn; auto; lia). cbn [wroteHeader].
  unfold Sub. rewrite subMono_exact by (unfold int64, MinInt64 in *; lia). reflexivity.
Qed.

(** C16. Bounds of the latency field: for any two monotonic readings in
    the [int64] range, the handler logs their difference clamped to
    [[MinInt64, MaxInt64]] (Go's [Time.Sub] saturates instead of
    wrapping), never a wrapped-around value. *)
Theorem fn_latency_bounds f out r t1 ops t2 :
  int64 (mono t1) -> int64 (mono t2) ->
  fn f out r t1 ops t2
  = writeLog f out r (wall t1) (Status (serve_next NewWrapResponseWriter ops))
             (BytesWritten (serve_next NewWrapResponseWriter ops))
             (Z.max MinInt64 (Z.min MaxInt64 (mono t2 - mono t1))).
Proof. intros H1 H2. unfold fn, Sub. now rewrite subMono_saturates. Qed.

End HandlerProps.

(** ** Concrete runs *)

Section Runs.
#[local] Existing Instance AllAbove.

Definition t1_run : Instant := {| wall := spec_time; mono := 0 |}.
Definition t2_run : Instant := {| wall := spec_time; mono := 12000000 |}.

(** The end-to-end scenario of the specification through
    [CombinedLogger]: the next handler writes its 13 bytes without calling
    [WriteHeader] (chi's wrapper records the implicit [200]) and the
    monotonic clock advances by 12 ms; the one buffer written is the
    specified line and its newline. *)
Example CombinedLogger_spec_scenario :
  CombinedLogger [] spec_request t1_run [BodyOp 13] t2_run =
  [«"::1 - - [02/Jan/2017:20:07:27 +0100] "» ++ [dq] ++ «"GET / HTTP/1.1"» ++ [dq] ++
   «" 200 13 12.000ms "» ++ [dq; dq] ++ «" "» ++ [dq] ++ «"curl/7.51.0"» ++ [dq; newline]].
Proof. vm_compute. reflexivity. Qed.

(** A next handler that writes nothing: status [0], size [0]. *)
Lemma fn_fields_witness :
  fn CommonFmt [] spec_request t1_run [] t2_run
  = writeLog CommonFmt [] spec_request spec_time 0 0 12000000.
Proof. apply fn_fields; [constructor | unfold MaxInt64; cbn; lia ..]. Defined.

(** Readings at the two ends of the [int64] range: the latency saturates. *)
Lemma fn_latency_bounds_witness :
  fn CommonFmt [] spec_request {| wall := spec_time; mono := MinInt64 |} []
     {| wall := spec_time; mono := MaxInt64 |}
  = writeLog CommonFmt [] spec_request spec_time 0 0 MaxInt64.
Proof.
  rewrite fn_latency_bounds by (unfold int64, MinInt64, MaxInt64; cbn; lia).
  vm_compute. reflexivity.
Defined.

End Runs.
