(* ===== verification/Readme.v ===== *)
(** * Readme: the usage example of the README (src/unnamed/part_000:18-43)

    The README's program runs [logger.CombinedLogger(os.Stdout)] around a
    handler for [GET /] that writes ["Hello, World!\n"], and shows the log
    line a [curl] request produces.  [hello_handler] is the handler as the
    calls it makes on the wrapper, [readme_main] the logged request, and
    [readme_log_line] the line the README shows.  chi's routing of other
    paths (its 404 handler) and [http.ListenAndServe] are not modelled.

    The handler writes 14 bytes, so the program logs [200 14], and 12 ms
    print as [12.000ms]: no run of the program prints the README's line,
    which has [200 13] and [0.012ms]. *)

From Stdlib Require Import ZArith List Lia Bool.
From S2P Require Import Prelude Strconv Quote HostPort LogLine Runtime Middleware.
Import ListNotations.
Open Scope Z_scope.
Open Scope go_scope.
Import Chi GoTime.

(** [[]byte("Hello, World!\n")] *)
Definition hello_body : list byte := «"Hello, World!"» ++ [newline].

(** The handler given to [r.Get("/", ...)]: one [w.Write] of the body,
    which the connection accepts in full. *)
Definition hello_handler : list RespOp := [BodyOp (Z.of_nat (length hello_body))].

(** [r.Use(logger.CombinedLogger(os.Stdout))] around the handler: what a
    request for [GET /] appends to standard output. *)
Definition readme_main `{UnicodeTables} (stdout : Sink) (r : Request) (t1 t2 : Instant) : Sink :=
  CombinedLogger stdout r t1 hello_handler t2.

(** The line the README shows, src/unnamed/part_000:43. *)
Definition readme_log_line : list byte :=
  «"::1 - - [02/Jan/2017:20:07:27 +0100] "» ++ [dq] ++ «"GET / HTTP/1.1"» ++ [dq] ++
  «" 200 13 0.012ms "» ++ [dq; dq] ++ «" "» ++ [dq] ++ «"curl/7.51.0"» ++ [dq].

Definition logged_size (l : list byte) : option Z :=
  option_map (fun x => f_size (fst (fst (fst x)))) (parse_combined l).

Section Readme.
Context `{UnicodeTables}.

(** C28. The README's program never prints the README's log line: for the
    [curl] request of the README, whatever the clocks read, the program
    writes one line whose size field reads back as 14 (the bytes of
    ["Hello, World!\n"]), while the README's line has size 13. *)
Theorem readme_line_not_produced t1 t2 :
  exists l, readme_main [] spec_request t1 t2 = [l] /\ logged_size l = Some 14 /\
            logged_size (readme_log_line ++ [newline]) = Some 13 /\
            l <> readme_log_line ++ [newline].
Proof.
  unfold readme_main, CombinedLogger, fn.
  replace (Status (serve_next NewWrapResponseWriter hello_handler)) with 200 by reflexivity.
  replace (BytesWritten (serve_next NewWrapResponseWriter hello_handler)) with 14 by reflexivity.
  cbn [writeLog]. rewrite writeCombinedLog_buf, app_nil_l.
  eexists. split; [reflexivity|].
  assert (H14 : logged_size (buildCommonLogLine spec_request (wall t1) 200 14 (Sub t2 t1) ++
                  «" "» ++ [dq] ++ quote (Referer spec_request) ++ [dq] ++ «" "» ++ [dq] ++
                  quote (UserAgent spec_request) ++ [dq; newline]) = Some 14).
  { unfold logged_size. rewrite parse_combined_line by (vm_compute; reflexivity). reflexivity. }
  assert (H13 : logged_size (readme_log_line ++ [newline]) = Some 13) by (vm_compute; reflexivity).
  split; [exact H14|]. split; [exact H13|].
  intros E. rewrite E, H13 in H14. discriminate.
Qed.

End Readme.

(** ** Concrete run *)

Section Runs.
#[local] Existing Instance AllAbove.

(** What the README's program prints for its [curl] request,
    answered in 12 ms: [200 14 12.000ms]. *)
Example readme_main_line :
  readme_main [] spec_request t1_run t2_run =
  [«"::1 - - [02/Jan/2017:20:07:27 +0100] "» ++ [dq] ++ «"GET / HTTP/1.1"» ++ [dq] ++
   «" 200 14 12.000ms "» ++ [dq; dq] ++ «" "» ++ [dq] ++ «"curl/7.51.0"» ++ [dq; newline]].
Proof. vm_compute. reflexivity. Qed.

End Runs.
